(** * CSV ingestion and record editing of the video tracker

    A shallow embedding of [lib/supabase.ts] (column resolution, row
    parsing, date normalisation, duplicate check, batch write), of
    [App.tsx] ([handleFileSelect], [handleSaveVideo]) and of
    [components/VideoTable.tsx] ([handleSave]).

    Strings are sequences of code units restricted to U+0000..U+00FF
    (Stdlib [string]), numbers are IEEE 754 doubles (Stdlib
    [spec_float]).  Exceptions are an explicit result type, the record
    store, the clock and the uuid generator are explicit state. *)

From Stdlib Require Import List Bool Arith ZArith Lia.
From Stdlib Require Import SpecFloat.
From Stdlib Require Import Ascii String.
From Stdlib Require Import DecimalString DecimalNat.
Import ListNotations.

Local Open Scope string_scope.
Local Open Scope list_scope.
Local Open Scope nat_scope.

(** ** JavaScript string primitives used by the program *)

Module JS.

(** [WhiteSpace] and [LineTerminator] code units below U+0100: TAB, LF, VT,
    FF, CR, SP, NBSP. *)
Definition is_ws (c : ascii) : bool :=
  let n := nat_of_ascii c in
  ((9 <=? n) && (n <=? 13)) || (n =? 32) || (n =? 160).

Fixpoint trimStart (s : string) : string :=
  match s with
  | EmptyString => EmptyString
  | String c s' => if is_ws c then trimStart s' else s
  end.

Fixpoint trimEnd (s : string) : string :=
  match s with
  | EmptyString => EmptyString
  | String c s' =>
      match trimEnd s' with
      | EmptyString => if is_ws c then EmptyString else String c EmptyString
      | t => String c t
      end
  end.

(** [String.prototype.trim] *)
Definition trim (s : string) : string := trimEnd (trimStart s).

(** [toLowerCase] on one code unit: A-Z, and the Latin-1 capitals
    U+00C0..U+00DE except the multiplication sign U+00D7. *)
Definition lower_char (c : ascii) : ascii :=
  let n := nat_of_ascii c in
  if ((65 <=? n) && (n <=? 90))
     || ((192 <=? n) && (n <=? 222) && negb (n =? 215))
  then ascii_of_nat (n + 32) else c.

Fixpoint toLowerCase (s : string) : string :=
  match s with
  | EmptyString => EmptyString
  | String c s' => String (lower_char c) (toLowerCase s')
  end.

(** [s.split(sep)] for a separator of one code unit; the empty string
    splits into one empty field. *)
Fixpoint split (sep : ascii) (s : string) : list string :=
  match s with
  | EmptyString => [EmptyString]
  | String c s' =>
      if Ascii.eqb c sep then EmptyString :: split sep s'
      else match split sep s' with
           | h :: t => String c h :: t
           | [] => [String c EmptyString]
           end
  end.

(** [s.replace(pat, rep)] with a string pattern: only the first occurrence
    of [pat] is replaced. *)
Fixpoint replace (pat rep s : string) : string :=
  if String.prefix pat s
  then rep ++ String.substring (String.length pat) (String.length s) s
  else match s with
       | EmptyString => EmptyString
       | String c s' => String c (replace pat rep s')
       end.

Definition is_digit (c : ascii) : bool :=
  let n := nat_of_ascii c in (48 <=? n) && (n <=? 57).

(** The character class [0-9.-] of the gmv regular expression. *)
Definition is_numeric_char (c : ascii) : bool :=
  is_digit c || Ascii.eqb c "."%char || Ascii.eqb c "-"%char.

Fixpoint filter_chars (p : ascii -> bool) (s : string) : string :=
  match s with
  | EmptyString => EmptyString
  | String c s' => if p c then String c (filter_chars p s') else filter_chars p s'
  end.

(** [s.replace(/[^0-9.-]+/g, '')]: every maximal run of characters outside
    the class is deleted, which keeps exactly the characters of the class. *)
Definition strip_non_numeric (s : string) : string :=
  filter_chars is_numeric_char s.

(** Longest prefix of decimal digits, and the rest. *)
Fixpoint span_digits (s : string) : string * string :=
  match s with
  | EmptyString => (EmptyString, EmptyString)
  | String c s' =>
      if is_digit c
      then let '(d, r) := span_digits s' in (String c d, r)
      else (EmptyString, s)
  end.

Fixpoint digits_value (acc : Z) (s : string) : Z :=
  match s with
  | EmptyString => acc
  | String c s' => digits_value (10 * acc + Z.of_nat (nat_of_ascii c - 48)) s'
  end.

(** A JavaScript number is an IEEE 754 double: [spec_float] with 53 bits
    of precision and exponent bound 1024. *)
Definition number : Type := spec_float.

(** The double nearest to [m / d], ties to even, with the sign [neg]: a
    zero keeps the sign, and a quotient beyond the range of the doubles is
    an infinity. *)
Definition nearest_double (neg : bool) (m : Z) (d : positive) : number :=
  match m with
  | Zpos p => SFdiv 53 1024 (S754_finite neg p 0) (S754_finite false d 0)
  | _ => S754_zero neg
  end.

(** [x < 0] *)
Definition negative (x : number) : bool := SFltb x (S754_zero false).

(** [isFinite(x)] *)
Definition isFinite (x : number) : bool :=
  match x with
  | S754_zero _ | S754_finite _ _ _ => true
  | S754_infinity _ | S754_nan => false
  end.

(** [parseFloat] on strings over the alphabet [0-9.-] (the only strings
    the program passes to it): the longest prefix that is a
    [StrDecimalLiteral] without exponent, that is an optional minus sign,
    then digits with an optional fraction, or a dot followed by digits.
    [None] stands for [NaN]; otherwise the result is the double nearest to
    the decimal read. *)
Definition parseFloat (s : string) : option number :=
  let '(neg, r) :=
    match s with
    | String c r => if Ascii.eqb c "-" then (true, r) else (false, s)
    | EmptyString => (false, s)
    end in
  let '(ip, r1) := span_digits r in
  let fp :=
    match r1 with
    | String c r2 => if Ascii.eqb c "." then fst (span_digits r2) else EmptyString
    | EmptyString => EmptyString
    end in
  if (String.length ip =? 0) && (String.length fp =? 0) then None
  else
    Some (nearest_double neg (digits_value 0 (ip ++ fp))
            (Z.to_pos (10 ^ Z.of_nat (String.length fp)))).

(** Truthiness of a string value. *)
Definition truthy (s : string) : bool := negb (String.eqb s EmptyString).

(** [names.includes(h)] *)
Definition includes (names : list string) (h : string) : bool :=
  existsb (String.eqb h) names.

(** [xs.findIndex(p)]; [None] stands for [-1]. *)
Fixpoint findIndex {A : Type} (p : A -> bool) (xs : list A) : option nat :=
  match xs with
  | [] => None
  | x :: xs' =>
      if p x then Some 0
      else match findIndex p xs' with
           | Some i => Some (S i)
           | None => None
           end
  end.

(** [names.join(sep)] *)
Definition join (sep : string) (names : list string) : string :=
  String.concat sep names.

(** A non-negative integer inside a template literal. *)
Definition show_nat (n : nat) : string :=
  NilEmpty.string_of_uint (Nat.to_uint n).

End JS.

(** ** Values of the program *)

(** A thrown value: an instance of [Error] with its message, or any other
    value together with what [String(v)] gives for it.  The errors the
    record store reports are thrown as they are; which kind they are is the
    client library's choice. *)
Inductive exn : Type :=
| ErrorObj (message : string)
| NonError (shown : string).

Inductive result (A : Type) : Type :=
| Ok (a : A)
| Throw (e : exn).
Arguments Ok {A} a.
Arguments Throw {A} e.

(** [error instanceof Error ? error.message : dflt] *)
Definition message_or (error : exn) (dflt : string) : string :=
  match error with
  | ErrorObj m => m
  | NonError _ => dflt
  end.

(** [error instanceof Error ? error.message : String(error)] *)
Definition message_or_String (error : exn) : string :=
  match error with
  | ErrorObj m => m
  | NonError shown => shown
  end.

Inductive Status : Type := pending | authorized | unauthorized.

(** [interface CSVColumnMap] *)
Module CSVColumnMap.
Record t : Type := Build
  { name : nat; post_date : nat; creator_username : nat; gmv : nat }.
End CSVColumnMap.

(** [interface CSVVideoData] *)
Module CSVVideoData.
Record t : Type := Build
  { name : option string; post_date : string; creator_username : string;
    gmv : JS.number }.
End CSVVideoData.

(** [interface VideoEntry].  [name] holds [null] at run time when the CSV
    cell was empty; [sparkCode] is optional. *)
Module VideoEntry.
Record t : Type := Build
  { id : string;
    video_id : string;
    name : option string;
    postDate : string;
    creatorUsername : string;
    gmv : JS.number;
    hasSparkCode : bool;
    dateAdded : string;
    tags : list string;
    status : Status;
    sparkCode : option string }.
End VideoEntry.

(** [interface UploadSummaryData] *)
Module UploadSummaryData.
Record t : Type := Build
  { newEntries : nat;
    duplicates : nat;
    errors : nat;
    total : nat;
    errorMessages : list string }.
End UploadSummaryData.

(** A row of the table [videos] of the record store, with the columns the
    program writes. *)
Module Row.
Record t : Type := Build
  { id : string;
    video_id : string;
    name : option string;
    post_date : string;
    creator_username : string;
    gmv : JS.number;
    spark_code : string;
    status : Status;
    user_id : string;
    created_at : string }.
End Row.

(** What [saveVideos] returns. *)
Module SaveResult.
Record t : Type := Build { inserted : nat; duplicates : nat }.
End SaveResult.

(** The argument of [handleSaveVideo]; every field is optional. *)
Module Updates.
Record t : Type := Build
  { video_id : option string; sparkCode : option string; status : option Status }.
End Updates.

(** The object passed to [.update(...)]: a column is present only when
    the spread put it there. *)
Module Patch.
Record t : Type := Build
  { video_id : option string; spark_code : option string; status : option Status }.
End Patch.

(** The edit-in-place state of [VideoTable]. *)
Module Editing.
Record t : Type := Build { id : string; video_id : string; sparkCode : string }.
End Editing.

(** The [{ data, error }] object a store call resolves to. *)
Module Response.
Record t (A : Type) : Type := Build { data : option A; error : option exn }.
Arguments Build {A} data error.
Arguments data {A} _.
Arguments error {A} _.
End Response.

(** ** The JavaScript runtime the program runs on

    [Date_parse s] is the time value of [new Date(s)] ([None] when
    [getTime()] is [NaN]), [toISOString] formats a time value, [clock k] is
    the k-th reading of the system clock and [uuidv4 k] the k-th identifier
    the generator returns. *)
Record Runtime : Type := BuildRuntime
  { Date_parse : string -> option Z;
    toISOString : Z -> string;
    clock : nat -> Z;
    uuidv4 : nat -> string }.

(** ** Everything that changes

    The React state of [App] and [VideoTable], the table [videos] of the
    store, how many clock readings and uuid draws have happened, and the
    error the backend is about to report for each kind of call ([None]: the
    call succeeds). *)
Record State : Type := BuildState
  { videos : list VideoEntry.t;
    error : option string;
    uploadSummary : option UploadSummaryData.t;
    loading : bool;
    editingVideo : option Editing.t;
    db : list Row.t;
    ticks : nat;
    draws : nat;
    select_fault : option exn;
    upsert_fault : option exn;
    update_fault : option exn }.

Definition set_videos (v : list VideoEntry.t) (s : State) : State :=
  BuildState v (error s) (uploadSummary s) (loading s) (editingVideo s)
    (db s) (ticks s) (draws s) (select_fault s) (upsert_fault s) (update_fault s).
Definition set_error (e : option string) (s : State) : State :=
  BuildState (videos s) e (uploadSummary s) (loading s) (editingVideo s)
    (db s) (ticks s) (draws s) (select_fault s) (upsert_fault s) (update_fault s).
Definition set_uploadSummary (u : option UploadSummaryData.t) (s : State) : State :=
  BuildState (videos s) (error s) u (loading s) (editingVideo s)
    (db s) (ticks s) (draws s) (select_fault s) (upsert_fault s) (update_fault s).
Definition set_loading (l : bool) (s : State) : State :=
  BuildState (videos s) (error s) (uploadSummary s) l (editingVideo s)
    (db s) (ticks s) (draws s) (select_fault s) (upsert_fault s) (update_fault s).
Definition set_editingVideo (e : option Editing.t) (s : State) : State :=
  BuildState (videos s) (error s) (uploadSummary s) (loading s) e
    (db s) (ticks s) (draws s) (select_fault s) (upsert_fault s) (update_fault s).
Definition set_db (d : list Row.t) (s : State) : State :=
  BuildState (videos s) (error s) (uploadSummary s) (loading s) (editingVideo s)
    d (ticks s) (draws s) (select_fault s) (upsert_fault s) (update_fault s).
Definition tick (s : State) : State :=
  BuildState (videos s) (error s) (uploadSummary s) (loading s) (editingVideo s)
    (db s) (S (ticks s)) (draws s) (select_fault s) (upsert_fault s) (update_fault s).
Definition draw (s : State) : State :=
  BuildState (videos s) (error s) (uploadSummary s) (loading s) (editingVideo s)
    (db s) (ticks s) (S (draws s)) (select_fault s) (upsert_fault s) (update_fault s).

(** ** The monad of the program: state and exceptions *)

Definition M (A : Type) : Type := State -> result A * State.

Definition ret {A : Type} (a : A) : M A := fun s => (Ok a, s).

Definition bind {A B : Type} (m : M A) (k : A -> M B) : M B :=
  fun s =>
    match m s with
    | (Ok a, s') => k a s'
    | (Throw e, s') => (Throw e, s')
    end.

Definition throw {A : Type} (e : exn) : M A := fun s => (Throw e, s).

(** [try { m } catch (error) { h error }] *)
Definition try_catch {A : Type} (m : M A) (h : exn -> M A) : M A :=
  fun s =>
    match m s with
    | (Ok a, s') => (Ok a, s')
    | (Throw e, s') => h e s'
    end.

Definition modify (f : State -> State) : M unit := fun s => (Ok tt, f s).

Definition lift {A : Type} (r : result A) : M A := fun s => (r, s).

Declare Scope prog_scope.
Delimit Scope prog_scope with prog.
Notation "x <- m ;; k" := (bind m (fun x => k))
  (at level 61, m at next level, right associativity) : prog_scope.
Notation "' p <- m ;; k" := (bind m (fun x => match x with p => k end))
  (at level 61, p pattern, m at next level, right associativity) : prog_scope.
Notation "m ;; k" := (bind m (fun _ => k))
  (at level 61, right associativity) : prog_scope.
Local Open Scope prog_scope.

(** ** Column Resolver: [findColumnIndices] *)

(** The object literal [columnMappings], in the order of its keys. *)
Definition columnMappings : list (string * list string) :=
  [ ("name", ["Video name"; "video name"; "name"; "title"]);
    ("post_date", ["Video post date"; "video post date"; "post date"; "date";
                   "posted"; "post_date"]);
    ("creator_username", ["Creator username"; "creator username"; "creator";
                          "username"; "creator_username"]);
    ("gmv", ["GMV"; "gmv"; "revenue"; "earnings"]) ].

(** [Partial<CSVColumnMap>]: the keys set so far. *)
Definition PartialMap : Type := list (string * nat).

Fixpoint set_key (field : string) (index : nat) (m : PartialMap) : PartialMap :=
  match m with
  | [] => [(field, index)]
  | (k, v) :: m' =>
      if String.eqb k field then (k, index) :: m' else (k, v) :: set_key field index m'
  end.

Fixpoint get_key (field : string) (m : PartialMap) : option nat :=
  match m with
  | [] => None
  | (k, v) :: m' => if String.eqb k field then Some v else get_key field m'
  end.

(** [columnMap as CSVColumnMap]; a key that was never set would read as
    [undefined], which the loop below excludes. *)
Definition as_CSVColumnMap (m : PartialMap) : CSVColumnMap.t :=
  let get f := match get_key f m with Some i => i | None => 0 end in
  CSVColumnMap.Build (get "name") (get "post_date") (get "creator_username") (get "gmv").

Definition missing_column_message (field : string) (possibleNames : list string) : string :=
  "Required column not found: " ++ field ++ ". Possible names: "
  ++ JS.join ", " possibleNames.

(** The [for ... of Object.entries(columnMappings)] loop. *)
Fixpoint resolve_columns (headers : list string)
    (mappings : list (string * list string)) (columnMap : PartialMap)
  : result PartialMap :=
  match mappings with
  | [] => Ok columnMap
  | (field, possibleNames) :: rest =>
      match JS.findIndex (JS.includes possibleNames) headers with
      | None => Throw (ErrorObj (missing_column_message field possibleNames))
      | Some index => resolve_columns headers rest (set_key field index columnMap)
      end
  end.

Definition header_labels (headerRow : string) : list string :=
  map (fun h => JS.toLowerCase (JS.trim h)) (JS.split ","%char headerRow).

Definition findColumnIndices (headerRow : string) : result CSVColumnMap.t :=
  let headers := header_labels headerRow in
  match resolve_columns headers columnMappings [] with
  | Throw e => Throw e
  | Ok columnMap => Ok (as_CSVColumnMap columnMap)
  end.

(** ** Row Parser: [parseCSVLine] and [parseDate] *)

(** [Math.max(...Object.values(columnMap)) + 1] *)
Definition needed_fields (columnMap : CSVColumnMap.t) : nat :=
  Nat.max (CSVColumnMap.name columnMap)
    (Nat.max (CSVColumnMap.post_date columnMap)
       (Nat.max (CSVColumnMap.creator_username columnMap)
          (CSVColumnMap.gmv columnMap))) + 1.

(** A field read by index, [None] where JavaScript gives [undefined] or
    the empty string: the cases in which [!field] holds. *)
Definition truthy_field (fields : list string) (i : nat) : option string :=
  match nth_error fields i with
  | Some f => if JS.truthy f then Some f else None
  | None => None
  end.

Definition line_prefix (lineNumber : nat) : string :=
  "Line " ++ JS.show_nat lineNumber ++ ": ".

Section Program.

Variable R : Runtime.

(** [new Date().toISOString()]: one reading of the clock. *)
Definition new_Date_toISOString : M string :=
  fun s => (Ok (toISOString R (clock R (ticks s))), tick s).

Definition parseDate (dateString : string) : M string :=
  try_catch
    (match Date_parse R dateString with
     | None => throw (ErrorObj "Invalid date")
     | Some t => ret (toISOString R t)
     end)
    (fun _ => new_Date_toISOString).

Definition parseCSVLine (line : string) (lineNumber : nat)
    (columnMap : CSVColumnMap.t) : M CSVVideoData.t :=
  let fields := map JS.trim (JS.split ","%char line) in
  if List.length fields <? needed_fields columnMap then
    throw (ErrorObj (line_prefix lineNumber ++ "Not enough fields. Expected at least "
                     ++ JS.show_nat (needed_fields columnMap) ++ " fields"))
  else
    let name := truthy_field fields (CSVColumnMap.name columnMap) in
    match truthy_field fields (CSVColumnMap.post_date columnMap) with
    | None => throw (ErrorObj (line_prefix lineNumber ++ "Post Date cannot be empty"))
    | Some postDate =>
    match truthy_field fields (CSVColumnMap.creator_username columnMap) with
    | None => throw (ErrorObj (line_prefix lineNumber ++ "Creator Username cannot be empty"))
    | Some creatorUsername =>
    match truthy_field fields (CSVColumnMap.gmv columnMap) with
    | None => throw (ErrorObj (line_prefix lineNumber ++ "GMV cannot be empty"))
    | Some gmvStr =>
    match JS.parseFloat (JS.strip_non_numeric gmvStr) with
    | None => throw (ErrorObj (line_prefix lineNumber ++ "Invalid GMV value: " ++ gmvStr))
    | Some gmv =>
        try_catch
          (post_date <- parseDate postDate ;;
           ret (CSVVideoData.Build name post_date
                  (JS.replace "@" "" creatorUsername) gmv))
          (fun error =>
             throw (ErrorObj (line_prefix lineNumber ++ message_or_String error)))
    end end end end.

(** ** The record store

    The store is a service outside the repository, reached through the
    [supabase] client.  Section 6 of the specification lists what the
    program asks of it: a point query by equality on owner, name, date and
    creator, a bulk upsert, a read of one owner's rows by creation time
    descending, and an update of one row, each call either done in full or
    failed with a reported error.  The table is a list of rows in
    insertion order. *)

(** Modelled from the spec: equality of a nullable column with the
    argument of [.eq]; an absent name equals an absent name. *)
Definition opt_string_eqb (a b : option string) : bool :=
  match a, b with
  | Some x, Some y => String.eqb x y
  | None, None => true
  | _, _ => false
  end.

(** Modelled from the spec: the four [.eq] filters of the point query
    keep the rows whose column equals the argument. *)
Definition matches (userId : string) (name : option string)
    (post_date creator_username : string) (r : Row.t) : bool :=
  String.eqb (Row.user_id r) userId
  && opt_string_eqb (Row.name r) name
  && String.eqb (Row.post_date r) post_date
  && String.eqb (Row.creator_username r) creator_username.

(** Modelled from the spec: the call
    [.select('id').eq('user_id', ..).eq('name', ..).eq('post_date', ..)
    .eq('creator_username', ..)], which answers with the ids of the
    matching rows or with the error the backend reports. *)
Definition store_select_id (userId : string) (name : option string)
    (post_date creator_username : string) : M (Response.t (list string)) :=
  fun s =>
    match select_fault s with
    | Some e => (Ok (Response.Build None (Some e)), s)
    | None =>
        (Ok (Response.Build
               (Some (map Row.id
                        (filter (matches userId name post_date creator_username) (db s))))
               None), s)
    end.

(** Modelled from the spec: upsert of one row, which replaces the row
    with the same primary key [id] or appends. *)
Definition upsert_row (rows : list Row.t) (r : Row.t) : list Row.t :=
  if existsb (fun x => String.eqb (Row.id x) (Row.id r)) rows
  then map (fun x => if String.eqb (Row.id x) (Row.id r) then r else x) rows
  else rows ++ [r].

(** Modelled from the spec: the call [.upsert(rows)], done in full or
    not at all. *)
Definition store_upsert (rows : list Row.t) : M (Response.t unit) :=
  fun s =>
    match upsert_fault s with
    | Some e => (Ok (Response.Build None (Some e)), s)
    | None => (Ok (Response.Build None None), set_db (fold_left upsert_row rows (db s)) s)
    end.

(** Modelled from the spec: ordering by [created_at], latest first. *)
Fixpoint insert_desc (r : Row.t) (rows : list Row.t) : list Row.t :=
  match rows with
  | [] => [r]
  | x :: rows' =>
      if String.ltb (Row.created_at x) (Row.created_at r)
      then r :: x :: rows'
      else x :: insert_desc r rows'
  end.

(** Modelled from the spec: the call
    [.select('*').eq('user_id', ..).order('created_at', { ascending: false })]. *)
Definition store_select_all (userId : string) : M (Response.t (list Row.t)) :=
  fun s =>
    match select_fault s with
    | Some e => (Ok (Response.Build None (Some e)), s)
    | None =>
        (Ok (Response.Build
               (Some (fold_right insert_desc []
                        (filter (fun r => String.eqb (Row.user_id r) userId) (db s))))
               None), s)
    end.

(** Modelled from the spec: an update sets the columns present in the
    patch and keeps the others. *)
Definition apply_patch (p : Patch.t) (r : Row.t) : Row.t :=
  Row.Build (Row.id r)
    (match Patch.video_id p with Some v => v | None => Row.video_id r end)
    (Row.name r) (Row.post_date r) (Row.creator_username r) (Row.gmv r)
    (match Patch.spark_code p with Some c => c | None => Row.spark_code r end)
    (match Patch.status p with Some st => st | None => Row.status r end)
    (Row.user_id r) (Row.created_at r).

(** Modelled from the spec: the call
    [.update(patch).eq('id', id).eq('user_id', userId)]. *)
Definition store_update (p : Patch.t) (id userId : string) : M (Response.t unit) :=
  fun s =>
    match update_fault s with
    | Some e => (Ok (Response.Build None (Some e)), s)
    | None =>
        (Ok (Response.Build None None),
         set_db (map (fun r =>
                        if String.eqb (Row.id r) id && String.eqb (Row.user_id r) userId
                        then apply_patch p r else r) (db s)) s)
    end.

(** ** Duplicate Checker and Batch Writer *)

(** The [for (const video of videos)] loop of [checkForDuplicates] with its
    two arrays. *)
Fixpoint classify (videos : list VideoEntry.t) (userId : string)
    (duplicates newVideos : list VideoEntry.t)
  : M (list VideoEntry.t * list VideoEntry.t) :=
  match videos with
  | [] => ret (duplicates, newVideos)
  | video :: rest =>
      post_date <- parseDate (VideoEntry.postDate video) ;;
      r <- store_select_id userId (VideoEntry.name video) post_date
             (VideoEntry.creatorUsername video) ;;
      match Response.error r with
      | Some e => throw e
      | None =>
          if match Response.data r with
             | Some data => 0 <? List.length data
             | None => false
             end
          then classify rest userId (duplicates ++ [video]) newVideos
          else classify rest userId duplicates (newVideos ++ [video])
      end
  end.

Definition checkForDuplicates (videos : list VideoEntry.t) (userId : string)
  : M (list VideoEntry.t * list VideoEntry.t) :=
  classify videos userId [] [].

(** [xs.map(f)] for a callback with effects, left to right. *)
Fixpoint mapM {A B : Type} (f : A -> M B) (xs : list A) : M (list B) :=
  match xs with
  | [] => ret []
  | x :: xs' => y <- f x ;; ys <- mapM f xs' ;; ret (y :: ys)
  end.

(** [uuidv4()] *)
Definition draw_uuid : M string :=
  fun s => (Ok (uuidv4 R (draws s)), draw s).

(** The object [saveVideos] builds for one new video. *)
Definition new_row (userId : string) (video : VideoEntry.t) : M Row.t :=
  id <- draw_uuid ;;
  post_date <- parseDate (VideoEntry.postDate video) ;;
  created_at <- new_Date_toISOString ;;
  ret (Row.Build id "" (VideoEntry.name video) post_date
         (VideoEntry.creatorUsername video) (VideoEntry.gmv video)
         (match VideoEntry.sparkCode video with
          | Some c => if JS.truthy c then c else ""
          | None => ""
          end)
         (VideoEntry.status video) userId created_at).

Definition saveVideos (videos : list VideoEntry.t) (userId : string) : M SaveResult.t :=
  ' (duplicates, newVideos) <- checkForDuplicates videos userId ;;
  (if 0 <? List.length newVideos then
     rows <- mapM (new_row userId) newVideos ;;
     r <- store_upsert rows ;;
     match Response.error r with
     | Some e => throw e
     | None => ret tt
     end
   else ret tt) ;;
  ret (SaveResult.Build (List.length newVideos) (List.length duplicates)).

(** ** [App]: reading the list back *)

(** The objects built from the rows carry no [hasSparkCode]; it reads as
    [false].  The rows of the model have no [tags] column, so [tags] is
    the default [[]]. *)
Definition fetchUserVideos (userId : string) : M (list VideoEntry.t) :=
  r <- store_select_all userId ;;
  match Response.error r with
  | Some e => throw e
  | None =>
      match Response.data r with
      | Some data =>
          ret (map (fun video =>
                      VideoEntry.Build (Row.id video)
                        (if JS.truthy (Row.video_id video) then Row.video_id video else "")
                        (Row.name video) (Row.post_date video)
                        (Row.creator_username video) (Row.gmv video)
                        false (Row.created_at video) []
                        (Row.status video)
                        (Some (if JS.truthy (Row.spark_code video)
                               then Row.spark_code video else "")))
                   data)
      | None => throw (ErrorObj "data is null")
      end
  end.

Definition loadUserVideos (user : string) : M unit :=
  try_catch
    (modify (set_error None) ;;
     userVideos <- fetchUserVideos user ;;
     modify (set_videos userVideos))
    (fun error =>
       modify (set_error
                 (Some (message_or error "Failed to load videos. Please try again later."))))
  ;;
  modify (set_loading false).

(** ** [App.handleFileSelect] *)

(** The [for (let i = 1; i < lines.length; i++)] loop: [rest] holds
    [lines[i]], [lines[i+1]], ... *)
Fixpoint process_rows (columnMap : CSVColumnMap.t) (i : nat) (rest : list string)
    (newVideos : list VideoEntry.t) (errorMessages : list string)
  : M (list VideoEntry.t * list string) :=
  match rest with
  | [] => ret (newVideos, errorMessages)
  | line :: rest' =>
      ' (newVideos', errorMessages') <-
        try_catch
          (csvData <- parseCSVLine line (i + 1) columnMap ;;
           dateAdded <- new_Date_toISOString ;;
           ret (newVideos ++
                  [VideoEntry.Build "" "" (CSVVideoData.name csvData)
                     (CSVVideoData.post_date csvData)
                     (CSVVideoData.creator_username csvData)
                     (CSVVideoData.gmv csvData)
                     false dateAdded [] pending (Some "")],
                errorMessages))
          (fun error => ret (newVideos, errorMessages ++ [message_or_String error])) ;;
      process_rows columnMap (S i) rest' newVideos' errorMessages'
  end.

(** [text.split('\n').map(line => line.trim()).filter(line => line.length > 0)] *)
Definition file_lines (text : string) : list string :=
  filter (fun line => 0 <? String.length line)
    (map JS.trim (JS.split "010"%char text)).

Definition setUploadSummary (u : UploadSummaryData.t) : M unit :=
  modify (set_uploadSummary (Some u)).

Definition handleFileSelect (user : string) (text : string) : M unit :=
  try_catch
    (modify (set_error None) ;;
     let lines := file_lines text in
     if List.length lines <? 2 then
       setUploadSummary
         (UploadSummaryData.Build 0 0 1 0
            ["CSV file must contain a header row and at least one data row"])
     else
       columnMap <- lift (findColumnIndices (nth 0 lines "")) ;;
       ' (newVideos, errorMessages) <- process_rows columnMap 1 (skipn 1 lines) [] [] ;;
       let duplicates := 0 in
       (if 0 <? List.length newVideos then
          saveVideos newVideos user ;;
          loadUserVideos user
        else ret tt) ;;
       setUploadSummary
         (UploadSummaryData.Build (List.length newVideos) duplicates
            (List.length errorMessages) (List.length lines - 1) errorMessages))
    (fun error =>
       setUploadSummary
         (UploadSummaryData.Build 0 0 1 0
            [message_or error "Failed to process CSV file"])).

(** ** The combined edit path: [VideoTable.handleSave] and
    [App.handleSaveVideo] *)

(** [updates.f && { col: updates.f }] for a string field: the column is
    present only for a non-empty string. *)
Definition spread_string (f : option string) : option string :=
  match f with
  | Some v => if JS.truthy v then Some v else None
  | None => None
  end.

Definition patch_of (updates : Updates.t) : Patch.t :=
  Patch.Build (spread_string (Updates.video_id updates))
    (spread_string (Updates.sparkCode updates))
    (Updates.status updates).

(** The object [setVideos] builds for the edited video. *)
Definition apply_updates (updates : Updates.t) (video : VideoEntry.t) : VideoEntry.t :=
  VideoEntry.Build (VideoEntry.id video)
    (match spread_string (Updates.video_id updates) with
     | Some v => v
     | None => VideoEntry.video_id video
     end)
    (VideoEntry.name video) (VideoEntry.postDate video)
    (VideoEntry.creatorUsername video) (VideoEntry.gmv video)
    (VideoEntry.hasSparkCode video) (VideoEntry.dateAdded video)
    (VideoEntry.tags video)
    (match Updates.status updates with
     | Some st => st
     | None => VideoEntry.status video
     end)
    (match spread_string (Updates.sparkCode updates) with
     | Some c => Some c
     | None => VideoEntry.sparkCode video
     end).

Definition handleSaveVideo (user : string) (id : string) (updates : Updates.t) : M unit :=
  try_catch
    (modify (set_error None) ;;
     r <- store_update (patch_of updates) id user ;;
     match Response.error r with
     | Some supabaseError => throw supabaseError
     | None =>
         modify (fun s =>
                   set_videos
                     (map (fun video =>
                             if String.eqb (VideoEntry.id video) id
                             then apply_updates updates video
                             else video)
                        (videos s)) s)
     end)
    (fun error =>
       modify (set_error (Some (message_or error "Failed to save video updates")))).

Definition handleEdit (video : VideoEntry.t) : M unit :=
  modify (set_editingVideo
            (Some (Editing.Build (VideoEntry.id video) (VideoEntry.video_id video)
                     (match VideoEntry.sparkCode video with
                      | Some c => if JS.truthy c then c else ""
                      | None => ""
                      end)))).

(** The object [handleSave] passes to [onSaveVideo]. *)
Definition updates_of (editingVideo : Editing.t) : Updates.t :=
  Updates.Build (Some (Editing.video_id editingVideo))
    (Some (Editing.sparkCode editingVideo))
    (if JS.truthy (JS.trim (Editing.sparkCode editingVideo))
     then Some authorized else None).

Definition handleSave (user : string) (id : string) : M unit :=
  fun s =>
    match editingVideo s with
    | None => (Ok tt, s)
    | Some editingVideo =>
        (handleSaveVideo user id (updates_of editingVideo) ;;
         modify (set_editingVideo None)) s
    end.

End Program.

(** ** A runtime and inputs for the examples *)

Module Sample.

(** A decimal number, zero-padded on the left to [width] digits. *)
Definition pad (width : nat) (n : Z) : string :=
  let d := NilEmpty.string_of_uint (N.to_uint (Z.to_N n)) in
  let d := if String.eqb d "" then "0" else d in
  String.concat "" (repeat "0" (width - String.length d)) ++ d.

(** Days since 1970-01-01 to year, month, day of the proleptic Gregorian
    calendar, and back. *)
Definition civil_from_days (days : Z) : Z * Z * Z :=
  let z := (days + 719468)%Z in
  let era := (z / 146097)%Z in
  let doe := (z - era * 146097)%Z in
  let yoe := ((doe - doe / 1460 + doe / 36524 - doe / 146096) / 365)%Z in
  let doy := (doe - (365 * yoe + yoe / 4 - yoe / 100))%Z in
  let mp := ((5 * doy + 2) / 153)%Z in
  let d := (doy - (153 * mp + 2) / 5 + 1)%Z in
  let m := (if mp <? 10 then mp + 3 else mp - 9)%Z in
  ((if m <=? 2 then yoe + era * 400 + 1 else yoe + era * 400)%Z, m, d).

Definition days_from_civil (y m d : Z) : Z :=
  let y := (if m <=? 2 then y - 1 else y)%Z in
  let era := (y / 400)%Z in
  let yoe := (y - era * 400)%Z in
  let doy := ((153 * (if 2 <? m then m - 3 else m + 9) + 2) / 5 + d - 1)%Z in
  let doe := (yoe * 365 + yoe / 4 - yoe / 100 + doy)%Z in
  (era * 146097 + doe - 719468)%Z.

(** [toISOString] for the years 0000 to 9999. *)
Definition toISOString (t : Z) : string :=
  let '(y, m, d) := civil_from_days (t / 86400000) in
  let ms := (t mod 86400000)%Z in
  pad 4 y ++ "-" ++ pad 2 m ++ "-" ++ pad 2 d ++ "T"
  ++ pad 2 (ms / 3600000) ++ ":" ++ pad 2 (ms / 60000 mod 60) ++ ":"
  ++ pad 2 (ms / 1000 mod 60) ++ "." ++ pad 3 (ms mod 1000) ++ "Z".

(** The decimal number written in [len] characters of [s] from [start]
    on, if they are all digits. *)
Definition number_at (start len : nat) (s : string) : option Z :=
  let part := String.substring start len s in
  if (String.length part =? len)
     && (String.length (fst (JS.span_digits part)) =? len)
  then Some (JS.digits_value 0 part) else None.

(** A calendar parser for the two ISO forms [YYYY-MM-DD] (midnight UTC)
    and [YYYY-MM-DDTHH:mm:ss.sssZ]; every other string is taken as
    unparseable. *)
Definition Date_parse (s : string) : option Z :=
  match number_at 0 4 s, number_at 5 2 s, number_at 8 2 s with
  | Some y, Some m, Some d =>
      let days := days_from_civil y m d in
      let dashes := String.eqb (String.substring 4 1 s) "-"
                    && String.eqb (String.substring 7 1 s) "-" in
      let date_ok :=
        dashes
        && match civil_from_days days with
           | (y', m', d') => Z.eqb y' y && Z.eqb m' m && Z.eqb d' d
           end in
      if date_ok && (String.length s =? 10) then Some (days * 86400000)%Z
      else if date_ok && (String.length s =? 24) then
        match number_at 11 2 s, number_at 14 2 s, number_at 17 2 s, number_at 20 3 s with
        | Some h, Some mi, Some sec, Some ms =>
            if String.eqb (String.substring 10 1 s) "T"
               && String.eqb (String.substring 13 1 s) ":"
               && String.eqb (String.substring 16 1 s) ":"
               && String.eqb (String.substring 19 1 s) "."
               && String.eqb (String.substring 23 1 s) "Z"
               && Z.ltb h 24 && Z.ltb mi 60 && Z.ltb sec 60
            then Some (days * 86400000 + h * 3600000 + mi * 60000 + sec * 1000 + ms)%Z
            else None
        | _, _, _, _ => None
        end
      else None
  | _, _, _ => None
  end.

Definition clock (k : nat) : Z := 1730000000000%Z + Z.of_nat k.

Definition uuidv4 (k : nat) : string := "uuid-" ++ JS.show_nat k.

Definition runtime : Runtime := BuildRuntime Date_parse toISOString clock uuidv4.

(** An empty store that answers every call. *)
Definition s0 : State :=
  BuildState [] None None true None [] 0 0 None None None.

Definition user : string := "u1".

Definition header : string := "Video name,Video post date,Creator username,GMV".

Definition csv1 : string :=
  header ++ String "010"%char "Cool Clip,2024-01-05,@bob,1234.50".

Definition after (m : M unit) (s : State) : State := snd (m s).

Definition cm : CSVColumnMap.t := CSVColumnMap.Build 0 1 2 3.

Definition line1 : string := "Cool Clip,2024-01-05,@bob,1234.50".

Definition row1 : CSVVideoData.t :=
  CSVVideoData.Build (Some "Cool Clip") "2024-01-05T00:00:00.000Z" "bob"
    (JS.nearest_double false 2469 2).

(** Lines with an [@] inside the username, a negative amount, and a date
    no engine parses. *)
Definition line_at : string := "Clip,2024-01-05,a@b,10".
Definition line_negative : string := "Clip,2024-01-05,bob,-5".
Definition line_bad_date : string := "Clip,someday,bob,7".

(** A line whose amount is a 1 followed by 309 zeros. *)
Fixpoint zeros (n : nat) : string :=
  match n with
  | 0 => ""
  | S n' => String "0" (zeros n')
  end.

Definition line_huge : string := "Clip,2024-01-05,bob,1" ++ zeros 309.

(** The video the upload loop builds from [line1]. *)
Definition video1 : VideoEntry.t :=
  VideoEntry.Build "" "" (Some "Cool Clip") "2024-01-05T00:00:00.000Z" "bob"
    (JS.nearest_double false 2469 2) false "2024-10-27T03:33:20.000Z" [] pending (Some "").

(** A video that already carries a spark code and a status. *)
Definition video_authorized_already : VideoEntry.t :=
  VideoEntry.Build "" "" (Some "Clip") "2024-01-05" "bob"
    (JS.nearest_double false 10 1) false "" [] authorized (Some "SC-1").

(** A file with a good line and a line that is too short, and a store
    that reports an error, a plain object, on every query. *)
Definition csv_mixed : string :=
  header ++ String "010"%char "Cool Clip,2024-01-05,@bob,1234.50"
         ++ String "010"%char "Other,2024-02-10".

(** A file with two blank lines before a line that is too short, which
    a good line follows. *)
Definition csv_gapped : string :=
  header ++ String "010"%char (String "010"%char (String "010"%char "Other,2024-02-10"))
         ++ String "010"%char "Cool Clip,2024-01-05,@bob,1234.50".

Definition s_offline : State :=
  BuildState [] None None true None [] 0 0 (Some (NonError "[object Object]")) None None.

(** The state after the first upload of [csv1], and after the second. *)
Definition s_uploaded : State := after (handleFileSelect runtime user csv1) s0.
Definition s_uploaded_twice : State :=
  after (handleFileSelect runtime user csv1) s_uploaded.

(** The uploaded video under edit, with a spark code typed in. *)
Definition editing : Editing.t := Editing.Build "uuid-0" "" " SC-9 ".
Definition s_editing : State := set_editingVideo (Some editing) s_uploaded.

End Sample.

(** ** More of the program: the other update paths, the table and the
    summary dialog *)

(** [{ ...video, status }] and [{ ...video, sparkCode }] *)
Definition with_status (status : Status) (video : VideoEntry.t) : VideoEntry.t :=
  VideoEntry.Build (VideoEntry.id video) (VideoEntry.video_id video)
    (VideoEntry.name video) (VideoEntry.postDate video)
    (VideoEntry.creatorUsername video) (VideoEntry.gmv video)
    (VideoEntry.hasSparkCode video) (VideoEntry.dateAdded video)
    (VideoEntry.tags video) status (VideoEntry.sparkCode video).

Definition with_sparkCode (sparkCode : string) (video : VideoEntry.t) : VideoEntry.t :=
  VideoEntry.Build (VideoEntry.id video) (VideoEntry.video_id video)
    (VideoEntry.name video) (VideoEntry.postDate video)
    (VideoEntry.creatorUsername video) (VideoEntry.gmv video)
    (VideoEntry.hasSparkCode video) (VideoEntry.dateAdded video)
    (VideoEntry.tags video) (VideoEntry.status video) (Some sparkCode).

(** [App.handleStatusChange] *)
Definition handleStatusChange (user : string) (id : string) (status : Status) : M unit :=
  try_catch
    (modify (set_error None) ;;
     r <- store_update (Patch.Build None None (Some status)) id user ;;
     match Response.error r with
     | Some supabaseError => throw supabaseError
     | None =>
         modify (fun s =>
                   set_videos
                     (map (fun video =>
                             if String.eqb (VideoEntry.id video) id
                             then with_status status video
                             else video)
                        (videos s)) s)
     end)
    (fun error =>
       modify (set_error (Some (message_or error "Failed to update status")))).

(** [App.handleSparkCodeUpdate] *)
Definition handleSparkCodeUpdate (user : string) (id : string) (sparkCode : string)
  : M unit :=
  try_catch
    (modify (set_error None) ;;
     r <- store_update (Patch.Build None (Some sparkCode) None) id user ;;
     match Response.error r with
     | Some supabaseError => throw supabaseError
     | None =>
         modify (fun s =>
                   set_videos
                     (map (fun video =>
                             if String.eqb (VideoEntry.id video) id
                             then with_sparkCode sparkCode video
                             else video)
                        (videos s)) s)
     end)
    (fun error =>
       modify (set_error (Some (message_or error "Failed to update spark code")))).

(** [s.includes(t)] on strings: [t] occurs in [s] as a substring. *)
Fixpoint string_includes (s t : string) : bool :=
  if String.prefix t s then true
  else match s with
       | EmptyString => false
       | String _ s' => string_includes s' t
       end.

(** The callback of [videos.filter] in [VideoTable].  The three tests are
    joined by [||] and the name comes first: [video.name.toLowerCase()]
    throws a [TypeError] when the name is [null]. *)
Definition search_hit (searchTerm : string) (video : VideoEntry.t) : result bool :=
  match VideoEntry.name video with
  | None => Throw (ErrorObj "Cannot read properties of null (reading 'toLowerCase')")
  | Some name =>
      Ok (string_includes (JS.toLowerCase name) (JS.toLowerCase searchTerm)
          || string_includes (JS.toLowerCase (VideoEntry.video_id video))
               (JS.toLowerCase searchTerm)
          || string_includes (JS.toLowerCase (VideoEntry.creatorUsername video))
               (JS.toLowerCase searchTerm))
  end.

(** [VideoTable]'s [filteredVideos]: the callback runs on the videos in
    order, and an exception ends the filtering. *)
Fixpoint filteredVideos (videos : list VideoEntry.t) (searchTerm : string)
  : result (list VideoEntry.t) :=
  match videos with
  | [] => Ok []
  | video :: rest =>
      match search_hit searchTerm video with
      | Throw e => Throw e
      | Ok keep =>
          match filteredVideos rest searchTerm with
          | Throw e => Throw e
          | Ok kept => Ok (if keep then video :: kept else kept)
          end
      end
  end.

(** [VideoTable]'s [formatDate]: the date part of the ISO string, or
    ['Invalid Date'] when the [try] block throws. *)
Definition formatDate (R : Runtime) (dateString : string) : string :=
  match
    match Date_parse R dateString with
    | None => Throw (ErrorObj "Invalid date")
    | Some t => Ok (nth 0 (JS.split "T" (toISOString R t)) "")
    end
  with
  | Ok shown => shown
  | Throw _ => "Invalid Date"
  end.

(** The three icons of the summary dialog. *)
Inductive Icon : Type := XCircle | AlertCircle | CheckCircle.

(** [UploadSummary]'s [getIcon] *)
Definition getIcon (summary : UploadSummaryData.t) : Icon :=
  if (0 <? UploadSummaryData.errors summary)
     && (UploadSummaryData.newEntries summary =? 0)
  then XCircle
  else if 0 <? UploadSummaryData.errors summary then AlertCircle
  else CheckCircle.

(** More inputs for the examples. *)
Module More.

(** A file whose data line has an empty name cell. *)
Definition csv_nameless : string :=
  Sample.header ++ String "010"%char ",2024-02-10,@eve,5".

(** A file whose failing line stands between two lines that parse. *)
Definition csv_holed : string :=
  Sample.header ++ String "010"%char "Cool Clip,2024-01-05,@bob,1234.50"
                ++ String "010"%char "Other,2024-02-10"
                ++ String "010"%char "Clip,2024-01-05,a@b,10".

(** The same video twice in one batch. *)
Definition twice : list VideoEntry.t := [Sample.video1; Sample.video1].

(** A header in capitals with padded labels and an extra column. *)
Definition header_loud : string := " TITLE , Notes, POSTED,Creator ,Revenue".

(** The uploaded video under edit, with blanks typed as spark code. *)
Definition editing_blank : Editing.t := Editing.Build "uuid-0" "" "  ".
Definition s_editing_blank : State :=
  set_editingVideo (Some editing_blank) Sample.s_uploaded.

(** The video of the first upload as the list shows it, and a state whose
    list holds it. *)
Definition video_listed : VideoEntry.t :=
  VideoEntry.Build "uuid-0" "" (Some "Cool Clip") "2024-01-05T00:00:00.000Z" "bob"
    (JS.nearest_double false 2469 2) false "2024-10-27T03:33:20.001Z" [] pending (Some "").

Definition s_listed : State := set_videos [video_listed] Sample.s0.

(** The state after the upload of [csv_nameless], and the row it stored. *)
Definition s_nameless : State :=
  snd (handleFileSelect Sample.runtime Sample.user csv_nameless Sample.s0).

Definition row_nameless : Row.t :=
  Row.Build "uuid-0" "" None "2024-02-10T00:00:00.000Z" "eve"
    (JS.nearest_double false 5 1) "" pending "u1" "2024-10-27T03:33:20.001Z".

End More.

(** ** More predicates *)

(** A capital letter A to Z. *)
Definition is_capital (c : ascii) : bool :=
  (65 <=? nat_of_ascii c) && (nat_of_ascii c <=? 90).

(** The summary of an upload that failed as a whole. *)
Definition failure_summary (message : string) : UploadSummaryData.t :=
  UploadSummaryData.Build 0 0 1 0 [message].

(** A row as the upload writes it: owned by [user], pending, with empty
    video id and spark code. *)
Definition fresh_row (user : string) (r : Row.t) : Prop :=
  Row.user_id r = user /\ Row.video_id r = "" /\ Row.spark_code r = ""
  /\ Row.status r = pending.

(** Two videos, two rows, that differ at most in their status, and at
    most in their spark code. *)
Definition same_but_status (old new : VideoEntry.t) : Prop :=
  new = with_status (VideoEntry.status new) old.

Definition same_but_sparkCode (old new : VideoEntry.t) : Prop :=
  new = old \/ exists c, new = with_sparkCode c old.

Definition row_same_but_status (old new : Row.t) : Prop :=
  new = Row.Build (Row.id old) (Row.video_id old) (Row.name old) (Row.post_date old)
          (Row.creator_username old) (Row.gmv old) (Row.spark_code old)
          (Row.status new) (Row.user_id old) (Row.created_at old).

Definition row_same_but_spark_code (old new : Row.t) : Prop :=
  new = Row.Build (Row.id old) (Row.video_id old) (Row.name old) (Row.post_date old)
          (Row.creator_username old) (Row.gmv old) (Row.spark_code new)
          (Row.status old) (Row.user_id old) (Row.created_at old).

(** The test of the table filter on a video that has a name. *)
Definition hit (searchTerm : string) (video : VideoEntry.t) : bool :=
  match search_hit searchTerm video with
  | Ok keep => keep
  | Throw _ => false
  end.

(** A numbered line parses; the state the parse starts from does not
    matter for that. *)
Definition parses (R : Runtime) (columnMap : CSVColumnMap.t) (s0 : State)
    (numbered : nat * string) : bool :=
  match fst (parseCSVLine R (snd numbered) (fst numbered) columnMap s0) with
  | Ok _ => true
  | Throw _ => false
  end.

(** [video] is the object the upload loop builds from a numbered line:
    the line parses from some state, and the video holds the parsed row,
    the fixed fields and the time read after the parse. *)
Definition built_from (R : Runtime) (columnMap : CSVColumnMap.t)
    (numbered : nat * string) (video : VideoEntry.t) : Prop :=
  exists s s' csvData,
    parseCSVLine R (snd numbered) (fst numbered) columnMap s = (Ok csvData, s')
    /\ video = VideoEntry.Build "" "" (CSVVideoData.name csvData)
                 (CSVVideoData.post_date csvData)
                 (CSVVideoData.creator_username csvData) (CSVVideoData.gmv csvData)
                 false (toISOString R (clock R (ticks s'))) [] pending (Some "").

(** [field] holds [searchTerm] somewhere, letter case apart. *)
Definition mentions (searchTerm field : string) : Prop :=
  exists pre post,
    JS.toLowerCase field = (pre ++ JS.toLowerCase searchTerm ++ post)%string.

(** The object [fetchUserVideos] builds from a row. *)
Definition entry_of_row (video : Row.t) : VideoEntry.t :=
  VideoEntry.Build (Row.id video)
    (if JS.truthy (Row.video_id video) then Row.video_id video else "")
    (Row.name video) (Row.post_date video) (Row.creator_username video)
    (Row.gmv video) false (Row.created_at video) [] (Row.status video)
    (Some (if JS.truthy (Row.spark_code video) then Row.spark_code video else "")).

(** The rows of [user], latest first, as the store returns them. *)
Definition rows_of (user : string) (rows : list Row.t) : list Row.t :=
  fold_right insert_desc [] (filter (fun r => String.eqb (Row.user_id r) user) rows).

(** The number of occurrences of [c] in [s]. *)
Definition count_char (c : ascii) (s : string) : nat :=
  count_occ ascii_dec (list_ascii_of_string s) c.

(** [i] is the position of the first header that is one of [names]. *)
Definition first_match (headers names : list string) (i : nat) : Prop :=
  (exists h, nth_error headers i = Some h /\ In h names)
  /\ forall j h, j < i -> nth_error headers j = Some h -> ~ In h names.

(** The accepted names of a field in [columnMappings]. *)
Definition accepted (field : string) : list string :=
  match find (fun m => String.eqb (fst m) field) columnMappings with
  | Some m => snd m
  | None => []
  end.

(** The coupling of spark code and status: a spark code that is not blank
    goes with status [authorized]. *)
Definition coupled_video (video : VideoEntry.t) : Prop :=
  forall c, VideoEntry.sparkCode video = Some c -> JS.trim c <> "" ->
            VideoEntry.status video = authorized.

Definition coupled_row (r : Row.t) : Prop :=
  JS.trim (Row.spark_code r) <> "" -> Row.status r = authorized.

(** The video of the list shows the row of the store, field by field. *)
Definition shows (r : Row.t) (video : VideoEntry.t) : Prop :=
  VideoEntry.id video = Row.id r
  /\ VideoEntry.video_id video = Row.video_id r
  /\ VideoEntry.name video = Row.name r
  /\ VideoEntry.postDate video = Row.post_date r
  /\ VideoEntry.creatorUsername video = Row.creator_username r
  /\ VideoEntry.gmv video = Row.gmv r
  /\ VideoEntry.status video = Row.status r
  /\ VideoEntry.sparkCode video = Some (Row.spark_code r)
  /\ VideoEntry.dateAdded video = Row.created_at r.

(** Two videos have the key of the duplicate check in common. *)
Definition same_key (a b : VideoEntry.t) : Prop :=
  VideoEntry.name a = VideoEntry.name b
  /\ VideoEntry.postDate a = VideoEntry.postDate b
  /\ VideoEntry.creatorUsername a = VideoEntry.creatorUsername b.

(** ** Predicates the statements use *)

(** Some header label is one of the accepted names. *)
Definition field_matches (headers names : list string) : Prop :=
  exists h, In h headers /\ In h names.

(** The character [c] occurs in [s]. *)
Definition occurs (c : ascii) (s : string) : Prop :=
  In c (list_ascii_of_string s).

(** Removing only a leading [@]: what the specification asks of the
    username normalisation. *)
Definition strip_leading_at (s : string) : string :=
  match s with
  | String c rest => if Ascii.eqb c "@" then rest else s
  | EmptyString => s
  end.

(** The fields of a data line, as [parseCSVLine] sees them. *)
Definition line_fields (line : string) : list string :=
  map JS.trim (JS.split ","%char line).

(** What the combined edit may do to one video of the list: every field
    other than [video_id], [sparkCode] and [status] is kept; [video_id] and
    [sparkCode] are kept or take the non-empty value of the update, are
    kept when the update carries the empty string or nothing, and are never
    cleared. *)
Definition video_frame (updates : Updates.t) (old new : VideoEntry.t) : Prop :=
  VideoEntry.id new = VideoEntry.id old
  /\ VideoEntry.name new = VideoEntry.name old
  /\ VideoEntry.postDate new = VideoEntry.postDate old
  /\ VideoEntry.creatorUsername new = VideoEntry.creatorUsername old
  /\ VideoEntry.gmv new = VideoEntry.gmv old
  /\ VideoEntry.hasSparkCode new = VideoEntry.hasSparkCode old
  /\ VideoEntry.dateAdded new = VideoEntry.dateAdded old
  /\ VideoEntry.tags new = VideoEntry.tags old
  /\ (VideoEntry.video_id new = VideoEntry.video_id old
      \/ (Updates.video_id updates = Some (VideoEntry.video_id new)
          /\ VideoEntry.video_id new <> ""))
  /\ (VideoEntry.sparkCode new = VideoEntry.sparkCode old
      \/ exists c, VideoEntry.sparkCode new = Some c
                   /\ Updates.sparkCode updates = Some c /\ c <> "")
  /\ (Updates.video_id updates = Some "" \/ Updates.video_id updates = None ->
      VideoEntry.video_id new = VideoEntry.video_id old)
  /\ (Updates.sparkCode updates = Some "" \/ Updates.sparkCode updates = None ->
      VideoEntry.sparkCode new = VideoEntry.sparkCode old)
  /\ (VideoEntry.video_id old <> "" -> VideoEntry.video_id new <> "")
  /\ (forall c, VideoEntry.sparkCode old = Some c -> c <> "" ->
      exists c', VideoEntry.sparkCode new = Some c' /\ c' <> "").

(** The same for one row of the store. *)
Definition row_frame (updates : Updates.t) (old new : Row.t) : Prop :=
  Row.id new = Row.id old
  /\ Row.name new = Row.name old
  /\ Row.post_date new = Row.post_date old
  /\ Row.creator_username new = Row.creator_username old
  /\ Row.gmv new = Row.gmv old
  /\ Row.user_id new = Row.user_id old
  /\ Row.created_at new = Row.created_at old
  /\ (Row.video_id new = Row.video_id old
      \/ (Updates.video_id updates = Some (Row.video_id new) /\ Row.video_id new <> ""))
  /\ (Row.spark_code new = Row.spark_code old
      \/ (Updates.sparkCode updates = Some (Row.spark_code new)
          /\ Row.spark_code new <> ""))
  /\ (Updates.video_id updates = Some "" \/ Updates.video_id updates = None ->
      Row.video_id new = Row.video_id old)
  /\ (Updates.sparkCode updates = Some "" \/ Updates.sparkCode updates = None ->
      Row.spark_code new = Row.spark_code old)
  /\ (Row.video_id old <> "" -> Row.video_id new <> "")
  /\ (Row.spark_code old <> "" -> Row.spark_code new <> "").

(** The edited record is authorized afterwards, in the list and in the
    store; no record changes identity. *)
Definition video_authorized (id : string) (old new : VideoEntry.t) : Prop :=
  VideoEntry.id new = VideoEntry.id old
  /\ (VideoEntry.id old = id -> VideoEntry.status new = authorized).

Definition row_authorized (user id : string) (old new : Row.t) : Prop :=
  Row.id new = Row.id old
  /\ Row.user_id new = Row.user_id old
  /\ (Row.id old = id -> Row.user_id old = user -> Row.status new = authorized).

(** The store part of two states is the same: rows and pending faults. *)
Definition same_store (s s' : State) : Prop :=
  db s' = db s
  /\ select_fault s' = select_fault s
  /\ upsert_fault s' = upsert_fault s
  /\ update_fault s' = update_fault s.

(** The duplicate test of [checkForDuplicates] for a video whose date
    normalises to [post_date], against the rows [rows]. *)
Definition has_match (userId : string) (rows : list Row.t) (post_date : string)
    (video : VideoEntry.t) : bool :=
  0 <? List.length
         (map Row.id
            (filter (matches userId (VideoEntry.name video) post_date
                       (VideoEntry.creatorUsername video)) rows)).

(** The normalised date of a video whose post date parses. *)
Definition normal_date (R : Runtime) (video : VideoEntry.t) : string :=
  match Date_parse R (VideoEntry.postDate video) with
  | Some t => toISOString R t
  | None => ""
  end.

Definition date_parses (R : Runtime) (video : VideoEntry.t) : Prop :=
  Date_parse R (VideoEntry.postDate video) <> None.

(** What [saveVideos] writes for [video]: the record [r] handed to the
    store during a call that took the state from [s] to [s']. *)
Definition written_record (R : Runtime) (userId : string) (s s' : State)
    (video : VideoEntry.t) (r : Row.t) : Prop :=
  (exists k, draws s <= k < draws s' /\ Row.id r = uuidv4 R k)
  /\ Row.video_id r = ""
  /\ (exists k, ticks s <= k < ticks s'
                /\ Row.created_at r = toISOString R (clock R k))
  /\ Row.spark_code r = match VideoEntry.sparkCode video with
                        | Some c => c
                        | None => ""
                        end
  /\ Row.status r = VideoEntry.status video
  /\ Row.name r = VideoEntry.name video
  /\ Row.creator_username r = VideoEntry.creatorUsername video
  /\ Row.gmv r = VideoEntry.gmv video
  /\ Row.user_id r = userId.

(** The message a data line contributes to the summary: the message of
    the error [parseCSVLine] throws on it, or nothing when it parses.  The
    line comes with its number; [s0] is the state the parse starts from,
    which the outcome does not depend on. *)
Definition parse_failure (R : Runtime) (columnMap : CSVColumnMap.t) (s0 : State)
    (numbered : nat * string) : list string :=
  match fst (parseCSVLine R (snd numbered) (fst numbered) columnMap s0) with
  | Throw e => [message_or_String e]
  | Ok _ => []
  end.

(** The data lines of a file with their 1-based numbers among the
    non-blank lines, the header being line 1. *)
Definition numbered_data_lines (lines : list string) : list (nat * string) :=
  combine (seq 2 (List.length lines - 1)) (skipn 1 lines).

(** The fields the upload flow gives every video it builds. *)
Definition upload_defaults (video : VideoEntry.t) : Prop :=
  VideoEntry.id video = ""
  /\ VideoEntry.video_id video = ""
  /\ VideoEntry.sparkCode video = Some ""
  /\ VideoEntry.status video = pending.

(** A date string the runtime parses, and whose ISO form it parses back
    to the same ISO form. *)
Definition stable_date (R : Runtime) (d : string) : Prop :=
  exists t t', Date_parse R d = Some t
               /\ Date_parse R (toISOString R t) = Some t'
               /\ toISOString R t' = toISOString R t.

(** A video whose post date is already in normal form. *)
Definition normalised (R : Runtime) (video : VideoEntry.t) : Prop :=
  date_parses R video /\ normal_date R video = VideoEntry.postDate video.

(** * Properties *)

(** ** Facts about the string primitives *)

Lemma includes_In (names : list string) (h : string) :
  JS.includes names h = true <-> In h names.
Proof.
  unfold JS.includes. rewrite existsb_exists. split.
  - intros [x [Hin Heq]]. apply String.eqb_eq in Heq. now subst.
  - intros Hin. exists h. split; [assumption | apply String.eqb_refl].
Qed.

Lemma findIndex_None {A : Type} (p : A -> bool) (xs : list A) :
  JS.findIndex p xs = None <-> (forall x, In x xs -> p x = false).
Proof.
  induction xs as [|x xs IH]; simpl.
  - split; [intros _ y [] | reflexivity].
  - destruct (p x) eqn:Hp.
    + split; [discriminate|]. intros H. specialize (H x (or_introl eq_refl)). congruence.
    + destruct (JS.findIndex p xs) as [i|].
      * split; [discriminate|]. intros H.
        assert (Hn : Some i = None) by (apply IH; intros y Hy; apply H; now right).
        discriminate.
      * split; [|reflexivity]. intros _ y [<-|Hy]; [assumption|].
        now apply (proj1 IH eq_refl).
Qed.

Lemma findIndex_no_match (headers names : list string) :
  JS.findIndex (JS.includes names) headers = None <-> ~ field_matches headers names.
Proof.
  rewrite findIndex_None. unfold field_matches. split.
  - intros H [h [Hh Hn]]. apply includes_In in Hn. rewrite (H h Hh) in Hn. discriminate.
  - intros H h Hh. destruct (JS.includes names h) eqn:E; [|reflexivity].
    exfalso. apply H. exists h. split; [assumption | now apply includes_In].
Qed.

Lemma substring_all (s : string) (m : nat) :
  String.length s <= m -> String.substring 0 m s = s.
Proof.
  revert m. induction s as [|c s IH]; intros m Hm.
  - destruct m; reflexivity.
  - destruct m; simpl in *; [lia|]. f_equal. apply IH. lia.
Qed.

Lemma replace_at_cons (c : ascii) (s : string) :
  JS.replace "@" "" (String c s)
  = if Ascii.eqb c "@" then s else String c (JS.replace "@" "" s).
Proof.
  cbn [JS.replace String.prefix].
  destruct (ascii_dec "@" c) as [<-|Hne].
  - simpl. destruct s; [reflexivity|]. cbn. f_equal. apply substring_all. lia.
  - destruct (Ascii.eqb_spec c "@"); [congruence | reflexivity].
Qed.

Lemma replace_at_absent (s : string) :
  ~ occurs "@" s -> JS.replace "@" "" s = s.
Proof.
  unfold occurs. induction s as [|c s IH]; intros H.
  - reflexivity.
  - rewrite replace_at_cons. simpl in H.
    destruct (Ascii.eqb_spec c "@") as [->|Hne].
    + exfalso. apply H. now left.
    + f_equal. apply IH. intros Hin. apply H. now right.
Qed.

Lemma replace_at_first (pre post : string) :
  ~ occurs "@" pre ->
  JS.replace "@" "" (pre ++ String "@" post)%string = (pre ++ post)%string.
Proof.
  unfold occurs. induction pre as [|c pre IH]; intros H.
  - simpl append. now rewrite replace_at_cons.
  - simpl append. rewrite replace_at_cons. simpl in H.
    destruct (Ascii.eqb_spec c "@") as [->|Hne].
    + exfalso. apply H. now left.
    + f_equal. apply IH. intros Hin. apply H. now right.
Qed.

(** ** Column Resolver *)

Lemma resolve_columns_first_missing (headers : list string)
    (mappings : list (string * list string)) (columnMap : PartialMap) :
  (exists m, In m mappings /\ ~ field_matches headers (snd m)) ->
  exists before field names rest,
    mappings = before ++ (field, names) :: rest
    /\ Forall (fun m => field_matches headers (snd m)) before
    /\ ~ field_matches headers names
    /\ resolve_columns headers mappings columnMap
       = Throw (ErrorObj (missing_column_message field names)).
Proof.
  revert columnMap. induction mappings as [|[field names] rest IH]; intros columnMap [m [Hin Hm]].
  - destruct Hin.
  - simpl. destruct (JS.findIndex (JS.includes names) headers) as [index|] eqn:E.
    + destruct Hin as [<-|Hin].
      * exfalso. simpl in Hm. apply findIndex_no_match in Hm. congruence.
      * destruct (IH (set_key field index columnMap)) as (before & f & ns & rs & Heq & Hall & Hno & Hres).
        { exists m. now split. }
        exists ((field, names) :: before), f, ns, rs. repeat split; try assumption.
        -- simpl. now rewrite Heq.
        -- constructor; [|assumption]. simpl.
           destruct (findIndex_no_match headers names) as [_ H2].
           unfold field_matches.
           assert (Hnn : ~ ~ field_matches headers names).
           { intros Hc. apply H2 in Hc. congruence. }
           destruct (existsb (fun h => JS.includes names h) headers) eqn:Ex.
           ++ apply existsb_exists in Ex. destruct Ex as [h [Hh Hn]].
              exists h. split; [assumption | now apply includes_In].
           ++ exfalso. apply Hnn. intros [h [Hh Hn]].
              assert (existsb (fun h => JS.includes names h) headers = true).
              { apply existsb_exists. exists h. split; [assumption | now apply includes_In]. }
              congruence.
    + exists [], field, names, rest. repeat split.
      * constructor.
      * now apply findIndex_no_match.
Qed.

(** C7. When some required field matches no header label, resolution
    fails, and the error names the first such field in the order name,
    post_date, creator_username, gmv, with its accepted names; the fields
    before it all matched, and the single message names no other field. *)
Theorem findColumnIndices_first_missing (headerRow : string) :
  (exists m, In m columnMappings
             /\ ~ field_matches (header_labels headerRow) (snd m)) ->
  map fst columnMappings = ["name"; "post_date"; "creator_username"; "gmv"]
  /\ exists before field names rest,
      columnMappings = before ++ (field, names) :: rest
      /\ Forall (fun m => field_matches (header_labels headerRow) (snd m)) before
      /\ ~ field_matches (header_labels headerRow) names
      /\ findColumnIndices headerRow
         = Throw (ErrorObj ("Required column not found: " ++ field
                            ++ ". Possible names: " ++ JS.join ", " names)%string).
Proof.
  intros H. split; [reflexivity|].
  destruct (resolve_columns_first_missing (header_labels headerRow) columnMappings [] H)
    as (before & field & names & rest & Heq & Hall & Hno & Hres).
  exists before, field, names, rest. repeat split; try assumption.
  unfold findColumnIndices. now rewrite Hres.
Qed.

Lemma findColumnIndices_first_missing_witness :
  findColumnIndices "gmv, Title ,x"
  = Throw (ErrorObj "Required column not found: post_date. Possible names: Video post date, video post date, post date, date, posted, post_date").
Proof.
  destruct (findColumnIndices_first_missing "gmv, Title ,x") as [_ H].
  - exists ("post_date", ["Video post date"; "video post date"; "post date"; "date";
                          "posted"; "post_date"]).
    split; [simpl; auto | apply findIndex_no_match; reflexivity].
  - reflexivity.
Defined.

(** ** Row Parser *)

Section RowParser.

Variable R : Runtime.

Lemma parseDate_eq (dateString : string) (s : State) :
  parseDate R dateString s
  = match Date_parse R dateString with
    | Some t => (Ok (toISOString R t), s)
    | None => (Ok (toISOString R (clock R (ticks s))), tick s)
    end.
Proof.
  unfold parseDate, try_catch. destruct (Date_parse R dateString); reflexivity.
Qed.

Lemma parseCSVLine_success (line : string) (n : nat) (cm : CSVColumnMap.t) (s : State)
    (postDate creatorUsername gmvStr : string) (g : JS.number) :
  needed_fields cm <= List.length (line_fields line) ->
  truthy_field (line_fields line) (CSVColumnMap.post_date cm) = Some postDate ->
  truthy_field (line_fields line) (CSVColumnMap.creator_username cm) = Some creatorUsername ->
  truthy_field (line_fields line) (CSVColumnMap.gmv cm) = Some gmvStr ->
  JS.parseFloat (JS.strip_non_numeric gmvStr) = Some g ->
  parseCSVLine R line n cm s
  = (Ok (CSVVideoData.Build
           (truthy_field (line_fields line) (CSVColumnMap.name cm))
           (match Date_parse R postDate with
            | Some t => toISOString R t
            | None => toISOString R (clock R (ticks s))
            end)
           (JS.replace "@" "" creatorUsername) g),
     match Date_parse R postDate with Some _ => s | None => tick s end).
Proof.
  intros Hlen Hp Hc Hg Hf. unfold parseCSVLine.
  change (map JS.trim (JS.split "," line)) with (line_fields line).
  destruct (Nat.ltb_spec (List.length (line_fields line)) (needed_fields cm)); [lia|].
  rewrite Hp, Hc, Hg, Hf. unfold try_catch, bind. rewrite parseDate_eq.
  destruct (Date_parse R postDate); reflexivity.
Qed.

Lemma parseCSVLine_Ok_inv (line : string) (n : nat) (cm : CSVColumnMap.t)
    (s s' : State) (row : CSVVideoData.t) :
  parseCSVLine R line n cm s = (Ok row, s') ->
  exists postDate creatorUsername gmvStr g,
    needed_fields cm <= List.length (line_fields line)
    /\ truthy_field (line_fields line) (CSVColumnMap.post_date cm) = Some postDate
    /\ truthy_field (line_fields line) (CSVColumnMap.creator_username cm)
       = Some creatorUsername
    /\ truthy_field (line_fields line) (CSVColumnMap.gmv cm) = Some gmvStr
    /\ JS.parseFloat (JS.strip_non_numeric gmvStr) = Some g.
Proof.
  unfold parseCSVLine.
  change (map JS.trim (JS.split "," line)) with (line_fields line).
  destruct (Nat.ltb_spec (List.length (line_fields line)) (needed_fields cm));
    [discriminate|].
  destruct (truthy_field (line_fields line) (CSVColumnMap.post_date cm)) as [pd|] eqn:E1;
    [|discriminate].
  destruct (truthy_field (line_fields line) (CSVColumnMap.creator_username cm))
    as [cu|] eqn:E2; [|discriminate].
  destruct (truthy_field (line_fields line) (CSVColumnMap.gmv cm)) as [gs|] eqn:E3;
    [|discriminate].
  destruct (JS.parseFloat (JS.strip_non_numeric gs)) as [g|] eqn:E4; [|discriminate].
  intros _. exists pd, cu, gs, g. repeat split; assumption.
Qed.

Ltac thrown :=
  unfold throw; intros [= <- <-];
  split; [reflexivity | split; [reflexivity | eexists; reflexivity]].

(** A failing parse throws before it changes anything, and whether and
    how it fails does not depend on the state it starts from. *)
Lemma parseCSVLine_Throw (line : string) (n : nat) (cm : CSVColumnMap.t)
    (s s' : State) (e : exn) :
  parseCSVLine R line n cm s = (Throw e, s') ->
  s' = s
  /\ (forall s0, parseCSVLine R line n cm s0 = (Throw e, s0))
  /\ exists rest, e = ErrorObj (line_prefix n ++ rest).
Proof.
  unfold parseCSVLine.
  change (map JS.trim (JS.split "," line)) with (line_fields line).
  destruct (Nat.ltb_spec (List.length (line_fields line)) (needed_fields cm)).
  { thrown. }
  destruct (truthy_field (line_fields line) (CSVColumnMap.post_date cm)) as [pd|].
  2:{ thrown. }
  destruct (truthy_field (line_fields line) (CSVColumnMap.creator_username cm)) as [cu|].
  2:{ thrown. }
  destruct (truthy_field (line_fields line) (CSVColumnMap.gmv cm)) as [gs|].
  2:{ thrown. }
  destruct (JS.parseFloat (JS.strip_non_numeric gs)) as [g|].
  2:{ thrown. }
  unfold try_catch, bind. rewrite parseDate_eq.
  destruct (Date_parse R pd); discriminate.
Qed.

End RowParser.

Lemma digits_value_nonneg (s : string) (acc : Z) :
  (0 <= acc)%Z -> (0 <= JS.digits_value acc s)%Z.
Proof.
  revert acc. induction s as [|c s IH]; intros acc Hacc; cbn [JS.digits_value];
    [assumption|].
  apply IH. lia.
Qed.

(** Rounding to a double keeps the sign and never gives [NaN]. *)
Lemma shr_1_nonneg (mrs : shr_record) :
  (0 <= shr_m mrs)%Z -> (0 <= shr_m (shr_1 mrs))%Z.
Proof.
  destruct mrs as [m r s]. destruct m as [|[p|p|]|[p|p|]]; cbn; lia.
Qed.

Lemma iter_shr_1_nonneg (p : positive) :
  forall mrs, (0 <= shr_m mrs)%Z -> (0 <= shr_m (iter_pos shr_1 p mrs))%Z.
Proof.
  induction p as [p IH|p IH|]; intros mrs H; cbn [iter_pos].
  - apply IH, IH. now apply shr_1_nonneg.
  - now apply IH, IH.
  - now apply shr_1_nonneg.
Qed.

Lemma shr_fexp_nonneg (m e : Z) (l : location) :
  (0 <= m)%Z -> (0 <= shr_m (fst (shr_fexp 53 1024 m e l)))%Z.
Proof.
  intros H. unfold shr_fexp, shr.
  assert (H0 : (0 <= shr_m (shr_record_of_loc m l))%Z)
    by (destruct l as [|[]]; exact H).
  destruct (_ - e)%Z; cbn [fst]; [assumption | | assumption].
  now apply iter_shr_1_nonneg.
Qed.

Lemma binary_round_aux_sign (sx : bool) (mx ex : Z) (lx : location) :
  (0 <= mx)%Z ->
  match binary_round_aux 53 1024 sx mx ex lx with
  | S754_zero b | S754_infinity b | S754_finite b _ _ => b = sx
  | S754_nan => False
  end.
Proof.
  intros H. unfold binary_round_aux.
  pose proof (shr_fexp_nonneg mx ex lx H) as H1.
  destruct (shr_fexp 53 1024 mx ex lx) as [mrs' e']. cbn [fst] in H1.
  assert (H2 : (0 <= round_nearest_even (shr_m mrs') (loc_of_shr_record mrs'))%Z).
  { unfold round_nearest_even.
    destruct (loc_of_shr_record mrs') as [|[]]; try assumption;
      [destruct (Z.even (shr_m mrs')); lia | lia]. }
  pose proof (shr_fexp_nonneg _ e' loc_Exact H2) as H3.
  destruct (shr_fexp 53 1024 _ e' loc_Exact) as [mrs'' e'']. cbn [fst] in H3.
  destruct (shr_m mrs''); [reflexivity | | lia].
  destruct (e'' <=? 1024 - 53)%Z; reflexivity.
Qed.

Lemma nearest_double_sign (neg : bool) (m : Z) (d : positive) :
  match JS.nearest_double neg m d with
  | S754_zero b | S754_infinity b | S754_finite b _ _ => b = neg
  | S754_nan => False
  end.
Proof.
  unfold JS.nearest_double. destruct m as [|p|p]; [reflexivity | | reflexivity].
  unfold SFdiv.
  destruct (SFdiv_core_binary 53 1024 (Z.pos p) 0 (Z.pos d) 0) as [[mz ez] lz] eqn:E.
  rewrite Bool.xorb_false_r. apply binary_round_aux_sign.
  unfold SFdiv_core_binary in E.
  set (m' := match _ with Z.pos _ => _ | Z0 => _ | Z.neg _ => _ end) in E.
  assert (Hm' : (0 <= m')%Z).
  { subst m'. destruct (_ - _ - _)%Z; [lia | | lia].
    rewrite Z.shiftl_mul_pow2 by lia. apply Z.mul_nonneg_nonneg; [lia|].
    apply Z.pow_nonneg. lia. }
  pose proof (Z_div_mod m' (Z.pos d) eq_refl) as Hdiv.
  destruct (Z.div_eucl m' (Z.pos d)) as [q r]. injection E as <- _ _.
  destruct Hdiv as [Hq Hr]. nia.
Qed.

(** What [parseFloat] returns is a number, and it is below zero only when
    the text begins with a minus sign. *)
Lemma parseFloat_number (s : string) (x : JS.number) :
  JS.parseFloat s = Some x ->
  x <> S754_nan
  /\ (JS.negative x = true -> exists rest, s = String "-" rest).
Proof.
  unfold JS.parseFloat. intros H.
  assert (Hsign : forall neg m d,
             x = JS.nearest_double neg m d ->
             x <> S754_nan /\ (JS.negative x = true -> neg = true)).
  { intros neg m d ->. pose proof (nearest_double_sign neg m d) as Hs.
    destruct (JS.nearest_double neg m d) as [b|b| |b mx ex];
      [| | destruct Hs |]; subst b; (split; [discriminate|]);
      destruct neg; (reflexivity || discriminate). }
  destruct s as [|c r].
  - destruct (JS.span_digits "") as [ip r1].
    destruct (_ && _); [discriminate|]. injection H as H. symmetry in H.
    destruct (Hsign _ _ _ H) as [Hn Hneg]. split; [exact Hn|].
    intros Hx. now apply Hneg in Hx.
  - destruct (Ascii.eqb_spec c "-") as [->|Hne].
    + destruct (JS.span_digits r) as [ip r1].
      destruct (_ && _); [discriminate|]. injection H as H. symmetry in H.
      destruct (Hsign _ _ _ H) as [Hn _]. split; [exact Hn | eauto].
    + destruct (JS.span_digits (String c r)) as [ip r1].
      destruct (_ && _); [discriminate|]. injection H as H. symmetry in H.
      destruct (Hsign _ _ _ H) as [Hn Hneg]. split; [exact Hn|].
      intros Hx. now apply Hneg in Hx.
Qed.

Section RowParserClaims.

Variable R : Runtime.

(** C2 (amended).  The username of a parsed row is the raw field with its
    first [@] removed, wherever that [@] stands, and nothing else changed:
    a leading [@] is removed, a string without [@] is kept as it is, and
    every later [@] stays; ["@alice"] and ["alice"] both give ["alice"]. *)
Theorem username_loses_its_first_at (line : string) (n : nat) (cm : CSVColumnMap.t)
    (s s' : State) (row : CSVVideoData.t) :
  parseCSVLine R line n cm s = (Ok row, s') ->
  exists raw,
    truthy_field (line_fields line) (CSVColumnMap.creator_username cm) = Some raw
    /\ CSVVideoData.creator_username row = JS.replace "@" "" raw
    /\ (forall rest, raw = String "@" rest -> CSVVideoData.creator_username row = rest)
    /\ (~ occurs "@" raw -> CSVVideoData.creator_username row = raw)
    /\ (forall pre post, raw = (pre ++ String "@" post)%string -> ~ occurs "@" pre ->
        CSVVideoData.creator_username row = (pre ++ post)%string)
    /\ JS.replace "@" "" "@alice" = "alice"
    /\ JS.replace "@" "" "alice" = "alice".
Proof.
  intros H.
  destruct (parseCSVLine_Ok_inv R _ _ _ _ _ _ H)
    as (pd & cu & gs & g & Hlen & H1 & H2 & H3 & H4).
  rewrite (parseCSVLine_success R _ n _ s _ _ _ _ Hlen H1 H2 H3 H4) in H.
  injection H as <- _. exists cu. cbn [CSVVideoData.creator_username].
  split; [assumption|]. split; [reflexivity|].
  split; [intros rest ->; now rewrite replace_at_cons|].
  split; [apply replace_at_absent|].
  split; [intros pre post -> Hpre; now apply replace_at_first|].
  split; reflexivity.
Qed.

(** C9 (amended).  The gmv of a parsed row is the number [parseFloat] reads
    from the raw field once every character other than a digit, a dot or a
    minus sign is stripped: the double nearest to the decimal that is left.
    It is a number (not [NaN]), and it is below zero only when the stripped
    text begins with a minus sign. *)
Theorem gmv_is_the_parsed_number (line : string) (n : nat) (cm : CSVColumnMap.t)
    (s s' : State) (row : CSVVideoData.t) :
  parseCSVLine R line n cm s = (Ok row, s') ->
  exists raw,
    truthy_field (line_fields line) (CSVColumnMap.gmv cm) = Some raw
    /\ JS.parseFloat (JS.strip_non_numeric raw) = Some (CSVVideoData.gmv row)
    /\ CSVVideoData.gmv row <> S754_nan
    /\ (JS.negative (CSVVideoData.gmv row) = true ->
        exists rest, JS.strip_non_numeric raw = String "-" rest).
Proof.
  intros H.
  destruct (parseCSVLine_Ok_inv R _ _ _ _ _ _ H)
    as (pd & cu & gs & g & Hlen & H1 & H2 & H3 & H4).
  rewrite (parseCSVLine_success R _ n _ s _ _ _ _ Hlen H1 H2 H3 H4) in H.
  injection H as <- _. exists gs. cbn [CSVVideoData.gmv].
  split; [assumption|]. split; [assumption|].
  now apply parseFloat_number.
Qed.

(** C5.  On a date string the calendar parser rejects, [parseDate] returns
    the current time as an ISO string and does not throw; so a data line
    with enough fields, non-empty required fields and a gmv that parses is
    parsed successfully whatever its post date holds, the fallback taking
    the date's place. *)
Theorem unparseable_date_falls_back_to_now (dateString : string) (s : State) :
  Date_parse R dateString = None ->
  parseDate R dateString s = (Ok (toISOString R (clock R (ticks s))), tick s)
  /\ forall line n cm creatorUsername gmvStr g,
      needed_fields cm <= List.length (line_fields line) ->
      truthy_field (line_fields line) (CSVColumnMap.post_date cm) = Some dateString ->
      truthy_field (line_fields line) (CSVColumnMap.creator_username cm)
      = Some creatorUsername ->
      truthy_field (line_fields line) (CSVColumnMap.gmv cm) = Some gmvStr ->
      JS.parseFloat (JS.strip_non_numeric gmvStr) = Some g ->
      exists row,
        parseCSVLine R line n cm s = (Ok row, tick s)
        /\ CSVVideoData.post_date row = toISOString R (clock R (ticks s)).
Proof.
  intros Hd. split.
  - rewrite parseDate_eq, Hd. reflexivity.
  - intros line n cm cu gs g Hlen H1 H2 H3 H4.
    rewrite (parseCSVLine_success R _ n _ s _ _ _ _ Hlen H1 H2 H3 H4), Hd.
    eexists. split; reflexivity.
Qed.

End RowParserClaims.

Lemma username_loses_its_first_at_witness :
  parseCSVLine Sample.runtime Sample.line1 2 Sample.cm Sample.s0
  = (Ok Sample.row1, Sample.s0)
  /\ exists raw,
      truthy_field (line_fields Sample.line1) 2 = Some raw
      /\ CSVVideoData.creator_username Sample.row1 = JS.replace "@" "" raw.
Proof.
  split; [reflexivity|].
  destruct (username_loses_its_first_at Sample.runtime Sample.line1 2 Sample.cm
              Sample.s0 Sample.s0 Sample.row1 eq_refl) as (raw & H1 & H2 & _).
  exists raw. split; assumption.
Defined.

(** C2 as stated fails: an [@] that is not leading is removed too. *)
Lemma username_inner_at_is_removed :
  exists row s',
    parseCSVLine Sample.runtime Sample.line_at 2 Sample.cm Sample.s0 = (Ok row, s')
    /\ truthy_field (line_fields Sample.line_at) 2 = Some "a@b"
    /\ CSVVideoData.creator_username row = "ab"
    /\ CSVVideoData.creator_username row <> strip_leading_at "a@b".
Proof.
  eexists. eexists. split; [vm_compute; reflexivity|]. split; [reflexivity|].
  split; [reflexivity|]. discriminate.
Qed.

Lemma gmv_is_the_parsed_number_witness :
  parseCSVLine Sample.runtime Sample.line1 2 Sample.cm Sample.s0
  = (Ok Sample.row1, Sample.s0)
  /\ exists raw,
      truthy_field (line_fields Sample.line1) 3 = Some raw
      /\ JS.parseFloat (JS.strip_non_numeric raw)
         = Some (S754_finite false 5429388417957888 (-42)).
Proof.
  split; [vm_compute; reflexivity|].
  destruct (gmv_is_the_parsed_number Sample.runtime Sample.line1 2 Sample.cm
              Sample.s0 Sample.s0 Sample.row1) as (raw & H1 & H2 & _).
  - vm_compute; reflexivity.
  - exists raw. split; assumption.
Defined.

(** C9 as stated fails twice.  A minus sign survives the stripping and the
    row is produced with the gmv -5; and a row is produced whose gmv is
    not finite, the digits of the field going beyond the doubles. *)
Lemma gmv_can_be_negative_or_infinite :
  (exists row s',
      parseCSVLine Sample.runtime Sample.line_negative 2 Sample.cm Sample.s0
      = (Ok row, s')
      /\ CSVVideoData.gmv row = S754_finite true 5629499534213120 (-50)
      /\ JS.negative (CSVVideoData.gmv row) = true)
  /\ (exists row s',
        parseCSVLine Sample.runtime Sample.line_huge 2 Sample.cm Sample.s0
        = (Ok row, s')
        /\ CSVVideoData.gmv row = S754_infinity false
        /\ JS.isFinite (CSVVideoData.gmv row) = false).
Proof.
  split; eexists; eexists; (split; [vm_compute; reflexivity|]);
    split; reflexivity.
Qed.

Lemma unparseable_date_falls_back_to_now_witness :
  Date_parse Sample.runtime "someday" = None
  /\ parseDate Sample.runtime "someday" Sample.s0
     = (Ok "2024-10-27T03:33:20.000Z", tick Sample.s0)
  /\ exists row,
      parseCSVLine Sample.runtime Sample.line_bad_date 2 Sample.cm Sample.s0
      = (Ok row, tick Sample.s0)
      /\ CSVVideoData.post_date row = "2024-10-27T03:33:20.000Z".
Proof.
  split; [reflexivity|].
  destruct (unparseable_date_falls_back_to_now Sample.runtime "someday" Sample.s0 eq_refl)
    as [H1 H2].
  split; [exact H1|].
  apply (H2 Sample.line_bad_date 2 Sample.cm "bob" "7" (JS.nearest_double false 7 1));
    solve [reflexivity | vm_compute; lia].
Defined.

(** ** The combined edit path *)

Lemma Forall2_map_same {A : Type} (P : A -> A -> Prop) (f : A -> A) (l : list A) :
  (forall x, P x (f x)) -> Forall2 P l (map f l).
Proof.
  intros H. induction l; simpl; constructor; auto.
Qed.

Lemma Forall2_same {A : Type} (P : A -> A -> Prop) (l : list A) :
  (forall x, P x x) -> Forall2 P l l.
Proof.
  intros H. induction l; constructor; auto.
Qed.

Lemma truthy_true (v : string) : JS.truthy v = true <-> v <> "".
Proof.
  unfold JS.truthy. destruct (String.eqb_spec v ""); simpl; split; congruence.
Qed.

Lemma spread_string_Some (f : option string) (v : string) :
  spread_string f = Some v <-> f = Some v /\ v <> "".
Proof.
  unfold spread_string. destruct f as [x|].
  - destruct (JS.truthy x) eqn:E.
    + apply truthy_true in E. split; [intros [= ->]; now split | intros [[= ->] _]; reflexivity].
    + split; [discriminate|]. intros [[= ->] Hv]. apply truthy_true in Hv. congruence.
  - split; [discriminate | intros [[=] _]].
Qed.

Lemma spread_string_None (f : option string) :
  spread_string f = None <-> f = None \/ f = Some "".
Proof.
  unfold spread_string. destruct f as [x|].
  - destruct (JS.truthy x) eqn:E.
    + apply truthy_true in E. split; [discriminate|]. intros [[=]|[= ->]]. congruence.
    + split; [|reflexivity]. intros _. right. f_equal.
      destruct (String.eqb_spec x ""); [assumption|].
      unfold JS.truthy in E. destruct (String.eqb_spec x ""); [congruence | discriminate].
  - split; auto.
Qed.


(** What [handleSaveVideo] does, by the answer of the store. *)
Lemma handleSaveVideo_eq (user id : string) (updates : Updates.t) (s : State) :
  handleSaveVideo user id updates s
  = (Ok tt,
     match update_fault s with
     | Some e =>
         set_error (Some (message_or e "Failed to save video updates")) (set_error None s)
     | None =>
         set_videos
           (map (fun video =>
                   if String.eqb (VideoEntry.id video) id
                   then apply_updates updates video else video)
              (videos s))
           (set_db
              (map (fun r =>
                      if String.eqb (Row.id r) id && String.eqb (Row.user_id r) user
                      then apply_patch (patch_of updates) r else r)
                 (db s))
              (set_error None s))
     end).
Proof.
  unfold handleSaveVideo, try_catch, bind, modify, store_update, throw. simpl.
  destruct (update_fault s); reflexivity.
Qed.

Lemma apply_updates_frame (updates : Updates.t) (video : VideoEntry.t) :
  video_frame updates video (apply_updates updates video).
Proof.
  unfold video_frame, apply_updates. cbn.
  repeat (split; [reflexivity|]).
  destruct (spread_string (Updates.video_id updates)) as [v|] eqn:Ev;
    destruct (spread_string (Updates.sparkCode updates)) as [c|] eqn:Ec;
    try apply spread_string_Some in Ev; try apply spread_string_Some in Ec;
    try apply spread_string_None in Ev; try apply spread_string_None in Ec;
    repeat match goal with H : _ /\ _ |- _ => destruct H end.
  all: repeat split; eauto 6.
  all: try solve [intros [H'|H']; congruence].
  all: try solve [intros; eauto].
Qed.

Lemma apply_patch_frame (updates : Updates.t) (r : Row.t) :
  row_frame updates r (apply_patch (patch_of updates) r).
Proof.
  unfold row_frame, apply_patch, patch_of. cbn.
  repeat (split; [reflexivity|]).
  destruct (spread_string (Updates.video_id updates)) as [v|] eqn:Ev;
    destruct (spread_string (Updates.sparkCode updates)) as [c|] eqn:Ec;
    try apply spread_string_Some in Ev; try apply spread_string_Some in Ec;
    try apply spread_string_None in Ev; try apply spread_string_None in Ec;
    repeat match goal with H : _ /\ _ |- _ => destruct H end.
  all: repeat split; eauto 6.
  all: try solve [intros [H'|H']; congruence].
  all: try solve [intros; eauto].
Qed.

Lemma video_frame_refl (updates : Updates.t) (video : VideoEntry.t) :
  video_frame updates video video.
Proof.
  unfold video_frame. repeat split; eauto.
Qed.

Lemma row_frame_refl (updates : Updates.t) (r : Row.t) :
  row_frame updates r r.
Proof.
  unfold row_frame. repeat split; eauto.
Qed.

Lemma handleSaveVideo_frame (user id : string) (updates : Updates.t) (s : State) :
  exists s',
    handleSaveVideo user id updates s = (Ok tt, s')
    /\ Forall2 (video_frame updates) (videos s) (videos s')
    /\ Forall2 (row_frame updates) (db s) (db s').
Proof.
  rewrite handleSaveVideo_eq. eexists. split; [reflexivity|].
  destruct (update_fault s); cbn.
  - split; apply Forall2_same; [apply video_frame_refl | apply row_frame_refl].
  - split; apply Forall2_map_same; intros x.
    + destruct (String.eqb _ _); [apply apply_updates_frame | apply video_frame_refl].
    + destruct (_ && _); [apply apply_patch_frame | apply row_frame_refl].
Qed.

(** C10.  The combined edit writes [video_id] and [sparkCode] only when
    the update carries a non-empty string: an empty or absent value leaves
    the stored field as it was, a field that was set is never cleared, and
    no field other than [video_id], [sparkCode] and [status] changes; this
    holds for the list shown and for the rows of the store, for
    [handleSaveVideo] on any update and for [handleSave] on what the edit
    form holds. *)
Theorem combined_edit_never_clears (user id : string) (updates : Updates.t) (s : State) :
  (exists s',
     handleSaveVideo user id updates s = (Ok tt, s')
     /\ Forall2 (video_frame updates) (videos s) (videos s')
     /\ Forall2 (row_frame updates) (db s) (db s'))
  /\ (exists s',
        handleSave user id s = (Ok tt, s')
        /\ match editingVideo s with
           | Some ev =>
               Forall2 (video_frame (updates_of ev)) (videos s) (videos s')
               /\ Forall2 (row_frame (updates_of ev)) (db s) (db s')
           | None => s' = s
           end).
Proof.
  split; [apply handleSaveVideo_frame|].
  unfold handleSave. destruct (editingVideo s) as [ev|].
  - destruct (handleSaveVideo_frame user id (updates_of ev) s) as (s1 & H1 & Hv & Hd).
    unfold bind. rewrite H1. eexists. split; [reflexivity|]. cbn. now split.
  - eexists. split; reflexivity.
Qed.

(** C6.  Saving an edit whose spark code is non-empty after trimming asks
    for status [authorized]: the update object and the patch sent to the
    store carry it, and once the store has accepted the call every record
    with the edited id is [authorized], in the list and in the store,
    whatever its status was. *)
Theorem spark_code_save_authorizes (user id : string) (ev : Editing.t) (s : State) :
  editingVideo s = Some ev ->
  JS.trim (Editing.sparkCode ev) <> "" ->
  Updates.status (updates_of ev) = Some authorized
  /\ Patch.status (patch_of (updates_of ev)) = Some authorized
  /\ exists s',
      handleSave user id s = (Ok tt, s')
      /\ (update_fault s = None ->
          Forall2 (video_authorized id) (videos s) (videos s')
          /\ Forall2 (row_authorized user id) (db s) (db s')).
Proof.
  intros Hev Htrim. apply truthy_true in Htrim.
  assert (Hst : Updates.status (updates_of ev) = Some authorized).
  { unfold updates_of. cbn. now rewrite Htrim. }
  split; [assumption|]. split; [assumption|].
  unfold handleSave. rewrite Hev. unfold bind. rewrite handleSaveVideo_eq.
  eexists. split; [reflexivity|]. intros Hf. rewrite Hf. cbn.
  split; apply Forall2_map_same; intros x.
  - unfold video_authorized. destruct (String.eqb_spec (VideoEntry.id x) id).
    + split; [reflexivity|]. intros _. unfold apply_updates. cbn.
      unfold updates_of in Hst. cbn in Hst. now rewrite Hst.
    + split; [reflexivity | congruence].
  - unfold row_authorized.
    destruct (String.eqb_spec (Row.id x) id); destruct (String.eqb_spec (Row.user_id x) user);
      cbn; repeat split; try congruence.
    intros _ _. unfold updates_of in Hst. cbn in Hst. now rewrite Hst.
Qed.


(** ** Duplicate Checker and Batch Writer *)

Lemma same_store_refl (s : State) : same_store s s.
Proof. unfold same_store. auto. Qed.

Lemma same_store_trans (s1 s2 s3 : State) :
  same_store s1 s2 -> same_store s2 s3 -> same_store s1 s3.
Proof.
  unfold same_store. intros (A1 & A2 & A3 & A4) (B1 & B2 & B3 & B4).
  repeat split; congruence.
Qed.

Lemma same_store_tick (s : State) : same_store s (tick s).
Proof. unfold same_store. auto. Qed.

Section Store.

Variable R : Runtime.

(** [parseDate] returns, touches nothing but the clock, and reads it at
    most once. *)
Lemma parseDate_total (d : string) (s : State) :
  exists pd s',
    parseDate R d s = (Ok pd, s')
    /\ same_store s s' /\ draws s' = draws s
    /\ ticks s <= ticks s' <= S (ticks s).
Proof.
  rewrite parseDate_eq. destruct (Date_parse R d).
  - eexists. eexists. split; [reflexivity|].
    split; [apply same_store_refl|]. split; [reflexivity | lia].
  - eexists. eexists. split; [reflexivity|].
    split; [apply same_store_tick|]. split; [reflexivity | cbn; lia].
Qed.

Lemma store_select_id_eq (userId : string) (name : option string)
    (pd cu : string) (s : State) :
  select_fault s = None ->
  store_select_id userId name pd cu s
  = (Ok (Response.Build
           (Some (map Row.id (filter (matches userId name pd cu) (db s)))) None), s).
Proof.
  intros H. unfold store_select_id. now rewrite H.
Qed.

(** While the store answers, the classification returns: every video goes
    to exactly one of the two lists, in input order, and nothing but the
    clock moves. *)
Lemma classify_total (videos : list VideoEntry.t) (userId : string) :
  forall (dups news : list VideoEntry.t) (s : State),
    select_fault s = None ->
    exists d n s',
      classify R videos userId dups news s = (Ok (dups ++ d, news ++ n), s')
      /\ same_store s s' /\ draws s' = draws s /\ ticks s <= ticks s'
      /\ List.length d + List.length n = List.length videos
      /\ incl d videos /\ incl n videos.
Proof.
  induction videos as [|v videos IH]; intros dups news s Hsel.
  - exists [], [], s. cbn [classify]. rewrite !app_nil_r.
    split; [reflexivity|]. split; [apply same_store_refl|].
    split; [reflexivity|]. split; [lia|]. split; [reflexivity|].
    split; apply incl_nil_l.
  - cbn [classify]. unfold bind at 1.
    destruct (parseDate_total (VideoEntry.postDate v) s)
      as (pd & s1 & Hpd & Hst & Hdr & Htk).
    rewrite Hpd. unfold bind at 1.
    assert (Hsel1 : select_fault s1 = None) by (destruct Hst as (_ & -> & _); exact Hsel).
    rewrite (store_select_id_eq _ _ _ _ _ Hsel1). cbn [Response.error Response.data].
    match goal with |- context [if ?b then _ else _] => destruct b end.
    + destruct (IH (dups ++ [v]) news s1 Hsel1) as (d & n & s' & H & Hst' & Hdr' & Htk' & Hlen & Hd & Hn).
      exists (v :: d), n, s'. rewrite H, <- app_assoc.
      split; [reflexivity|]. split; [eapply same_store_trans; eassumption|].
      split; [congruence|]. split; [lia|]. split; [cbn; lia|].
      split; [apply incl_cons; [now left | now apply incl_tl] | now apply incl_tl].
    + destruct (IH dups (news ++ [v]) s1 Hsel1) as (d & n & s' & H & Hst' & Hdr' & Htk' & Hlen & Hd & Hn).
      exists d, (v :: n), s'. rewrite H, <- app_assoc.
      split; [reflexivity|]. split; [eapply same_store_trans; eassumption|].
      split; [congruence|]. split; [lia|]. split; [cbn; lia|].
      split; [now apply incl_tl | apply incl_cons; [now left | now apply incl_tl]].
Qed.

(** When every post date parses, the classification is the test
    [has_match] on the normalised date, and the state is left as it was. *)
Lemma classify_parsed (videos : list VideoEntry.t) (userId : string) :
  forall (dups news : list VideoEntry.t) (s : State),
    select_fault s = None ->
    Forall (date_parses R) videos ->
    classify R videos userId dups news s
    = (Ok (dups ++ filter (fun v => has_match userId (db s) (normal_date R v) v) videos,
           news ++ filter (fun v => negb (has_match userId (db s) (normal_date R v) v))
                     videos), s).
Proof.
  induction videos as [|v videos IH]; intros dups news s Hsel Hall.
  - cbn. now rewrite !app_nil_r.
  - inversion Hall as [|? ? Hv Hrest]; subst.
    cbn [classify filter]. unfold bind at 1. rewrite parseDate_eq.
    unfold date_parses in Hv.
    destruct (Date_parse R (VideoEntry.postDate v)) as [t|] eqn:E; [|congruence].
    assert (Hnd : normal_date R v = toISOString R t)
      by (unfold normal_date; now rewrite E).
    unfold bind at 1. rewrite (store_select_id_eq _ _ _ _ _ Hsel).
    cbn [Response.error Response.data].
    fold (has_match userId (db s) (toISOString R t) v). rewrite Hnd.
    destruct (has_match userId (db s) (toISOString R t) v); cbn [negb];
      rewrite (IH _ _ _ Hsel Hrest), <- app_assoc; reflexivity.
Qed.

(** A store that reports an error on queries makes the classification of
    a non-empty batch throw. *)
Lemma classify_fault (v : VideoEntry.t) (videos : list VideoEntry.t) (userId : string)
    (dups news : list VideoEntry.t) (s : State) (e : exn) :
  select_fault s = Some e ->
  exists s', classify R (v :: videos) userId dups news s = (Throw e, s')
             /\ same_store s s'.
Proof.
  intros Hsel. cbn [classify]. unfold bind at 1.
  destruct (parseDate_total (VideoEntry.postDate v) s)
    as (pd & s1 & Hpd & Hst & Hdr & Htk).
  rewrite Hpd. unfold bind at 1. unfold store_select_id.
  assert (Hsel1 : select_fault s1 = Some e) by (destruct Hst as (_ & -> & _); exact Hsel).
  rewrite Hsel1. cbn. exists s1. split; [reflexivity | assumption].
Qed.

End Store.

Lemma written_record_widen (R : Runtime) (userId : string) (s1 s2 s s' : State)
    (video : VideoEntry.t) (r : Row.t) :
  draws s <= draws s1 -> draws s2 <= draws s' ->
  ticks s <= ticks s1 -> ticks s2 <= ticks s' ->
  written_record R userId s1 s2 video r -> written_record R userId s s' video r.
Proof.
  intros Hd1 Hd2 Ht1 Ht2 ((k & Hk & Hid) & Hvid & (k' & Hk' & Hc) & Hrest).
  split; [exists k; split; [lia | assumption]|].
  split; [assumption|].
  split; [exists k'; split; [lia | assumption]|].
  exact Hrest.
Qed.

Lemma fold_upsert_fresh (rows : list Row.t) :
  forall table : list Row.t,
    NoDup (map Row.id rows) ->
    (forall r, In r rows -> ~ In (Row.id r) (map Row.id table)) ->
    fold_left upsert_row rows table = table ++ rows.
Proof.
  induction rows as [|r rows IH]; intros table Hnd Hfresh.
  - cbn. now rewrite app_nil_r.
  - cbn [fold_left map] in *. inversion Hnd as [|? ? Hr Hnd']; subst.
    assert (Hex : existsb (fun x => String.eqb (Row.id x) (Row.id r)) table = false).
    { destruct (existsb _ table) eqn:E; [|reflexivity].
      apply existsb_exists in E. destruct E as [x [Hx Heq]].
      apply String.eqb_eq in Heq. exfalso.
      apply (Hfresh r (or_introl eq_refl)). rewrite <- Heq. now apply in_map. }
    unfold upsert_row at 2. rewrite Hex. rewrite IH.
    + now rewrite <- app_assoc.
    + assumption.
    + intros x Hx Hin. rewrite map_app, in_app_iff in Hin. destruct Hin as [Hin|Hin].
      * apply (Hfresh x (or_intror Hx) Hin).
      * cbn in Hin. destruct Hin as [Heq|[]]. apply Hr. rewrite Heq. now apply in_map.
Qed.

Section BatchWriter.

Variable R : Runtime.

Lemma new_row_spec (userId : string) (video : VideoEntry.t) (s : State) :
  exists r s',
    new_row R userId video s = (Ok r, s')
    /\ same_store s s' /\ draws s' = S (draws s) /\ ticks s < ticks s'
    /\ Row.id r = uuidv4 R (draws s)
    /\ written_record R userId s s' video r
    /\ (date_parses R video -> Row.post_date r = normal_date R video).
Proof.
  unfold new_row, bind, draw_uuid, new_Date_toISOString, ret. rewrite parseDate_eq.
  unfold date_parses, normal_date.
  assert (Hsc : (match VideoEntry.sparkCode video with
                 | Some c => if JS.truthy c then c else ""
                 | None => ""
                 end)
                = match VideoEntry.sparkCode video with Some c => c | None => "" end).
  { destruct (VideoEntry.sparkCode video) as [c|]; [|reflexivity].
    destruct (JS.truthy c) eqn:E; [reflexivity|].
    unfold JS.truthy in E. destruct (String.eqb_spec c ""); [congruence | discriminate]. }
  destruct (Date_parse R (VideoEntry.postDate video)) as [t|].
  - eexists. eexists. split; [reflexivity|].
    split; [unfold same_store; cbn; auto|]. split; [reflexivity|]. split; [cbn; lia|].
    split; [reflexivity|]. split; [|reflexivity].
    unfold written_record. cbn.
    split; [exists (draws s); split; [lia | reflexivity]|]. split; [reflexivity|].
    split; [exists (ticks s); split; [lia | reflexivity]|].
    split; [exact Hsc|]. repeat split.
  - eexists. eexists. split; [reflexivity|].
    split; [unfold same_store; cbn; auto|]. split; [reflexivity|]. split; [cbn; lia|].
    split; [reflexivity|]. split; [|congruence].
    unfold written_record. cbn.
    split; [exists (draws s); split; [lia | reflexivity]|]. split; [reflexivity|].
    split; [exists (S (ticks s)); split; [lia | reflexivity]|].
    split; [exact Hsc|]. repeat split.
Qed.

Lemma mapM_new_row (userId : string) (vs : list VideoEntry.t) :
  forall s : State,
    exists rows s',
      mapM (new_row R userId) vs s = (Ok rows, s')
      /\ same_store s s' /\ draws s' = draws s + List.length vs
      /\ ticks s <= ticks s'
      /\ map Row.id rows = map (uuidv4 R) (seq (draws s) (List.length vs))
      /\ Forall2 (written_record R userId s s') vs rows
      /\ Forall2 (fun v r => date_parses R v -> Row.post_date r = normal_date R v
                             /\ Row.user_id r = userId
                             /\ Row.name r = VideoEntry.name v
                             /\ Row.creator_username r = VideoEntry.creatorUsername v)
           vs rows.
Proof.
  induction vs as [|v vs IH]; intros s.
  - exists [], s. cbn. split; [reflexivity|]. split; [apply same_store_refl|].
    split; [lia|]. split; [lia|]. split; [reflexivity|]. split; constructor.
  - destruct (new_row_spec userId v s) as (r & s1 & Hr & Hst & Hdr & Htk & Hid & Hw & Hpd).
    destruct (IH s1) as (rows & s' & Hm & Hst' & Hdr' & Htk' & Hids & Hws & Hpds).
    exists (r :: rows), s'. cbn [mapM]. unfold bind at 1. rewrite Hr.
    unfold bind at 1. rewrite Hm. unfold ret.
    split; [reflexivity|]. split; [eapply same_store_trans; eassumption|].
    split; [cbn; lia|]. split; [lia|].
    split; [cbn [Datatypes.length seq map]; rewrite Hid, Hids, Hdr; reflexivity|].
    split.
    + constructor.
      * eapply written_record_widen; [| | | | exact Hw]; lia.
      * eapply Forall2_impl; [|exact Hws]. intros a b Hab.
        eapply written_record_widen; [| | | | exact Hab]; lia.
    + constructor; [|assumption]. intros Hv.
      destruct Hw as (_ & _ & _ & _ & _ & Hn & Hc & _ & Hu).
      split; [now apply Hpd|]. split; [assumption|]. split; assumption.
Qed.

(** While the store answers, [saveVideos] returns: it hands the store one
    record for each video classified new, and reports the two counts. *)
Lemma saveVideos_total (videos : list VideoEntry.t) (userId : string) (s : State) :
  select_fault s = None ->
  upsert_fault s = None ->
  exists (d n : list VideoEntry.t) (rows : list Row.t) (s' : State),
    saveVideos R videos userId s
    = (Ok (SaveResult.Build (List.length n) (List.length d)), s')
    /\ db s' = fold_left upsert_row rows (db s)
    /\ map Row.id rows = map (uuidv4 R) (seq (draws s) (List.length n))
    /\ Forall2 (written_record R userId s s') n rows
    /\ incl n videos
    /\ List.length d + List.length n = List.length videos.
Proof.
  intros Hsel Hups. unfold saveVideos, checkForDuplicates.
  destruct (classify_total R videos userId [] [] s Hsel)
    as (d & n & s1 & Hc & Hst & Hdr & Htk & Hlen & Hd & Hn).
  cbn [app] in Hc. unfold bind at 1. rewrite Hc.
  destruct n as [|v n].
  - exists d, [], [], s1. cbn. split; [reflexivity|].
    split; [apply Hst|]. split; [reflexivity|]. split; [constructor|].
    split; [assumption|]. assumption.
  - destruct (mapM_new_row userId (v :: n) s1)
      as (rows & s2 & Hm & Hst2 & Hdr2 & Htk2 & Hids & Hws & _).
    cbn [Datatypes.length Nat.ltb Nat.leb]. unfold bind at 1. unfold bind at 1. rewrite Hm.
    unfold bind at 1. unfold store_upsert.
    assert (Hups2 : upsert_fault s2 = None).
    { destruct Hst as (_ & _ & E1 & _). destruct Hst2 as (_ & _ & E2 & _). congruence. }
    rewrite Hups2. cbn [Response.error]. unfold ret.
    exists d, (v :: n), rows, (set_db (fold_left upsert_row rows (db s2)) s2).
    split; [reflexivity|]. split.
    { cbn. destruct Hst as (E1 & _). destruct Hst2 as (E2 & _). congruence. }
    split; [rewrite Hids, Hdr; reflexivity|].
    split; [|split; assumption].
    eapply Forall2_impl; [|exact Hws]. intros a b Hab.
    eapply written_record_widen; [| | | | exact Hab]; cbn; lia.
Qed.

End BatchWriter.

Lemma NoDup_map_injective {A B : Type} (f : A -> B) (l : list A) :
  (forall x y, f x = f y -> x = y) -> NoDup l -> NoDup (map f l).
Proof.
  intros Hinj Hnd. induction Hnd as [|x l Hx Hnd IH]; cbn; constructor; [|assumption].
  intros Hin. apply in_map_iff in Hin. destruct Hin as [y [Hy Hyl]].
  apply Hinj in Hy. now subst.
Qed.

Section Upload.

Variable R : Runtime.

Lemma parseCSVLine_Ok_state (line : string) (n : nat) (cm : CSVColumnMap.t)
    (s s' : State) (row : CSVVideoData.t) :
  parseCSVLine R line n cm s = (Ok row, s') ->
  same_store s s' /\ draws s' = draws s /\ ticks s <= ticks s'
  /\ (exists t, CSVVideoData.post_date row = toISOString R t)
  /\ forall s0, exists row0 s0', parseCSVLine R line n cm s0 = (Ok row0, s0').
Proof.
  intros H.
  destruct (parseCSVLine_Ok_inv R _ _ _ _ _ _ H)
    as (pd & cu & gs & g & Hlen & H1 & H2 & H3 & H4).
  rewrite (parseCSVLine_success R _ n _ s _ _ _ _ Hlen H1 H2 H3 H4) in H.
  injection H as <- <-.
  split; [destruct (Date_parse R pd); [apply same_store_refl | apply same_store_tick]|].
  split; [destruct (Date_parse R pd); reflexivity|].
  split; [destruct (Date_parse R pd); cbn; lia|].
  split; [cbn; destruct (Date_parse R pd); eexists; reflexivity|].
  intros s0. rewrite (parseCSVLine_success R _ n _ s0 _ _ _ _ Hlen H1 H2 H3 H4).
  eexists. eexists. reflexivity.
Qed.

(** The loop over the data lines never stops early: every line is parsed,
    a line that parses adds a video with the upload defaults, a line that
    fails adds its message, and the store is not touched. *)
Lemma process_rows_spec (cm : CSVColumnMap.t) (s0 : State) (rest : list string) :
  forall (i : nat) (vs : list VideoEntry.t) (es : list string) (s : State),
    exists vs' s',
      process_rows R cm i rest vs es s
      = (Ok (vs ++ vs',
             es ++ flat_map (parse_failure R cm s0)
                     (combine (seq (i + 1) (List.length rest)) rest)), s')
      /\ same_store s s' /\ draws s' = draws s
      /\ Forall upload_defaults vs'
      /\ Forall (fun v => exists t, VideoEntry.postDate v = toISOString R t) vs'
      /\ List.length vs'
         + List.length (flat_map (parse_failure R cm s0)
                          (combine (seq (i + 1) (List.length rest)) rest))
         = List.length rest.
Proof.
  induction rest as [|line rest IH]; intros i vs es s.
  - exists [], s. cbn. rewrite !app_nil_r.
    split; [reflexivity|]. split; [apply same_store_refl|]. split; [reflexivity|].
    split; [constructor|]. split; [constructor | reflexivity].
  - cbn [process_rows]. unfold bind at 1. unfold try_catch at 1. unfold bind at 1.
    destruct (parseCSVLine R line (i + 1) cm s) as [[row|e] s1] eqn:E.
    + destruct (parseCSVLine_Ok_state _ _ _ _ _ _ E) as (Hst & Hdr & Htk & Hdate & Hany).
      unfold bind at 1. unfold new_Date_toISOString at 1. unfold ret at 1.
      set (v := VideoEntry.Build _ _ _ _ _ _ _ _ _ _ _).
      destruct (IH (S i) (vs ++ [v]) es (tick s1))
        as (vs' & s' & H & Hst' & Hdr' & Hall & Hdates & Hlen).
      rewrite H. exists (v :: vs'), s'.
      assert (Hnone : parse_failure R cm s0 (i + 1, line) = []).
      { unfold parse_failure. cbn [fst snd].
        destruct (Hany s0) as (row0 & s0' & ->). reflexivity. }
      cbn [Datatypes.length seq combine flat_map]. rewrite Hnone. cbn [app].
      rewrite <- app_assoc. cbn [app].
      split; [reflexivity|].
      split; [eapply same_store_trans; [|exact Hst'];
              eapply same_store_trans; [exact Hst | apply same_store_tick]|].
      split; [rewrite Hdr', <- Hdr; reflexivity|].
      split; [constructor; [|assumption]; unfold upload_defaults, v; cbn; auto|].
      split; [constructor; [exact Hdate | assumption]|].
      cbn [Datatypes.length Nat.add]. f_equal. exact Hlen.
    + destruct (parseCSVLine_Throw _ _ _ _ _ _ _ E) as (-> & Hany & _).
      unfold ret at 1.
      destruct (IH (S i) vs (es ++ [message_or_String e]) s)
        as (vs' & s' & H & Hst' & Hdr' & Hall & Hdates & Hlen).
      rewrite H. exists vs', s'.
      assert (Hone : parse_failure R cm s0 (i + 1, line) = [message_or_String e]).
      { unfold parse_failure. cbn [fst snd]. now rewrite Hany. }
      cbn [Datatypes.length seq combine flat_map]. rewrite Hone.
      rewrite <- app_assoc. cbn [app].
      split; [reflexivity|]. split; [assumption|]. split; [assumption|].
      split; [assumption|]. split; [assumption|].
      cbn [Datatypes.length app]. rewrite Nat.add_succ_r. f_equal. exact Hlen.
Qed.

End Upload.

(** Reading the list back returns whatever the store answers, and changes
    neither the store nor the summary. *)
Lemma loadUserVideos_total (user : string) (s : State) :
  exists s',
    loadUserVideos user s = (Ok tt, s')
    /\ same_store s s' /\ uploadSummary s' = uploadSummary s.
Proof.
  unfold loadUserVideos, try_catch, bind, modify, fetchUserVideos, store_select_all,
    bind, throw, ret.
  cbn. destruct (select_fault s); cbn; eexists; (split; [reflexivity|]);
    split; solve [reflexivity | unfold same_store; cbn; auto].
Qed.

Section UploadClaims.

Variable R : Runtime.

(** C4 (amended).  Every record [saveVideos] hands to the store has an
    identifier drawn from the generator for it alone, an empty [video_id]
    and a creation time read from the clock during the call, whatever the
    input row carried there; its spark code and status are those of the
    input row (an absent spark code becoming empty).  Identifiers of one
    batch are pairwise distinct and differ from every earlier draw when
    the generator never repeats, and every video the upload loop builds
    carries an empty spark code and status [pending]. *)
Theorem written_records_fields (videos : list VideoEntry.t) (userId : string)
    (s : State) :
  select_fault s = None ->
  upsert_fault s = None ->
  (exists (n : list VideoEntry.t) (rows : list Row.t) (r : SaveResult.t) (s' : State),
      saveVideos R videos userId s = (Ok r, s')
      /\ SaveResult.inserted r = List.length n
      /\ incl n videos
      /\ db s' = fold_left upsert_row rows (db s)
      /\ Forall2 (written_record R userId s s') n rows
      /\ map Row.id rows = map (uuidv4 R) (seq (draws s) (List.length n))
      /\ ((forall i j, uuidv4 R i = uuidv4 R j -> i = j) ->
          NoDup (map Row.id rows)
          /\ forall k, k < draws s -> ~ In (uuidv4 R k) (map Row.id rows)))
  /\ (forall cm i rest s1 vs es s2,
        process_rows R cm i rest [] [] s1 = (Ok (vs, es), s2) ->
        Forall upload_defaults vs).
Proof.
  intros Hsel Hups. split.
  - destruct (saveVideos_total R videos userId s Hsel Hups)
      as (d & n & rows & s' & Hs & Hdb & Hids & Hws & Hincl & Hlen).
    exists n, rows, (SaveResult.Build (List.length n) (List.length d)), s'.
    split; [assumption|]. split; [reflexivity|]. split; [assumption|].
    split; [assumption|]. split; [assumption|]. split; [assumption|].
    intros Hinj. rewrite Hids. split.
    + apply NoDup_map_injective; [assumption | apply seq_NoDup].
    + intros k Hk Hin. apply in_map_iff in Hin. destruct Hin as [j [Hj Hjs]].
      apply Hinj in Hj. apply in_seq in Hjs. lia.
  - intros cm i rest s1 vs es s2 H.
    destruct (process_rows_spec R cm s1 rest i [] [] s1) as (vs' & s' & H' & _ & _ & Hall & _).
    rewrite H in H'. cbn [app] in H'. injection H' as -> _ _. assumption.
Qed.

(** The summary of an upload whose header resolves, when the store
    reports no error or no line parses (nothing is saved then): the number
    of videos parsed, 0, the number of failures, the number of data lines,
    and the failure messages. *)
Lemma handleFileSelect_summary (user text : string) (s s0 : State)
    (cm : CSVColumnMap.t) :
  2 <= List.length (file_lines text) ->
  findColumnIndices (nth 0 (file_lines text) "") = Ok cm ->
  let msgs := flat_map (parse_failure R cm s0) (numbered_data_lines (file_lines text)) in
  (select_fault s = None /\ upsert_fault s = None)
  \/ List.length msgs = List.length (file_lines text) - 1 ->
  exists s',
    handleFileSelect R user text s = (Ok tt, s')
    /\ uploadSummary s'
       = Some (UploadSummaryData.Build
                 (List.length (file_lines text) - 1 - List.length msgs) 0
                 (List.length msgs) (List.length (file_lines text) - 1) msgs).
Proof.
  intros Hlen Hcm msgs Hstore.
  unfold handleFileSelect, try_catch. unfold bind at 1. unfold modify at 1.
  destruct (Nat.ltb_spec (List.length (file_lines text)) 2) as [Hlt|_]; [lia|].
  unfold bind at 1. unfold lift. rewrite Hcm. unfold bind at 1.
  destruct (process_rows_spec R cm s0 (skipn 1 (file_lines text)) 1 [] []
              (set_error None s)) as (vs & s1 & Hp & Hst1 & _ & _ & _ & Hcount).
  rewrite Hp. cbn [app].
  change (combine (seq (1 + 1) (List.length (skipn 1 (file_lines text))))
            (skipn 1 (file_lines text)))
    with (combine (seq 2 (List.length (skipn 1 (file_lines text))))
            (skipn 1 (file_lines text))) in *.
  rewrite length_skipn in *.
  fold (numbered_data_lines (file_lines text)) in *. fold msgs in Hcount |- *.
  assert (Hnew : List.length vs = List.length (file_lines text) - 1 - List.length msgs)
    by lia.
  unfold bind at 1.
  destruct (Nat.ltb_spec 0 (List.length vs)) as [Hpos|Hzero].
  - destruct Hstore as [[Hsel Hups]|Hnone]; [|lia].
    assert (Hsel1 : select_fault s1 = None)
      by (destruct Hst1 as (_ & -> & _); exact Hsel).
    assert (Hups1 : upsert_fault s1 = None)
      by (destruct Hst1 as (_ & _ & -> & _); exact Hups).
    destruct (saveVideos_total R vs user s1 Hsel1 Hups1)
      as (d & n & rows & s2 & Hs & _).
    unfold bind at 1. rewrite Hs.
    destruct (loadUserVideos_total user s2) as (s3 & Hl & _ & _).
    rewrite Hl. unfold setUploadSummary, modify.
    eexists. split; [reflexivity|]. cbn. now rewrite Hnew.
  - unfold ret at 1. unfold setUploadSummary, modify.
    eexists. split; [reflexivity|]. cbn. now rewrite Hnew.
Qed.

End UploadClaims.

(** ** Saving the same batch again *)

Lemma has_match_true (userId : string) (rows : list Row.t) (pd : string)
    (v : VideoEntry.t) :
  has_match userId rows pd v = true
  <-> exists r, In r rows
                /\ matches userId (VideoEntry.name v) pd (VideoEntry.creatorUsername v) r
                   = true.
Proof.
  unfold has_match. rewrite length_map. split.
  - intros H. apply Nat.ltb_lt in H.
    destruct (filter _ rows) as [|r l] eqn:E; [cbn in H; lia|].
    assert (Hin : In r (filter (matches userId (VideoEntry.name v) pd
                                  (VideoEntry.creatorUsername v)) rows))
      by (rewrite E; now left).
    apply filter_In in Hin. exists r. exact Hin.
  - intros [r Hr]. apply Nat.ltb_lt. apply filter_In in Hr.
    destruct (filter _ rows); [destruct Hr | cbn; lia].
Qed.

Lemma opt_string_eqb_refl (a : option string) : opt_string_eqb a a = true.
Proof. destruct a; cbn; [apply String.eqb_refl | reflexivity]. Qed.

Lemma filter_all {A : Type} (p : A -> bool) (l : list A) :
  (forall x, In x l -> p x = true) ->
  filter p l = l /\ filter (fun x => negb (p x)) l = [].
Proof.
  induction l as [|x l IH]; intros H; [split; reflexivity|].
  cbn. rewrite (H x (or_introl eq_refl)). cbn.
  destruct IH as [-> ->]; [intros y Hy; apply H; now right|]. split; reflexivity.
Qed.

Lemma Forall2_In_l {A B : Type} (P : A -> B -> Prop) (l : list A) (l' : list B) (x : A) :
  Forall2 P l l' -> In x l -> exists y, In y l' /\ P x y.
Proof.
  induction 1 as [|a b l l' Hab _ IH]; intros Hin; [destruct Hin|].
  destruct Hin as [<-|Hin].
  - exists b. split; [now left | assumption].
  - destruct (IH Hin) as [y [Hy Hp]]. exists y. split; [now right | assumption].
Qed.

Section SaveTwice.

Variable R : Runtime.

(** The generator never repeats, and never returns an identifier the
    store already holds. *)
Hypothesis uuid_unique : forall i j, uuidv4 R i = uuidv4 R j -> i = j.

(** After a successful save of rows whose dates parse, the store holds
    its old rows followed by one row for each video that had no match,
    with that video's owner, name, normalised date and creator. *)
Lemma saveVideos_parsed_inv (videos : list VideoEntry.t) (userId : string)
    (s s1 : State) (r1 : SaveResult.t) :
  (forall k, draws s <= k -> ~ In (uuidv4 R k) (map Row.id (db s))) ->
  Forall (date_parses R) videos ->
  saveVideos R videos userId s = (Ok r1, s1) ->
  exists rows,
    db s1 = db s ++ rows
    /\ Forall2 (fun v r => Row.post_date r = normal_date R v
                           /\ Row.user_id r = userId
                           /\ Row.name r = VideoEntry.name v
                           /\ Row.creator_username r = VideoEntry.creatorUsername v)
         (filter (fun v => negb (has_match userId (db s) (normal_date R v) v)) videos)
         rows.
Proof.
  intros Hfresh Hdates H. unfold saveVideos, checkForDuplicates in H.
  destruct videos as [|v0 videos0].
  { cbn in H. injection H as _ <-. exists []. cbn. rewrite app_nil_r.
    split; [reflexivity | constructor]. }
  destruct (select_fault s) as [e|] eqn:Hsel.
  { destruct (classify_fault R v0 videos0 userId [] [] s e Hsel) as (s' & Hc & _).
    unfold bind at 1 in H. rewrite Hc in H. discriminate. }
  unfold bind at 1 in H. rewrite (classify_parsed R _ userId [] [] s Hsel Hdates) in H.
  cbn [app] in H.
  set (videos := v0 :: videos0) in *.
  set (n := filter (fun v => negb (has_match userId (db s) (normal_date R v) v)) videos) in *.
  assert (Hn : Forall (date_parses R) n).
  { apply Forall_forall. intros x Hx. unfold n in Hx. apply filter_In in Hx.
    rewrite Forall_forall in Hdates. now apply Hdates. }
  destruct n as [|v n'] eqn:En.
  { cbn in H. injection H as _ <-. exists []. rewrite app_nil_r.
    split; [reflexivity | constructor]. }
  rewrite <- En in *.
  destruct (mapM_new_row R userId n s)
    as (rows & s2 & Hm & Hst2 & Hdr2 & Htk2 & Hids & _ & Hkeys).
  assert (Hpos : (0 <? List.length n) = true) by (rewrite En; reflexivity).
  rewrite Hpos in H. unfold bind at 1 in H. unfold bind at 1 in H. rewrite Hm in H.
  unfold bind at 1 in H. unfold store_upsert in H.
  destruct (upsert_fault s2) as [e|]; [cbn in H; discriminate|].
  cbn in H. injection H as _ <-. cbn [db set_db].
  exists rows. split.
  - destruct Hst2 as (-> & _). apply fold_upsert_fresh.
    + rewrite Hids. apply NoDup_map_injective; [exact uuid_unique | apply seq_NoDup].
    + intros r Hr Hin.
      assert (Hrid : In (Row.id r) (map Row.id rows)) by now apply in_map.
      rewrite Hids in Hrid. apply in_map_iff in Hrid. destruct Hrid as [k [Hk Hks]].
      apply in_seq in Hks. apply (Hfresh k); [lia|]. now rewrite Hk.
  - clear - Hkeys Hn. induction Hkeys as [|a b l l' Hab Hrest IH]; constructor.
    + apply Hab. now inversion Hn.
    + apply IH. now inversion Hn.
Qed.

(** C3.  Saving a batch of rows whose dates parse, and saving the same
    batch again for the same user while the stored rows are as the first
    call left them, classifies every row as a duplicate the second time
    and writes nothing: the second call returns 0 inserted, every row
    counted as duplicate, and leaves the state as it found it.  The
    identifiers come from a generator that never repeats and never
    returns one the store already holds, and the store answers the
    queries of the second call. *)
Theorem saving_again_inserts_nothing (videos : list VideoEntry.t) (userId : string)
    (s s1 s2 : State) (r1 : SaveResult.t) :
  (forall k, draws s <= k -> ~ In (uuidv4 R k) (map Row.id (db s))) ->
  Forall (date_parses R) videos ->
  saveVideos R videos userId s = (Ok r1, s1) ->
  db s2 = db s1 ->
  select_fault s2 = None ->
  checkForDuplicates R videos userId s2 = (Ok (videos, []), s2)
  /\ saveVideos R videos userId s2
     = (Ok (SaveResult.Build 0 (List.length videos)), s2).
Proof.
  intros Hfresh Hdates H1 Hdb Hsel2.
  destruct (saveVideos_parsed_inv videos userId s s1 r1 Hfresh Hdates H1)
    as (rows & Hdb1 & Hkeys).
  assert (Hall : forall v, In v videos ->
                           has_match userId (db s2) (normal_date R v) v = true).
  { intros v Hv. rewrite Hdb, Hdb1.
    destruct (has_match userId (db s) (normal_date R v) v) eqn:E.
    - apply has_match_true in E. destruct E as [r [Hr Hm]].
      apply has_match_true. exists r. split; [apply in_or_app; now left | assumption].
    - assert (Hin : In v (filter (fun v => negb (has_match userId (db s) (normal_date R v) v))
                            videos)).
      { apply filter_In. split; [assumption | now rewrite E]. }
      destruct (Forall2_In_l _ _ _ _ Hkeys Hin) as (r & Hr & Hpd & Hu & Hn & Hc).
      apply has_match_true. exists r. split; [apply in_or_app; now right|].
      unfold matches. rewrite Hpd, Hu, Hn, Hc.
      now rewrite !String.eqb_refl, opt_string_eqb_refl. }
  assert (Hc : checkForDuplicates R videos userId s2 = (Ok (videos, []), s2)).
  { unfold checkForDuplicates. rewrite (classify_parsed R _ userId [] [] s2 Hsel2 Hdates).
    destruct (filter_all (fun v => has_match userId (db s2) (normal_date R v) v) videos Hall)
      as [-> ->]. reflexivity. }
  split; [exact Hc|].
  unfold saveVideos, bind. rewrite Hc. reflexivity.
Qed.

End SaveTwice.

(** Every video the upload loop builds has a post date that parses, on a
    runtime that parses the ISO strings it prints. *)
Lemma uploaded_videos_dates_parse (R : Runtime) (cm : CSVColumnMap.t) (i : nat)
    (rest : list string) (s s' : State) (vs : list VideoEntry.t) (es : list string) :
  (forall t, Date_parse R (toISOString R t) <> None) ->
  process_rows R cm i rest [] [] s = (Ok (vs, es), s') ->
  Forall (date_parses R) vs.
Proof.
  intros Hrt H.
  destruct (process_rows_spec R cm s rest i [] [] s) as (vs' & s1 & H' & _ & _ & _ & Hd & _).
  rewrite H in H'. cbn [app] in H'. injection H' as -> _ _.
  eapply Forall_impl; [|exact Hd]. intros v [t Ht]. unfold date_parses. rewrite Ht.
  apply Hrt.
Qed.

(** ** The sample runtime *)

Lemma show_nat_injective (n m : nat) : JS.show_nat n = JS.show_nat m -> n = m.
Proof.
  unfold JS.show_nat. intros H.
  apply (f_equal NilEmpty.uint_of_string) in H. rewrite !NilEmpty.usu in H.
  injection H as H. now apply Unsigned.to_uint_inj.
Qed.

Lemma sample_uuid_unique (i j : nat) :
  uuidv4 Sample.runtime i = uuidv4 Sample.runtime j -> i = j.
Proof.
  cbn. unfold Sample.uuidv4. cbn. intros H. injection H as H.
  now apply show_nat_injective.
Qed.

Example sample_first_upload :
  uploadSummary Sample.s_uploaded = Some (UploadSummaryData.Build 1 0 0 1 [])
  /\ map Row.creator_username (db Sample.s_uploaded) = ["bob"]
  /\ map Row.gmv (db Sample.s_uploaded) = [(JS.nearest_double false 2469 2)]
  /\ map Row.status (db Sample.s_uploaded) = [pending]
  /\ map Row.spark_code (db Sample.s_uploaded) = [""].
Proof. vm_compute. repeat split. Qed.

Example sample_header_only :
  uploadSummary (Sample.after (handleFileSelect Sample.runtime Sample.user Sample.header)
                   Sample.s0)
  = Some (UploadSummaryData.Build 0 0 1 0
            ["CSV file must contain a header row and at least one data row"]).
Proof. reflexivity. Qed.

(** ** Claims on concrete inputs *)

(** C1 fails on the code.  Uploading the same one-row file twice: the
    second upload parses the row, the duplicate check finds it in the
    store and [saveVideos] inserts nothing and reports one duplicate, yet
    the summary says one new entry and no duplicate. *)
Theorem second_upload_summary_ignores_duplicates :
  uploadSummary Sample.s_uploaded_twice
  = Some (UploadSummaryData.Build 1 0 0 1 [])
  /\ db Sample.s_uploaded_twice = db Sample.s_uploaded
  /\ List.length (db Sample.s_uploaded) = 1
  /\ process_rows Sample.runtime Sample.cm 1 [Sample.line1] [] []
       (set_error None Sample.s_uploaded)
     = (Ok ([VideoEntry.Build "" "" (Some "Cool Clip") "2024-01-05T00:00:00.000Z" "bob"
               (JS.nearest_double false 2469 2) false "2024-10-27T03:33:20.002Z" []
               pending (Some "")], []),
        tick (set_error None Sample.s_uploaded))
  /\ saveVideos Sample.runtime
       [VideoEntry.Build "" "" (Some "Cool Clip") "2024-01-05T00:00:00.000Z" "bob"
          (JS.nearest_double false 2469 2) false "2024-10-27T03:33:20.002Z" []
          pending (Some "")]
       Sample.user (tick (set_error None Sample.s_uploaded))
     = (Ok (SaveResult.Build 0 1), tick (set_error None Sample.s_uploaded)).
Proof. vm_compute. repeat split. Qed.

Lemma saving_again_inserts_nothing_witness :
  saveVideos Sample.runtime [Sample.video1] Sample.user
    (snd (saveVideos Sample.runtime [Sample.video1] Sample.user Sample.s0))
  = (Ok (SaveResult.Build 0 1),
     snd (saveVideos Sample.runtime [Sample.video1] Sample.user Sample.s0)).
Proof.
  refine (proj2 (saving_again_inserts_nothing Sample.runtime sample_uuid_unique
                   [Sample.video1] Sample.user Sample.s0
                   (snd (saveVideos Sample.runtime [Sample.video1] Sample.user Sample.s0))
                   (snd (saveVideos Sample.runtime [Sample.video1] Sample.user Sample.s0))
                   (SaveResult.Build 1 0) _ _ _ eq_refl eq_refl)).
  - intros k _ [].
  - constructor; [vm_compute; discriminate | constructor].
  - vm_compute. reflexivity.
Defined.

Lemma written_records_fields_witness :
  exists (n : list VideoEntry.t) (rows : list Row.t) (r : SaveResult.t) (s' : State),
    saveVideos Sample.runtime [Sample.video1] Sample.user Sample.s0 = (Ok r, s')
    /\ SaveResult.inserted r = List.length n
    /\ incl n [Sample.video1]
    /\ db s' = fold_left upsert_row rows (db Sample.s0)
    /\ Forall2 (written_record Sample.runtime Sample.user Sample.s0 s') n rows.
Proof.
  destruct (written_records_fields Sample.runtime [Sample.video1] Sample.user Sample.s0
              eq_refl eq_refl)
    as [(n & rows & r & s' & H1 & H2 & H3 & H4 & H5 & _) _].
  exists n, rows, r, s'. repeat split; assumption.
Defined.

(** C4 as stated fails: a row that carries a spark code and a status is
    written with them, not with an empty spark code and [pending]. *)
Lemma written_record_keeps_spark_code_and_status :
  exists r s',
    saveVideos Sample.runtime [Sample.video_authorized_already] Sample.user Sample.s0
    = (Ok r, s')
    /\ SaveResult.inserted r = 1
    /\ map Row.spark_code (db s') = ["SC-1"]
    /\ map Row.status (db s') = [authorized]
    /\ map Row.video_id (db s') = [""].
Proof.
  eexists. eexists. split; [vm_compute; reflexivity|]. repeat split.
Qed.

(** C8.  The number in a failure message is the position of the line
    among the non-blank lines, not its number in the file.  In
    [csv_gapped] the short line is line 4 of the file, after two blank
    lines; the loop goes on to line 5, which is parsed and stored, and the
    message of the short line is collected, but it says line 2. *)
Lemma blank_lines_shift_line_numbers :
  nth_error (JS.split "010" Sample.csv_gapped) 3 = Some "Other,2024-02-10"
  /\ findColumnIndices (nth 0 (file_lines Sample.csv_gapped) "") = Ok Sample.cm
  /\ exists s',
      handleFileSelect Sample.runtime Sample.user Sample.csv_gapped Sample.s0
      = (Ok tt, s')
      /\ uploadSummary s'
         = Some (UploadSummaryData.Build 1 0 1 2
                   ["Line 2: Not enough fields. Expected at least 4 fields"])
      /\ map Row.name (db s') = [Some "Cool Clip"].
Proof.
  split; [vm_compute; reflexivity|]. split; [vm_compute; reflexivity|].
  eexists. split; [vm_compute; reflexivity|]. split; reflexivity.
Qed.

(** A store error is not a row error: when the store reports one while
    the parsed row of line 2 is saved, the summary holds the message of
    that failure alone, and the message of line 3 is dropped with the
    rows. *)
Example store_error_drops_row_messages :
  findColumnIndices (nth 0 (file_lines Sample.csv_mixed) "") = Ok Sample.cm
  /\ parse_failure Sample.runtime Sample.cm Sample.s0 (3, "Other,2024-02-10")
     = ["Line 3: Not enough fields. Expected at least 4 fields"]
  /\ uploadSummary
       (Sample.after (handleFileSelect Sample.runtime Sample.user Sample.csv_mixed)
          Sample.s_offline)
     = Some (UploadSummaryData.Build 0 0 1 0 ["Failed to process CSV file"]).
Proof.
  split; [vm_compute; reflexivity|]. split; [vm_compute; reflexivity|].
  vm_compute; reflexivity.
Qed.

Lemma spark_code_save_authorizes_witness :
  Updates.status (updates_of Sample.editing) = Some authorized
  /\ exists s',
      handleSave Sample.user "uuid-0" Sample.s_editing = (Ok tt, s')
      /\ map VideoEntry.status (videos s') = [authorized]
      /\ map Row.status (db s') = [authorized].
Proof.
  destruct (spark_code_save_authorizes Sample.user "uuid-0" Sample.editing Sample.s_editing)
    as (H1 & _ & s' & H2 & _); [reflexivity | vm_compute; discriminate|].
  split; [exact H1|]. exists s'. split; [exact H2|].
  vm_compute in H2. injection H2 as <-. split; reflexivity.
Defined.

Example split_examples :
  JS.split "," "a,,b," = ["a"; ""; "b"; ""]
  /\ JS.trim "  a b	 " = "a b"
  /\ JS.toLowerCase "Video Name" = "video name"
  /\ JS.replace "@" "" "a@b@c" = "ab@c"
  /\ JS.show_nat 120 = "120".
Proof. repeat split. Qed.

(** [parseFloat] on amounts: 1234.5 is 5429388417957888 * 2^-42; a value
    with more digits than a double holds is rounded to the nearest one,
    ties to even; 0.1 and a decimal next to it give the same double; a
    minus sign before zero is kept; digits beyond the largest double
    give [Infinity]. *)
Example parseFloat_examples :
  JS.parseFloat (JS.strip_non_numeric "$1,234.50")
  = Some (S754_finite false 5429388417957888 (-42))
  /\ JS.parseFloat "-.5" = Some (S754_finite true 4503599627370496 (-53))
  /\ JS.parseFloat "." = None
  /\ JS.parseFloat "1-2" = Some (S754_finite false 4503599627370496 (-52))
  /\ JS.parseFloat "--1" = None
  /\ JS.parseFloat (JS.strip_non_numeric "n/a") = None
  /\ JS.parseFloat "9007199254740993" = Some (S754_finite false 4503599627370496 1)
  /\ JS.parseFloat "0.1" = Some (S754_finite false 7205759403792794 (-56))
  /\ JS.parseFloat "0.10000000000000000001" = JS.parseFloat "0.1"
  /\ JS.parseFloat "-0" = Some (S754_zero true)
  /\ JS.parseFloat ("1" ++ Sample.zeros 308)
     = Some (S754_finite false 5010420900022432 971)
  /\ JS.parseFloat ("1" ++ Sample.zeros 309) = Some (S754_infinity false).
Proof. vm_compute. repeat split. Qed.

(** * More properties of the program *)

(** ** Splitting and trimming *)

Lemma split_not_nil (c : ascii) (s : string) : JS.split c s <> [].
Proof.
  induction s as [|a s IH]; cbn; [discriminate|].
  destruct (Ascii.eqb a c); [discriminate|].
  destruct (JS.split c s); [congruence | discriminate].
Qed.

Lemma split_length (c : ascii) (s : string) :
  List.length (JS.split c s) = S (count_char c s).
Proof.
  unfold count_char. induction s as [|a s IH]; [reflexivity|].
  cbn [JS.split list_ascii_of_string count_occ].
  destruct (Ascii.eqb_spec a c) as [->|Hne].
  - destruct (ascii_dec c c); [|congruence]. cbn. now rewrite IH.
  - destruct (ascii_dec a c); [congruence|]. rewrite <- IH.
    destruct (JS.split c s) eqn:E; [now apply split_not_nil in E | reflexivity].
Qed.

Lemma split_pieces (c : ascii) (s : string) (f : string) :
  In f (JS.split c s) ->
  ~ occurs c f /\ forall x, occurs x f -> occurs x s.
Proof.
  unfold occurs. revert f. induction s as [|a s IH]; intros f Hin.
  - cbn in Hin. destruct Hin as [<-|[]]. cbn. split; [tauto | tauto].
  - cbn [JS.split] in Hin. destruct (Ascii.eqb_spec a c) as [->|Hne].
    + destruct Hin as [<-|Hin].
      * cbn. split; tauto.
      * destruct (IH f Hin) as [H1 H2]. split; [assumption|].
        intros x Hx. cbn. right. now apply H2.
    + destruct (JS.split c s) as [|h t] eqn:E; [now apply split_not_nil in E|].
      destruct Hin as [<-|Hin].
      * destruct (IH h (or_introl eq_refl)) as [H1 H2]. cbn. split.
        -- intros [Heq|Hc]; [congruence | tauto].
        -- intros x [Hx|Hx]; [now left | right; now apply H2].
      * destruct (IH f (or_intror Hin)) as [H1 H2]. split; [assumption|].
        intros x Hx. cbn. right. now apply H2.
Qed.

(** The first piece is the text before the first separator. *)
Lemma split_head (c : ascii) (s : string) :
  exists rest,
    s = (nth 0 (JS.split c s) "" ++ rest)%string
    /\ (rest = "" \/ exists rest', rest = String c rest').
Proof.
  induction s as [|a s (rest & IH & Hrest)].
  - exists "". split; [reflexivity | now left].
  - cbn [JS.split]. destruct (Ascii.eqb_spec a c) as [->|Hne].
    + exists (String c s). split; [reflexivity | right; eauto].
    + destruct (JS.split c s) as [|h t] eqn:E; [now apply split_not_nil in E|].
      exists rest. cbn in *. split; [now rewrite <- IH | assumption].
Qed.

Lemma trimStart_occurs (s : string) (x : ascii) :
  occurs x (JS.trimStart s) -> occurs x s.
Proof.
  unfold occurs. induction s as [|a s IH]; [trivial|].
  cbn [JS.trimStart]. destruct (JS.is_ws a); [|trivial].
  intros H. cbn. right. now apply IH.
Qed.

Lemma trimEnd_occurs (s : string) (x : ascii) :
  occurs x (JS.trimEnd s) -> occurs x s.
Proof.
  unfold occurs. induction s as [|a s IH]; [trivial|].
  cbn [JS.trimEnd]. destruct (JS.trimEnd s) as [|b t].
  - destruct (JS.is_ws a); cbn; [tauto|]. intros [H|[]]. now left.
  - cbn in *. intros [H|H]; [now left | right; now apply IH].
Qed.

Lemma trim_occurs (s : string) (x : ascii) : occurs x (JS.trim s) -> occurs x s.
Proof.
  unfold JS.trim. intros H. now apply trimStart_occurs, trimEnd_occurs.
Qed.

Lemma trimStart_head (s : string) :
  JS.trimStart s = "" \/ exists a t, JS.trimStart s = String a t /\ JS.is_ws a = false.
Proof.
  induction s as [|a s IH]; [now left|].
  cbn [JS.trimStart]. destruct (JS.is_ws a) eqn:E; [assumption|].
  right. eauto.
Qed.

Lemma trimEnd_head (a : ascii) (s : string) :
  JS.is_ws a = false -> exists t, JS.trimEnd (String a s) = String a t.
Proof.
  intros Ha. cbn [JS.trimEnd]. destruct (JS.trimEnd s); rewrite ?Ha; eauto.
Qed.

Lemma trimEnd_idempotent (s : string) : JS.trimEnd (JS.trimEnd s) = JS.trimEnd s.
Proof.
  induction s as [|a s IH]; [reflexivity|].
  cbn [JS.trimEnd]. destruct (JS.trimEnd s) as [|b t] eqn:E.
  - destruct (JS.is_ws a) eqn:Ha; [reflexivity|]. cbn. now rewrite Ha.
  - cbn [JS.trimEnd]. cbn [JS.trimEnd] in IH. rewrite IH. reflexivity.
Qed.

Lemma trim_idempotent (s : string) : JS.trim (JS.trim s) = JS.trim s.
Proof.
  unfold JS.trim.
  destruct (trimStart_head s) as [->|(a & t & -> & Ha)]; [reflexivity|].
  destruct (trimEnd_head a t Ha) as [u Hu].
  assert (Hs : JS.trimStart (JS.trimEnd (String a t)) = JS.trimEnd (String a t)).
  { rewrite Hu. cbn [JS.trimStart]. now rewrite Ha. }
  rewrite Hs. apply trimEnd_idempotent.
Qed.

(** X1.  Every line the upload works on is non-empty, has no white space
    at either end and holds no line feed. *)
Theorem file_lines_are_trimmed (text line : string) :
  In line (file_lines text) ->
  line <> "" /\ JS.trim line = line /\ ~ occurs "010" line.
Proof.
  unfold file_lines. intros H. apply filter_In in H. destruct H as [Hin Hlen].
  apply in_map_iff in Hin. destruct Hin as [raw [<- Hraw]].
  split; [|split].
  - intros E. rewrite E in Hlen. discriminate.
  - apply trim_idempotent.
  - intros Hocc. apply trim_occurs in Hocc.
    now apply (proj1 (split_pieces _ _ _ Hraw)).
Qed.

Lemma file_lines_are_trimmed_witness :
  In "x, y" (file_lines (" " ++ String "010" "  x, y  " ++ String "010" ""))
  /\ JS.trim "x, y" = "x, y".
Proof.
  assert (H : In "x, y" (file_lines (" " ++ String "010" "  x, y  " ++ String "010" "")))
    by (vm_compute; auto).
  split; [exact H|]. exact (proj1 (proj2 (file_lines_are_trimmed _ _ H))).
Defined.

(** X2.  A data line has one field more than it has commas, and every
    field is trimmed and free of commas; a line with too few commas for
    the largest column position is rejected with the not-enough-fields
    message before anything is read or changed. *)
Theorem fields_follow_the_commas (R : Runtime) (line : string) (n : nat)
    (cm : CSVColumnMap.t) (s : State) :
  List.length (line_fields line) = S (count_char "," line)
  /\ Forall (fun f => JS.trim f = f /\ ~ occurs "," f) (line_fields line)
  /\ (S (count_char "," line) < needed_fields cm ->
      parseCSVLine R line n cm s
      = (Throw (ErrorObj (line_prefix n ++ "Not enough fields. Expected at least "
                          ++ JS.show_nat (needed_fields cm) ++ " fields")%string), s)).
Proof.
  assert (Hlen : List.length (line_fields line) = S (count_char "," line)).
  { unfold line_fields. rewrite length_map. apply split_length. }
  split; [exact Hlen|]. split.
  - apply Forall_forall. intros f Hf. unfold line_fields in Hf.
    apply in_map_iff in Hf. destruct Hf as [raw [<- Hraw]].
    split; [apply trim_idempotent|].
    intros Hocc. apply trim_occurs in Hocc.
    now apply (proj1 (split_pieces _ _ _ Hraw)).
  - intros Hfew. unfold parseCSVLine.
    change (map JS.trim (JS.split "," line)) with (line_fields line).
    rewrite Hlen. destruct (Nat.ltb_spec (S (count_char "," line)) (needed_fields cm));
      [|lia].
    reflexivity.
Qed.

Lemma fields_follow_the_commas_witness :
  parseCSVLine Sample.runtime "a,b" 7 Sample.cm Sample.s0
  = (Throw (ErrorObj "Line 7: Not enough fields. Expected at least 4 fields"),
     Sample.s0).
Proof.
  apply (proj2 (proj2 (fields_follow_the_commas Sample.runtime "a,b" 7 Sample.cm
                         Sample.s0))).
  vm_compute. lia.
Defined.

(** ** Column Resolver, when it succeeds *)

Lemma findIndex_Some {A : Type} (p : A -> bool) (xs : list A) (i : nat) :
  JS.findIndex p xs = Some i ->
  (exists x, nth_error xs i = Some x /\ p x = true)
  /\ forall j y, j < i -> nth_error xs j = Some y -> p y = false.
Proof.
  revert i. induction xs as [|x xs IH]; intros i H; [discriminate|].
  cbn in H. destruct (p x) eqn:Hp.
  - injection H as <-. split; [exists x; now split | intros j y Hj; lia].
  - destruct (JS.findIndex p xs) as [k|]; [|discriminate]. injection H as <-.
    destruct (IH k eq_refl) as [Hex Hbefore]. split; [exact Hex|].
    intros [|j] y Hj Hy; cbn in Hy; [congruence|]. apply (Hbefore j); [lia | assumption].
Qed.

Lemma findIndex_first_match (headers names : list string) (i : nat) :
  JS.findIndex (JS.includes names) headers = Some i -> first_match headers names i.
Proof.
  intros H. apply findIndex_Some in H. destruct H as [[h [Hh Hp]] Hbefore].
  split.
  - exists h. split; [assumption | now apply includes_In].
  - intros j y Hj Hy Hin. apply includes_In in Hin.
    rewrite (Hbefore j y Hj Hy) in Hin. discriminate.
Qed.

Lemma get_set_same (f : string) (i : nat) (m : PartialMap) :
  get_key f (set_key f i m) = Some i.
Proof.
  induction m as [|[k v] m IH]; cbn.
  - now rewrite String.eqb_refl.
  - destruct (String.eqb_spec k f) as [->|Hne]; cbn.
    + now rewrite String.eqb_refl.
    + destruct (String.eqb_spec k f); [congruence | assumption].
Qed.

Lemma get_set_other (f g : string) (i : nat) (m : PartialMap) :
  f <> g -> get_key g (set_key f i m) = get_key g m.
Proof.
  intros Hne. induction m as [|[k v] m IH]; cbn.
  - destruct (String.eqb_spec f g); [congruence | reflexivity].
  - destruct (String.eqb_spec k f) as [->|Hkf]; cbn.
    + destruct (String.eqb_spec f g); [congruence | reflexivity].
    + destruct (String.eqb_spec k g); [reflexivity | assumption].
Qed.

Lemma resolve_columns_ok (headers : list string)
    (mappings : list (string * list string)) :
  forall columnMap : PartialMap,
    NoDup (map fst mappings) ->
    (forall m, In m mappings -> field_matches headers (snd m)) ->
    exists columnMap',
      resolve_columns headers mappings columnMap = Ok columnMap'
      /\ (forall f names, In (f, names) mappings ->
            exists i, get_key f columnMap' = Some i /\ first_match headers names i)
      /\ (forall g, ~ In g (map fst mappings) ->
            get_key g columnMap' = get_key g columnMap).
Proof.
  induction mappings as [|[f names] rest IH]; intros columnMap Hnd Hall.
  - exists columnMap. cbn. split; [reflexivity|]. split; [intros ? ? [] | reflexivity].
  - cbn [resolve_columns]. cbn [map fst] in Hnd. inversion Hnd as [|? ? Hf Hnd']; subst.
    destruct (JS.findIndex (JS.includes names) headers) as [i|] eqn:E.
    + destruct (IH (set_key f i columnMap) Hnd') as (cm' & Hres & Hin & Hout).
      { intros m Hm. apply Hall. now right. }
      exists cm'. split; [exact Hres|]. split.
      * intros g ns [[= <- <-]|Hg].
        -- exists i. split; [|now apply findIndex_first_match].
           rewrite (Hout f Hf). apply get_set_same.
        -- now apply Hin.
      * intros g Hg. cbn in Hg. rewrite Hout by tauto.
        apply get_set_other. tauto.
    + exfalso. apply findIndex_no_match in E. apply E.
      apply (Hall (f, names)). now left.
Qed.

(** X3.  When every required field has a matching header label, the
    resolution succeeds and gives each field the position of the first
    label that is one of its accepted names. *)
Theorem findColumnIndices_finds_first_labels (headerRow : string) :
  (forall m, In m columnMappings -> field_matches (header_labels headerRow) (snd m)) ->
  exists cm,
    findColumnIndices headerRow = Ok cm
    /\ first_match (header_labels headerRow) (accepted "name") (CSVColumnMap.name cm)
    /\ first_match (header_labels headerRow) (accepted "post_date")
         (CSVColumnMap.post_date cm)
    /\ first_match (header_labels headerRow) (accepted "creator_username")
         (CSVColumnMap.creator_username cm)
    /\ first_match (header_labels headerRow) (accepted "gmv") (CSVColumnMap.gmv cm).
Proof.
  intros Hall.
  destruct (resolve_columns_ok (header_labels headerRow) columnMappings [])
    as (cm' & Hres & Hin & _); [|exact Hall|].
  { cbn. repeat constructor; cbn; intuition discriminate. }
  unfold findColumnIndices. rewrite Hres. eexists. split; [reflexivity|].
  unfold as_CSVColumnMap. cbn [CSVColumnMap.name CSVColumnMap.post_date
                                 CSVColumnMap.creator_username CSVColumnMap.gmv].
  split; [|split; [|split]].
  - destruct (Hin "name" (accepted "name")) as (i & -> & Hi); [cbn; auto | exact Hi].
  - destruct (Hin "post_date" (accepted "post_date")) as (i & -> & Hi);
      [cbn; auto | exact Hi].
  - destruct (Hin "creator_username" (accepted "creator_username")) as (i & -> & Hi);
      [cbn; auto | exact Hi].
  - destruct (Hin "gmv" (accepted "gmv")) as (i & -> & Hi); [cbn; auto 6 | exact Hi].
Qed.

Lemma findIndex_matches (headers names : list string) (i : nat) :
  JS.findIndex (JS.includes names) headers = Some i -> field_matches headers names.
Proof.
  intros H. apply findIndex_first_match in H. destruct H as [[h [Hh Hn]] _].
  exists h. split; [|assumption]. eapply nth_error_In. exact Hh.
Qed.

Lemma findColumnIndices_finds_first_labels_witness :
  exists cm,
    findColumnIndices More.header_loud = Ok cm
    /\ first_match (header_labels More.header_loud) (accepted "name")
         (CSVColumnMap.name cm)
    /\ cm = CSVColumnMap.Build 0 2 3 4.
Proof.
  destruct (findColumnIndices_finds_first_labels More.header_loud)
    as (cm & Hcm & Hname & _).
  - intros m [<-|[<-|[<-|[<-|[]]]]];
      (eapply findIndex_matches; vm_compute; reflexivity).
  - exists cm. split; [exact Hcm|]. split; [exact Hname|].
    vm_compute in Hcm. now injection Hcm.
Defined.

(** ** Letter case *)

Ltac each_char c :=
  destruct c as [[] [] [] [] [] [] [] []]; vm_compute; try reflexivity.

Lemma lower_char_idempotent (c : ascii) :
  JS.lower_char (JS.lower_char c) = JS.lower_char c.
Proof. each_char c. Qed.

Lemma lower_char_ws (c : ascii) : JS.is_ws (JS.lower_char c) = JS.is_ws c.
Proof. each_char c. Qed.

Lemma lower_char_comma (c : ascii) :
  Ascii.eqb (JS.lower_char c) "," = Ascii.eqb c ",".
Proof. each_char c. Qed.

Lemma lower_char_not_capital (c : ascii) : is_capital (JS.lower_char c) = false.
Proof. each_char c. Qed.

Lemma toLowerCase_idempotent (s : string) :
  JS.toLowerCase (JS.toLowerCase s) = JS.toLowerCase s.
Proof.
  induction s as [|c s IH]; cbn [JS.toLowerCase]; [reflexivity|].
  now rewrite lower_char_idempotent, IH.
Qed.

Lemma toLowerCase_no_capital (s : string) (c : ascii) :
  occurs c (JS.toLowerCase s) -> is_capital c = false.
Proof.
  unfold occurs. induction s as [|a s IH]; cbn; [tauto|].
  intros [<-|H]; [apply lower_char_not_capital | now apply IH].
Qed.

Lemma trimStart_lower (s : string) :
  JS.trimStart (JS.toLowerCase s) = JS.toLowerCase (JS.trimStart s).
Proof.
  induction s as [|c s IH]; [reflexivity|].
  cbn [JS.toLowerCase JS.trimStart]. rewrite lower_char_ws.
  destruct (JS.is_ws c); [exact IH | reflexivity].
Qed.

Lemma trimEnd_lower (s : string) :
  JS.trimEnd (JS.toLowerCase s) = JS.toLowerCase (JS.trimEnd s).
Proof.
  induction s as [|c s IH]; [reflexivity|].
  cbn [JS.toLowerCase JS.trimEnd]. rewrite IH, lower_char_ws.
  destruct (JS.trimEnd s); cbn [JS.toLowerCase]; [|reflexivity].
  destruct (JS.is_ws c); reflexivity.
Qed.

Lemma trim_lower (s : string) :
  JS.trim (JS.toLowerCase s) = JS.toLowerCase (JS.trim s).
Proof. unfold JS.trim. now rewrite trimStart_lower, trimEnd_lower. Qed.

Lemma split_comma_lower (s : string) :
  JS.split "," (JS.toLowerCase s) = map JS.toLowerCase (JS.split "," s).
Proof.
  induction s as [|c s IH]; [reflexivity|].
  cbn [JS.toLowerCase JS.split]. rewrite lower_char_comma, IH.
  destruct (Ascii.eqb c ","); [reflexivity|].
  destruct (JS.split "," s); reflexivity.
Qed.

(** X4.  Column resolution does not depend on letter case: a header row
    and its lower-case form resolve to the same positions, or fail with
    the same message. *)
Theorem findColumnIndices_ignores_case (headerRow : string) :
  header_labels (JS.toLowerCase headerRow) = header_labels headerRow
  /\ findColumnIndices (JS.toLowerCase headerRow) = findColumnIndices headerRow.
Proof.
  assert (H : header_labels (JS.toLowerCase headerRow) = header_labels headerRow).
  { unfold header_labels. rewrite split_comma_lower, map_map.
    apply map_ext. intros h. now rewrite trim_lower, toLowerCase_idempotent. }
  split; [exact H|]. unfold findColumnIndices. now rewrite H.
Qed.

(** X5.  The labels compared with the accepted names hold no capital
    letter, so the four capitalised accepted names never match a header:
    only the lower-case names of [columnMappings] can resolve a column. *)
Theorem capitalised_names_never_match (headerRow : string) :
  Forall (fun h => ~ In h ["Video name"; "Video post date"; "Creator username"; "GMV"])
    (header_labels headerRow).
Proof.
  apply Forall_forall. intros h Hh. unfold header_labels in Hh.
  apply in_map_iff in Hh. destruct Hh as [raw [<- _]].
  assert (Hc : forall c, occurs c (JS.toLowerCase (JS.trim raw)) -> is_capital c = false)
    by (intros c; apply toLowerCase_no_capital).
  intros [E|[E|[E|[E|[]]]]]; rewrite <- E in Hc.
  - specialize (Hc "V"%char). cbn in Hc. discriminate Hc. now left.
  - specialize (Hc "V"%char). cbn in Hc. discriminate Hc. now left.
  - specialize (Hc "C"%char). cbn in Hc. discriminate Hc. now left.
  - specialize (Hc "G"%char). cbn in Hc. discriminate Hc. now left.
Qed.

(** ** What a save can do to the store *)

Section SaveOutcomes.

Variable R : Runtime.

Lemma classify_any (videos : list VideoEntry.t) (userId : string)
    (dups news : list VideoEntry.t) (s : State) :
  (exists d n s',
      classify R videos userId dups news s = (Ok (dups ++ d, news ++ n), s')
      /\ same_store s s' /\ draws s' = draws s /\ ticks s <= ticks s'
      /\ List.length d + List.length n = List.length videos
      /\ incl n videos)
  \/ (exists e s',
        classify R videos userId dups news s = (Throw e, s')
        /\ same_store s s' /\ draws s' = draws s /\ select_fault s = Some e).
Proof.
  destruct (select_fault s) as [e|] eqn:Hsel.
  - destruct videos as [|v videos].
    + left. exists [], [], s. cbn. rewrite !app_nil_r.
      split; [reflexivity|]. split; [apply same_store_refl|]. split; [reflexivity|].
      split; [lia|]. split; [reflexivity | apply incl_nil_l].
    + right. cbn [classify]. unfold bind at 1.
      destruct (parseDate_total R (VideoEntry.postDate v) s)
        as (pd & s1 & Hpd & Hst & Hdr & Htk).
      rewrite Hpd. unfold bind at 1. unfold store_select_id.
      assert (Hsel1 : select_fault s1 = Some e)
        by (destruct Hst as (_ & -> & _); exact Hsel).
      rewrite Hsel1. cbn. exists e, s1.
      split; [reflexivity|]. split; [assumption|]. split; [assumption | reflexivity].
  - left. destruct (classify_total R videos userId dups news s Hsel)
      as (d & n & s' & H & Hst & Hdr & Htk & Hlen & _ & Hn).
    exists d, n, s'. split; [exact H|]. split; [exact Hst|]. split; [exact Hdr|].
    split; [exact Htk|]. split; assumption.
Qed.

Lemma saveVideos_any (videos : list VideoEntry.t) (userId : string) (s : State) :
  (exists r n rows s',
      saveVideos R videos userId s = (Ok r, s')
      /\ SaveResult.inserted r + SaveResult.duplicates r = List.length videos
      /\ List.length rows = SaveResult.inserted r
      /\ db s' = fold_left upsert_row rows (db s)
      /\ map Row.id rows = map (uuidv4 R) (seq (draws s) (List.length rows))
      /\ incl n videos
      /\ Forall2 (written_record R userId s s') n rows)
  \/ (exists e s',
        saveVideos R videos userId s = (Throw e, s')
        /\ db s' = db s
        /\ (select_fault s = Some e \/ upsert_fault s = Some e)).
Proof.
  unfold saveVideos, checkForDuplicates, bind.
  destruct (classify_any videos userId [] [] s)
    as [(d & n & s1 & Hc & Hst & Hdr & Htk & Hlen & Hincl)|(e & s1 & Hc & Hst & Hdr & He)].
  - cbn [app] in Hc. rewrite Hc. destruct n as [|v n].
    + left. exists (SaveResult.Build 0 (List.length d)), [], [], s1. cbn.
      split; [reflexivity|]. split; [cbn in Hlen; lia|]. split; [reflexivity|].
      split; [apply Hst|]. split; [reflexivity|]. split; [apply incl_nil_l | constructor].
    + destruct (mapM_new_row R userId (v :: n) s1)
        as (rows & s2 & Hm & Hst2 & Hdr2 & Htk2 & Hids & Hws & _).
      cbn [Datatypes.length Nat.ltb Nat.leb]. rewrite Hm. unfold store_upsert.
      assert (Hlr : List.length rows = List.length (v :: n)).
      { apply (f_equal (@List.length _)) in Hids.
        rewrite !length_map, length_seq in Hids. exact Hids. }
      assert (Hdb2 : db s2 = db s)
        by (destruct Hst as (E1 & _); destruct Hst2 as (E2 & _); congruence).
      destruct (upsert_fault s2) as [e|] eqn:Hups.
      * right. exists e, s2. cbn. split; [reflexivity|]. split; [exact Hdb2|].
        right. destruct Hst as (_ & _ & E1 & _). destruct Hst2 as (_ & _ & E2 & _).
        congruence.
      * left. cbn [Response.error]. unfold ret.
        exists (SaveResult.Build (List.length (v :: n)) (List.length d)), (v :: n), rows,
          (set_db (fold_left upsert_row rows (db s2)) s2).
        split; [reflexivity|]. split; [cbn in *; lia|].
        split; [exact Hlr|]. split; [cbn; now rewrite Hdb2|].
        split; [rewrite Hids, Hlr, Hdr; reflexivity|]. split; [exact Hincl|].
        eapply Forall2_impl; [|exact Hws]. intros a b Hab.
        eapply written_record_widen; [| | | | exact Hab]; cbn; lia.
  - right. rewrite Hc. exists e, s1.
    split; [reflexivity|]. split; [apply Hst | now left].
Qed.

(** X6.  Whatever the store answers, a save either throws the error the
    store reported and leaves every stored row as it was, or returns two
    counts that add up to the size of the batch, having handed the store
    as many records as it reports inserted. *)
Theorem saveVideos_all_or_nothing (videos : list VideoEntry.t) (userId : string)
    (s : State) :
  (forall e s', saveVideos R videos userId s = (Throw e, s') ->
      db s' = db s /\ (select_fault s = Some e \/ upsert_fault s = Some e))
  /\ (forall r s', saveVideos R videos userId s = (Ok r, s') ->
        SaveResult.inserted r + SaveResult.duplicates r = List.length videos
        /\ exists rows, List.length rows = SaveResult.inserted r
                        /\ db s' = fold_left upsert_row rows (db s)).
Proof.
  destruct (saveVideos_any videos userId s)
    as [(r & n & rows & s1 & H & Hsum & Hlr & Hdb & _)|(e & s1 & H & Hdb & He)];
    rewrite H; split.
  - intros e s' [=].
  - intros r' s' [= <- <-]. split; [exact Hsum|]. exists rows. now split.
  - intros e' s' [= <- <-]. now split.
  - intros r s' [=].
Qed.

(** The new rows of a batch whose dates parse, when no video has a match
    in the store. *)
Lemma filter_none {A : Type} (p : A -> bool) (l : list A) :
  (forall x, In x l -> p x = false) ->
  filter p l = [] /\ filter (fun x => negb (p x)) l = l.
Proof.
  induction l as [|x l IH]; intros H; [split; reflexivity|].
  cbn. rewrite (H x (or_introl eq_refl)). cbn.
  destruct IH as [-> ->]; [intros y Hy; apply H; now right|]. split; reflexivity.
Qed.

(** X7.  The duplicate check looks at the store only: when no video of a
    batch has a match among the stored rows, every video of the batch is
    inserted, also a video that occurs twice in the batch, and the store
    then holds one row for each with that video's name, date and creator. *)
Theorem batch_is_not_checked_against_itself (videos : list VideoEntry.t)
    (userId : string) (s : State) :
  (forall i j, uuidv4 R i = uuidv4 R j -> i = j) ->
  (forall k, draws s <= k -> ~ In (uuidv4 R k) (map Row.id (db s))) ->
  select_fault s = None ->
  upsert_fault s = None ->
  Forall (date_parses R) videos ->
  (forall v, In v videos -> has_match userId (db s) (normal_date R v) v = false) ->
  exists rows s',
    saveVideos R videos userId s = (Ok (SaveResult.Build (List.length videos) 0), s')
    /\ db s' = db s ++ rows
    /\ Forall2 (fun v r => Row.post_date r = normal_date R v
                           /\ Row.user_id r = userId
                           /\ Row.name r = VideoEntry.name v
                           /\ Row.creator_username r = VideoEntry.creatorUsername v)
         videos rows.
Proof.
  intros Hinj Hfresh Hsel Hups Hdates Hnone.
  destruct (filter_none (fun v => has_match userId (db s) (normal_date R v) v) videos Hnone)
    as [Hd Hn].
  destruct (saveVideos_total R videos userId s Hsel Hups)
    as (d & n & rows0 & s' & Hs & Hdb0 & Hids0 & _ & _ & Hlen).
  destruct (saveVideos_parsed_inv R Hinj videos userId s s' _ Hfresh Hdates Hs)
    as (rows & Hdb & Hkeys).
  rewrite Hn in Hkeys. exists rows, s'. split; [|split; assumption].
  assert (Hfold : fold_left upsert_row rows0 (db s) = db s ++ rows0).
  { apply fold_upsert_fresh.
    - rewrite Hids0. apply NoDup_map_injective; [exact Hinj | apply seq_NoDup].
    - intros r Hr Hin.
      assert (Hrid : In (Row.id r) (map Row.id rows0)) by now apply in_map.
      rewrite Hids0 in Hrid. apply in_map_iff in Hrid. destruct Hrid as [k [Hk Hks]].
      apply in_seq in Hks. apply (Hfresh k); [lia|]. now rewrite Hk. }
  rewrite Hfold, Hdb in Hdb0. apply app_inv_head in Hdb0. subst rows0.
  assert (Hl1 : List.length rows = List.length n).
  { apply (f_equal (@List.length _)) in Hids0.
    now rewrite !length_map, length_seq in Hids0. }
  assert (Hl2 : List.length videos = List.length rows) by (eapply Forall2_length; eassumption).
  assert (Hn' : List.length n = List.length videos) by lia.
  assert (Hd' : List.length d = 0) by lia.
  rewrite Hs, Hn', Hd'. reflexivity.
Qed.

End SaveOutcomes.

Lemma saveVideos_all_or_nothing_witness :
  snd (saveVideos Sample.runtime [Sample.video1] Sample.user Sample.s_offline)
  = Sample.s_offline
  /\ SaveResult.inserted (SaveResult.Build 1 0) + SaveResult.duplicates (SaveResult.Build 1 0)
     = 1.
Proof.
  destruct (saveVideos_all_or_nothing Sample.runtime [Sample.video1] Sample.user
              Sample.s_offline) as [H1 _].
  destruct (saveVideos_all_or_nothing Sample.runtime [Sample.video1] Sample.user
              Sample.s0) as [_ H2].
  split.
  - reflexivity.
  - refine (proj1 (H2 (SaveResult.Build 1 0)
                     (snd (saveVideos Sample.runtime [Sample.video1] Sample.user Sample.s0))
                     _)).
    vm_compute. reflexivity.
Defined.

Lemma batch_is_not_checked_against_itself_witness :
  exists rows s',
    saveVideos Sample.runtime More.twice Sample.user Sample.s0
    = (Ok (SaveResult.Build 2 0), s')
    /\ db s' = rows
    /\ map Row.name rows = [Some "Cool Clip"; Some "Cool Clip"]
    /\ map Row.creator_username rows = ["bob"; "bob"].
Proof.
  destruct (batch_is_not_checked_against_itself Sample.runtime More.twice Sample.user
              Sample.s0 sample_uuid_unique)
    as (rows & s' & H1 & H2 & _).
  - intros k _ [].
  - reflexivity.
  - reflexivity.
  - repeat constructor; vm_compute; discriminate.
  - intros v [<-|[<-|[]]]; vm_compute; reflexivity.
  - exists rows, s'. split; [exact H1|]. split; [exact H2|].
    vm_compute in H1. injection H1 as <-. cbn in H2. subst rows. split; reflexivity.
Defined.

(** ** The upload as a whole *)

Section UploadOutcomes.

Variable R : Runtime.

(** [handleFileSelect] step by step. *)
Lemma handleFileSelect_eq (user text : string) (s : State) :
  handleFileSelect R user text s
  = if List.length (file_lines text) <? 2 then
      (Ok tt,
       set_uploadSummary
         (Some (failure_summary
                  "CSV file must contain a header row and at least one data row"))
         (set_error None s))
    else
      match findColumnIndices (nth 0 (file_lines text) "") with
      | Throw e =>
          (Ok tt,
           set_uploadSummary
             (Some (failure_summary (message_or e "Failed to process CSV file")))
             (set_error None s))
      | Ok cm =>
          match process_rows R cm 1 (skipn 1 (file_lines text)) [] [] (set_error None s) with
          | (Throw e, s1) =>
              (Ok tt,
               set_uploadSummary
                 (Some (failure_summary (message_or e "Failed to process CSV file"))) s1)
          | (Ok (vs, msgs), s1) =>
              if 0 <? List.length vs then
                match saveVideos R vs user s1 with
                | (Throw e, s2) =>
                    (Ok tt,
                     set_uploadSummary
                       (Some (failure_summary (message_or e "Failed to process CSV file")))
                       s2)
                | (Ok _, s2) =>
                    match loadUserVideos user s2 with
                    | (Throw e, s3) =>
                        (Ok tt,
                         set_uploadSummary
                           (Some (failure_summary
                                    (message_or e "Failed to process CSV file"))) s3)
                    | (Ok _, s3) =>
                        (Ok tt,
                         set_uploadSummary
                           (Some (UploadSummaryData.Build (List.length vs) 0
                                    (List.length msgs)
                                    (List.length (file_lines text) - 1) msgs)) s3)
                    end
                end
              else
                (Ok tt,
                 set_uploadSummary
                   (Some (UploadSummaryData.Build (List.length vs) 0 (List.length msgs)
                            (List.length (file_lines text) - 1) msgs)) s1)
          end
      end.
Proof.
  unfold handleFileSelect, try_catch, bind, modify, lift, setUploadSummary, ret,
    failure_summary.
  destruct (List.length (file_lines text) <? 2); [reflexivity|].
  destruct (findColumnIndices (nth 0 (file_lines text) "")) as [cm|e]; [|reflexivity].
  destruct (process_rows R cm 1 (skipn 1 (file_lines text)) [] [] (set_error None s))
    as [[[vs msgs]|e] s1]; [|reflexivity].
  destruct (0 <? List.length vs); [|reflexivity].
  destruct (saveVideos R vs user s1) as [[r|e] s2]; [|reflexivity].
  destruct (loadUserVideos user s2) as [[[]|e] s3]; reflexivity.
Qed.

Lemma written_defaults_fresh (user : string) (s1 s2 : State)
    (n : list VideoEntry.t) (rows : list Row.t) :
  Forall upload_defaults n ->
  Forall2 (written_record R user s1 s2) n rows ->
  Forall (fresh_row user) rows.
Proof.
  intros Hn Hw. induction Hw as [|v r n rows Hvr _ IH]; constructor.
  - inversion Hn as [|? ? Hv _]; subst.
    destruct Hv as (_ & _ & Hsc & Hst).
    destruct Hvr as (_ & Hvid & _ & Hspark & Hstatus & _ & _ & _ & Huser).
    unfold fresh_row. rewrite Hspark, Hsc, Hstatus, Hst. auto.
  - apply IH. now inversion Hn.
Qed.

(** Every upload ends with a summary; the store gets nothing, or one
    fresh row for each video saved. *)
Lemma handleFileSelect_any (user text : string) (s : State) :
  exists summary rows s',
    handleFileSelect R user text s = (Ok tt, s')
    /\ uploadSummary s' = Some summary
    /\ UploadSummaryData.duplicates summary = 0
    /\ UploadSummaryData.errors summary
       = List.length (UploadSummaryData.errorMessages summary)
    /\ ((UploadSummaryData.total summary = List.length (file_lines text) - 1
         /\ UploadSummaryData.newEntries summary + UploadSummaryData.errors summary
            = UploadSummaryData.total summary)
        \/ (UploadSummaryData.total summary = 0
            /\ UploadSummaryData.newEntries summary = 0
            /\ UploadSummaryData.errors summary = 1))
    /\ db s' = fold_left upsert_row rows (db s)
    /\ map Row.id rows = map (uuidv4 R) (seq (draws s) (List.length rows))
    /\ Forall (fresh_row user) rows
    /\ List.length rows <= UploadSummaryData.newEntries summary
    /\ List.length rows <= List.length (file_lines text) - 1.
Proof.
  rewrite handleFileSelect_eq.
  destruct (List.length (file_lines text) <? 2).
  { eexists. exists []. eexists. split; [reflexivity|].
    split; [reflexivity|]. cbn. split; [reflexivity|]. split; [reflexivity|].
    split; [right; auto|]. split; [reflexivity|]. split; [reflexivity|].
    split; [constructor | cbn; split; lia]. }
  destruct (findColumnIndices (nth 0 (file_lines text) "")) as [cm|e].
  2:{ eexists. exists []. eexists. split; [reflexivity|].
      split; [reflexivity|]. cbn. split; [reflexivity|]. split; [reflexivity|].
      split; [right; auto|]. split; [reflexivity|]. split; [reflexivity|].
      split; [constructor | cbn; split; lia]. }
  destruct (process_rows_spec R cm s (skipn 1 (file_lines text)) 1 [] [] (set_error None s))
    as (vs & s1 & Hp & Hst1 & Hdr1 & Hdef & _ & Hcount).
  rewrite Hp. cbn [app].
  remember (flat_map (parse_failure R cm s)
              (combine (seq (1 + 1) (List.length (skipn 1 (file_lines text))))
                 (skipn 1 (file_lines text)))) as msgs eqn:Hmsgs.
  clear Hmsgs. rewrite length_skipn in Hcount.
  destruct (Nat.ltb_spec 0 (List.length vs)) as [Hpos|Hzero].
  - destruct (saveVideos_any R vs user s1)
      as [(r & n & rows & s2 & Hs & Hsum & Hlr & Hdb & Hids & Hincl & Hw)
         |(e & s2 & Hs & Hdb & He)]; rewrite Hs.
    + destruct (loadUserVideos_total user s2) as (s3 & Hl & Hst3 & _). rewrite Hl.
      eexists. exists rows. eexists. split; [reflexivity|].
      split; [reflexivity|]. cbn. split; [reflexivity|]. split; [reflexivity|].
      split; [left; split; [reflexivity | lia]|].
      split; [destruct Hst3 as (-> & _); destruct Hst1 as (E & _);
              cbn in E; now rewrite Hdb, E|].
      split; [rewrite Hids, Hdr1; reflexivity|].
      split; [|split; lia].
      eapply written_defaults_fresh; [|exact Hw].
      rewrite Forall_forall in Hdef |- *. intros v Hv. apply Hdef. now apply Hincl.
    + eexists. exists []. eexists. split; [reflexivity|].
      split; [reflexivity|]. cbn. split; [reflexivity|]. split; [reflexivity|].
      split; [right; auto|].
      split; [destruct Hst1 as (E & _); cbn in E; now rewrite Hdb, E|].
      split; [reflexivity|]. split; [constructor | cbn; split; lia].
  - eexists. exists []. eexists. split; [reflexivity|].
    split; [reflexivity|]. cbn. split; [reflexivity|]. split; [reflexivity|].
    split; [left; split; [reflexivity | lia]|].
    split; [destruct Hst1 as (E & _); cbn in E; exact E|].
    split; [reflexivity|]. split; [constructor | cbn; split; lia].
Qed.

(** X8.  Every upload ends, without throwing, with a summary in which the
    number of duplicates is 0 and the number of errors is the number of
    messages; either the summary counts the data lines, each one as a new
    entry or as an error, or it is the summary of a failed upload: no new
    entry, one error, total 0. *)
Theorem every_upload_ends_with_a_summary (user text : string) (s : State) :
  exists summary s',
    handleFileSelect R user text s = (Ok tt, s')
    /\ uploadSummary s' = Some summary
    /\ UploadSummaryData.duplicates summary = 0
    /\ UploadSummaryData.errors summary
       = List.length (UploadSummaryData.errorMessages summary)
    /\ ((UploadSummaryData.total summary = List.length (file_lines text) - 1
         /\ UploadSummaryData.newEntries summary + UploadSummaryData.errors summary
            = UploadSummaryData.total summary)
        \/ (UploadSummaryData.total summary = 0
            /\ UploadSummaryData.newEntries summary = 0
            /\ UploadSummaryData.errors summary = 1)).
Proof.
  destruct (handleFileSelect_any user text s)
    as (summary & rows & s' & H1 & H2 & H3 & H4 & H5 & _).
  exists summary, s'. repeat (split; [assumption|]). assumption.
Qed.

(** X9.  An upload never changes or removes a stored row: whatever the
    file holds and whatever the store answers, the rows stored afterwards
    are the rows stored before followed by new ones, at most one for each
    data line, each owned by the uploading user, pending, with empty video
    id and spark code.  The identifiers come from a generator that never
    repeats and never returns one the store already holds. *)
Theorem upload_only_appends (user text : string) (s : State) :
  (forall i j, uuidv4 R i = uuidv4 R j -> i = j) ->
  (forall k, draws s <= k -> ~ In (uuidv4 R k) (map Row.id (db s))) ->
  exists rows s',
    handleFileSelect R user text s = (Ok tt, s')
    /\ db s' = db s ++ rows
    /\ Forall (fresh_row user) rows
    /\ List.length rows <= List.length (file_lines text) - 1.
Proof.
  intros Hinj Hfresh.
  destruct (handleFileSelect_any user text s)
    as (summary & rows & s' & H1 & _ & _ & _ & _ & Hdb & Hids & Hrows & _ & Hlen).
  exists rows, s'. split; [exact H1|]. split; [|split; assumption].
  rewrite Hdb. apply fold_upsert_fresh.
  - rewrite Hids. apply NoDup_map_injective; [exact Hinj | apply seq_NoDup].
  - intros r Hr Hin.
    assert (Hrid : In (Row.id r) (map Row.id rows)) by now apply in_map.
    rewrite Hids in Hrid. apply in_map_iff in Hrid. destruct Hrid as [k [Hk Hks]].
    apply in_seq in Hks. apply (Hfresh k); [lia|]. now rewrite Hk.
Qed.

(** X10.  A file with fewer than two non-blank lines, and a file whose
    header lacks a required column, are refused as a whole: the summary
    holds the one message (for a missing column, that of the first
    required field without a matching label: the fields before it in
    [columnMappings] all have one), no line is parsed, the clock and the
    generator are not used, and the store is not called. *)
Theorem refused_files_touch_nothing (user text : string) (s : State) :
  (List.length (file_lines text) < 2 ->
   handleFileSelect R user text s
   = (Ok tt,
      set_uploadSummary
        (Some (failure_summary
                 "CSV file must contain a header row and at least one data row"))
        (set_error None s)))
  /\ (2 <= List.length (file_lines text) ->
      (exists m, In m columnMappings
                 /\ ~ field_matches (header_labels (nth 0 (file_lines text) "")) (snd m)) ->
      exists before field names rest,
        columnMappings = before ++ (field, names) :: rest
        /\ Forall (fun m => field_matches (header_labels (nth 0 (file_lines text) ""))
                              (snd m)) before
        /\ ~ field_matches (header_labels (nth 0 (file_lines text) "")) names
        /\ handleFileSelect R user text s
           = (Ok tt,
              set_uploadSummary
                (Some (failure_summary (missing_column_message field names)))
                (set_error None s))).
Proof.
  split.
  - intros Hlt. rewrite handleFileSelect_eq.
    destruct (Nat.ltb_spec (List.length (file_lines text)) 2); [reflexivity | lia].
  - intros Hge Hmiss. rewrite handleFileSelect_eq.
    destruct (Nat.ltb_spec (List.length (file_lines text)) 2); [lia|].
    destruct (resolve_columns_first_missing _ columnMappings [] Hmiss)
      as (before & field & names & rest & Heq & Hall & Hno & Hres).
    exists before, field, names, rest. split; [exact Heq|]. split; [exact Hall|].
    split; [exact Hno|].
    unfold findColumnIndices. rewrite Hres. reflexivity.
Qed.

End UploadOutcomes.

Lemma upload_only_appends_witness :
  exists rows s',
    handleFileSelect Sample.runtime Sample.user More.csv_nameless Sample.s_uploaded
    = (Ok tt, s')
    /\ db s' = db Sample.s_uploaded ++ rows
    /\ Forall (fresh_row Sample.user) rows.
Proof.
  destruct (upload_only_appends Sample.runtime Sample.user More.csv_nameless
              Sample.s_uploaded sample_uuid_unique)
    as (rows & s' & H1 & H2 & H3 & _).
  - assert (E : map Row.id (db Sample.s_uploaded) = [uuidv4 Sample.runtime 0])
      by (vm_compute; reflexivity).
    assert (D : draws Sample.s_uploaded = 1) by (vm_compute; reflexivity).
    intros k Hk Hin. rewrite E in Hin. rewrite D in Hk. destruct Hin as [Hin|[]].
    apply sample_uuid_unique in Hin. lia.
  - exists rows, s'. split; [exact H1|]. split; assumption.
Defined.

Lemma refused_files_touch_nothing_witness :
  handleFileSelect Sample.runtime Sample.user Sample.header Sample.s0
  = (Ok tt,
     set_uploadSummary
       (Some (failure_summary
                "CSV file must contain a header row and at least one data row"))
       (set_error None Sample.s0))
  /\ exists before field names rest,
      columnMappings = before ++ (field, names) :: rest
      /\ Forall (fun m => field_matches (header_labels "name,date") (snd m)) before
      /\ ~ field_matches (header_labels "name,date") names
      /\ handleFileSelect Sample.runtime Sample.user
           ("name,date" ++ String "010" "x,y") Sample.s0
         = (Ok tt,
            set_uploadSummary
              (Some (failure_summary (missing_column_message field names)))
              (set_error None Sample.s0)).
Proof.
  split.
  - apply (proj1 (refused_files_touch_nothing Sample.runtime Sample.user Sample.header
                    Sample.s0)).
    vm_compute. lia.
  - apply (proj2 (refused_files_touch_nothing Sample.runtime Sample.user
                    ("name,date" ++ String "010" "x,y") Sample.s0)).
    + vm_compute. lia.
    + exists ("gmv", ["GMV"; "gmv"; "revenue"; "earnings"]).
      split; [cbn; auto 6 | apply findIndex_no_match; vm_compute; reflexivity].
Defined.

(** ** Uploading a file again *)

Section Reupload.

Variable R : Runtime.

Lemma has_match_same_key (userId : string) (rows : list Row.t) (a b : VideoEntry.t) :
  same_key a b -> normalised R a -> normalised R b ->
  has_match userId rows (normal_date R b) b = has_match userId rows (normal_date R a) a.
Proof.
  intros (Hn & Hp & Hc) [_ Ha] [_ Hb]. unfold has_match.
  now rewrite Ha, Hb, Hn, Hp, Hc.
Qed.

Lemma process_rows_step_ok (cm : CSVColumnMap.t) (i : nat) (line : string)
    (rest : list string) (vs : list VideoEntry.t) (es : list string)
    (s s1 : State) (row : CSVVideoData.t) :
  parseCSVLine R line (i + 1) cm s = (Ok row, s1) ->
  process_rows R cm i (line :: rest) vs es s
  = process_rows R cm (S i) rest
      (vs ++ [VideoEntry.Build "" "" (CSVVideoData.name row)
                (CSVVideoData.post_date row) (CSVVideoData.creator_username row)
                (CSVVideoData.gmv row) false
                (toISOString R (clock R (ticks s1))) [] pending (Some "")])
      es (tick s1).
Proof.
  intros E. cbn [process_rows]. unfold bind at 1. unfold try_catch, bind at 1.
  rewrite E. reflexivity.
Qed.

Lemma process_rows_step_throw (cm : CSVColumnMap.t) (i : nat) (line : string)
    (rest : list string) (vs : list VideoEntry.t) (es : list string)
    (s s1 : State) (e : exn) :
  parseCSVLine R line (i + 1) cm s = (Throw e, s1) ->
  process_rows R cm i (line :: rest) vs es s
  = process_rows R cm (S i) rest vs (es ++ [message_or_String e]) s1.
Proof.
  intros E. cbn [process_rows]. unfold bind at 1. unfold try_catch, bind at 1.
  rewrite E. reflexivity.
Qed.

(** The loop over the same lines from two states builds videos with the
    same names, dates and creators, when the dates of the lines are
    stable. *)
Lemma process_rows_two_runs (cm : CSVColumnMap.t) (rest : list string) :
  (forall line pd, In line rest ->
     truthy_field (line_fields line) (CSVColumnMap.post_date cm) = Some pd ->
     stable_date R pd) ->
  forall (i : nat) (vsa vsb : list VideoEntry.t) (esa esb : list string) (sa sb : State),
    exists va vb ea eb sa' sb',
      process_rows R cm i rest vsa esa sa = (Ok (vsa ++ va, ea), sa')
      /\ process_rows R cm i rest vsb esb sb = (Ok (vsb ++ vb, eb), sb')
      /\ same_store sa sa' /\ same_store sb sb'
      /\ draws sa' = draws sa /\ draws sb' = draws sb
      /\ Forall2 same_key va vb
      /\ Forall (normalised R) va /\ Forall (normalised R) vb.
Proof.
  induction rest as [|line rest IH]; intros Hdates i vsa vsb esa esb sa sb.
  - exists [], [], esa, esb, sa, sb. cbn. rewrite !app_nil_r.
    repeat (split; [first [reflexivity | apply same_store_refl | constructor]|]).
    constructor.
  - assert (Hrest : forall l pd, In l rest ->
               truthy_field (line_fields l) (CSVColumnMap.post_date cm) = Some pd ->
               stable_date R pd)
      by (intros l pd Hl; apply Hdates; now right).
    destruct (parseCSVLine R line (i + 1) cm sa) as [[rowa|ea0] sa1] eqn:Ea.
    + destruct (parseCSVLine_Ok_inv R _ _ _ _ _ _ Ea)
        as (pd & cu & gs & g & Hlen & H1 & H2 & H3 & H4).
      destruct (Hdates line pd (or_introl eq_refl) H1) as (t & t' & Ht & Ht' & Hiso).
      pose proof (parseCSVLine_success R line (i + 1) cm sa _ _ _ _ Hlen H1 H2 H3 H4) as Sa.
      pose proof (parseCSVLine_success R line (i + 1) cm sb _ _ _ _ Hlen H1 H2 H3 H4) as Sb.
      rewrite Ht in Sa, Sb.
      rewrite (process_rows_step_ok cm i line rest vsa esa sa _ _ Sa).
      rewrite (process_rows_step_ok cm i line rest vsb esb sb _ _ Sb).
      cbn [CSVVideoData.name CSVVideoData.post_date CSVVideoData.creator_username
             CSVVideoData.gmv].
      match goal with
      | |- context [process_rows R cm (S i) rest (vsa ++ [?x]) esa (tick sa)] =>
          set (va0 := x)
      end.
      match goal with
      | |- context [process_rows R cm (S i) rest (vsb ++ [?x]) esb (tick sb)] =>
          set (vb0 := x)
      end.
      destruct (IH Hrest (S i) (vsa ++ [va0]) (vsb ++ [vb0]) esa esb (tick sa) (tick sb))
        as (va & vb & ea & eb & sa' & sb' & Ha & Hb & Hsa & Hsb & Hda & Hdb & Hk & Hna & Hnb).
      exists (va0 :: va), (vb0 :: vb), ea, eb, sa', sb'.
      rewrite Ha, Hb, <- !app_assoc. cbn [app].
      assert (Hnorm : forall v, VideoEntry.postDate v = toISOString R t -> normalised R v).
      { intros v Hv. unfold normalised, date_parses, normal_date. rewrite Hv, Ht'.
        split; [discriminate | exact Hiso]. }
      split; [reflexivity|]. split; [reflexivity|].
      split; [eapply same_store_trans; [apply same_store_tick | exact Hsa]|].
      split; [eapply same_store_trans; [apply same_store_tick | exact Hsb]|].
      split; [exact Hda|]. split; [exact Hdb|].
      split; [constructor; [unfold same_key, va0, vb0; cbn; auto | exact Hk]|].
      split; constructor; try assumption; apply Hnorm; reflexivity.
    + destruct (parseCSVLine_Throw R _ _ _ _ _ _ Ea) as (-> & Hany & _).
      rewrite (process_rows_step_throw cm i line rest vsa esa sa _ _ (Hany sa)).
      rewrite (process_rows_step_throw cm i line rest vsb esb sb _ _ (Hany sb)).
      destruct (IH Hrest (S i) vsa vsb (esa ++ [message_or_String ea0])
                  (esb ++ [message_or_String ea0]) sa sb)
        as (va & vb & ea & eb & sa' & sb' & Ha & Hb & Hrest').
      exists va, vb, ea, eb, sa', sb'. rewrite Ha, Hb. split; [reflexivity|].
      split; [reflexivity | exact Hrest'].
Qed.

(** After a successful save of videos whose dates parse, every video of
    the batch has a match in the store. *)
Lemma saved_batch_matches (videos : list VideoEntry.t) (userId : string)
    (s s1 : State) (r1 : SaveResult.t) :
  (forall i j, uuidv4 R i = uuidv4 R j -> i = j) ->
  (forall k, draws s <= k -> ~ In (uuidv4 R k) (map Row.id (db s))) ->
  Forall (date_parses R) videos ->
  saveVideos R videos userId s = (Ok r1, s1) ->
  forall v, In v videos -> has_match userId (db s1) (normal_date R v) v = true.
Proof.
  intros Hinj Hfresh Hdates H1 v Hv.
  destruct (saveVideos_parsed_inv R Hinj videos userId s s1 r1 Hfresh Hdates H1)
    as (rows & Hdb1 & Hkeys).
  rewrite Hdb1.
  destruct (has_match userId (db s) (normal_date R v) v) eqn:E.
  - apply has_match_true in E. destruct E as [r [Hr Hm]].
    apply has_match_true. exists r. split; [apply in_or_app; now left | assumption].
  - assert (Hin : In v (filter (fun v => negb (has_match userId (db s) (normal_date R v) v))
                          videos)).
    { apply filter_In. split; [assumption | now rewrite E]. }
    destruct (Forall2_In_l _ _ _ _ Hkeys Hin) as (r & Hr & Hpd & Hu & Hn & Hc).
    apply has_match_true. exists r. split; [apply in_or_app; now right|].
    unfold matches. rewrite Hpd, Hu, Hn, Hc.
    now rewrite !String.eqb_refl, opt_string_eqb_refl.
Qed.

(** A batch of which every video has a match is saved without a write. *)
Lemma saveVideos_all_duplicates (videos : list VideoEntry.t) (userId : string)
    (s : State) :
  select_fault s = None ->
  Forall (date_parses R) videos ->
  (forall v, In v videos -> has_match userId (db s) (normal_date R v) v = true) ->
  saveVideos R videos userId s = (Ok (SaveResult.Build 0 (List.length videos)), s).
Proof.
  intros Hsel Hdates Hall. unfold saveVideos, checkForDuplicates, bind.
  rewrite (classify_parsed R _ userId [] [] s Hsel Hdates).
  destruct (filter_all (fun v => has_match userId (db s) (normal_date R v) v) videos Hall)
    as [-> ->]. reflexivity.
Qed.

Lemma Forall2_In_r {A B : Type} (P : A -> B -> Prop) (l : list A) (l' : list B) (y : B) :
  Forall2 P l l' -> In y l' -> exists x, In x l /\ P x y.
Proof.
  induction 1 as [|a b l l' Hab _ IH]; intros Hin; [destruct Hin|].
  destruct Hin as [<-|Hin].
  - exists a. split; [now left | assumption].
  - destruct (IH Hin) as [x [Hx Hp]]. exists x. split; [now right | assumption].
Qed.

(** X11.  Uploading a file a second time adds no row to the store, when
    the dates of its data lines are stable, the store answered the first
    upload and answers the queries of the second, and the stored rows are
    as the first upload left them. *)
Theorem second_upload_adds_no_row (user text : string) (s s2 : State)
    (cm : CSVColumnMap.t) :
  (forall i j, uuidv4 R i = uuidv4 R j -> i = j) ->
  (forall k, draws s <= k -> ~ In (uuidv4 R k) (map Row.id (db s))) ->
  select_fault s = None ->
  upsert_fault s = None ->
  findColumnIndices (nth 0 (file_lines text) "") = Ok cm ->
  (forall line pd, In line (skipn 1 (file_lines text)) ->
     truthy_field (line_fields line) (CSVColumnMap.post_date cm) = Some pd ->
     stable_date R pd) ->
  db s2 = db (snd (handleFileSelect R user text s)) ->
  select_fault s2 = None ->
  db (snd (handleFileSelect R user text s2)) = db s2.
Proof.
  intros Hinj Hfresh Hsel Hups Hcm Hdates Hdb2 Hsel2.
  rewrite handleFileSelect_eq in Hdb2. rewrite handleFileSelect_eq.
  destruct (List.length (file_lines text) <? 2); [reflexivity|].
  rewrite Hcm in *.
  destruct (process_rows_two_runs cm (skipn 1 (file_lines text)) Hdates 1 [] [] [] []
              (set_error None s) (set_error None s2))
    as (va & vb & ea & eb & sa & sb & Ha & Hb & Hsa & Hsb & Hda & _ & Hk & Hna & Hnb).
  cbn [app] in Ha, Hb. rewrite Ha in Hdb2. rewrite Hb.
  assert (Hlen : List.length va = List.length vb) by (eapply Forall2_length; exact Hk).
  assert (Hdbb : db sb = db s2) by (destruct Hsb as (E & _); exact E).
  destruct (Nat.ltb_spec 0 (List.length vb)) as [Hpos|Hzero];
    [|cbn; exact Hdbb].
  assert (Hposa : (0 <? List.length va) = true) by (apply Nat.ltb_lt; lia).
  rewrite Hposa in Hdb2.
  assert (Hsela : select_fault sa = None) by (destruct Hsa as (_ & -> & _); exact Hsel).
  assert (Hupsa : upsert_fault sa = None) by (destruct Hsa as (_ & _ & -> & _); exact Hups).
  destruct (saveVideos_total R va user sa Hsela Hupsa) as (d & n & rows & s3 & Hs & _).
  rewrite Hs in Hdb2.
  destruct (loadUserVideos_total user s3) as (s4 & Hl & Hst4 & _).
  rewrite Hl in Hdb2. cbn [snd db set_uploadSummary] in Hdb2.
  assert (Hda' : Forall (date_parses R) va)
    by (eapply Forall_impl; [|exact Hna]; intros v Hv; apply Hv).
  assert (Hdb' : Forall (date_parses R) vb)
    by (eapply Forall_impl; [|exact Hnb]; intros v Hv; apply Hv).
  assert (Hfresha : forall k, draws sa <= k -> ~ In (uuidv4 R k) (map Row.id (db sa))).
  { intros k Hkk. destruct Hsa as (-> & _). cbn. apply Hfresh.
    rewrite Hda in Hkk. exact Hkk. }
  assert (Hall : forall v, In v vb ->
                           has_match user (db sb) (normal_date R v) v = true).
  { intros v Hv. destruct (Forall2_In_r _ _ _ _ Hk Hv) as (a & Hain & Hkey).
    rewrite Forall_forall in Hna, Hnb.
    rewrite (has_match_same_key user (db sb) a v Hkey (Hna a Hain) (Hnb v Hv)).
    rewrite Hdbb, Hdb2. destruct Hst4 as (-> & _).
    exact (saved_batch_matches va user sa s3 _ Hinj Hfresha Hda' Hs a Hain). }
  assert (Hselb : select_fault sb = None)
    by (destruct Hsb as (_ & -> & _); exact Hsel2).
  rewrite (saveVideos_all_duplicates vb user sb Hselb Hdb' Hall).
  destruct (loadUserVideos_total user sb) as (s5 & Hl5 & Hst5 & _).
  rewrite Hl5. cbn. destruct Hst5 as (-> & _). exact Hdbb.
Qed.

End Reupload.

Lemma second_upload_adds_no_row_witness :
  db (snd (handleFileSelect Sample.runtime Sample.user Sample.csv1 Sample.s_uploaded))
  = db Sample.s_uploaded.
Proof.
  apply (second_upload_adds_no_row Sample.runtime Sample.user Sample.csv1 Sample.s0
           Sample.s_uploaded Sample.cm sample_uuid_unique).
  - intros k _ [].
  - reflexivity.
  - reflexivity.
  - vm_compute. reflexivity.
  - assert (E : skipn 1 (file_lines Sample.csv1) = [Sample.line1])
      by (vm_compute; reflexivity).
    intros line pd Hin Hpd. rewrite E in Hin. destruct Hin as [<-|[]].
    vm_compute in Hpd. injection Hpd as <-.
    exists 1704412800000%Z, 1704412800000%Z. vm_compute. auto.
  - unfold Sample.s_uploaded, Sample.after. reflexivity.
  - vm_compute. reflexivity.
Defined.

(** ** The status-only and spark-code-only paths *)

Lemma handleStatusChange_eq (user id : string) (status : Status) (s : State) :
  handleStatusChange user id status s
  = (Ok tt,
     match update_fault s with
     | Some e => set_error (Some (message_or e "Failed to update status")) (set_error None s)
     | None =>
         set_videos
           (map (fun video =>
                   if String.eqb (VideoEntry.id video) id
                   then with_status status video else video)
              (videos s))
           (set_db
              (map (fun r =>
                      if String.eqb (Row.id r) id && String.eqb (Row.user_id r) user
                      then apply_patch (Patch.Build None None (Some status)) r else r)
                 (db s))
              (set_error None s))
     end).
Proof.
  unfold handleStatusChange, try_catch, bind, modify, store_update, throw. simpl.
  destruct (update_fault s); reflexivity.
Qed.

Lemma handleSparkCodeUpdate_eq (user id sparkCode : string) (s : State) :
  handleSparkCodeUpdate user id sparkCode s
  = (Ok tt,
     match update_fault s with
     | Some e =>
         set_error (Some (message_or e "Failed to update spark code")) (set_error None s)
     | None =>
         set_videos
           (map (fun video =>
                   if String.eqb (VideoEntry.id video) id
                   then with_sparkCode sparkCode video else video)
              (videos s))
           (set_db
              (map (fun r =>
                      if String.eqb (Row.id r) id && String.eqb (Row.user_id r) user
                      then apply_patch (Patch.Build None (Some sparkCode) None) r else r)
                 (db s))
              (set_error None s))
     end).
Proof.
  unfold handleSparkCodeUpdate, try_catch, bind, modify, store_update, throw. simpl.
  destruct (update_fault s); reflexivity.
Qed.

(** X12.  The status-only path changes nothing but statuses: once the
    store has accepted the call, the records with the given id (in the
    store: and the user's) have the new status, whether or not they carry
    a spark code, and every other field and record is as before; when the
    store reports an error only the error message changes. *)
Theorem status_change_touches_status_only (user id : string) (status : Status)
    (s : State) :
  exists s',
    handleStatusChange user id status s = (Ok tt, s')
    /\ Forall2 (fun old new =>
                  same_but_status old new
                  /\ (update_fault s = None -> VideoEntry.id old = id ->
                      VideoEntry.status new = status)
                  /\ (update_fault s <> None \/ VideoEntry.id old <> id -> new = old))
         (videos s) (videos s')
    /\ Forall2 (fun old new =>
                  row_same_but_status old new
                  /\ (update_fault s = None -> Row.id old = id -> Row.user_id old = user ->
                      Row.status new = status)
                  /\ (update_fault s <> None \/ Row.id old <> id \/ Row.user_id old <> user ->
                      new = old))
         (db s) (db s').
Proof.
  rewrite handleStatusChange_eq. eexists. split; [reflexivity|].
  destruct (update_fault s) as [e|]; cbn.
  - split; apply Forall2_same; intros x.
    + split; [destruct x; reflexivity|]. split; [discriminate | reflexivity].
    + split; [destruct x; reflexivity|]. split; [discriminate | reflexivity].
  - split; apply Forall2_map_same; intros x.
    + destruct (String.eqb_spec (VideoEntry.id x) id).
      * split; [reflexivity|]. split; [reflexivity|]. intros [H|H]; congruence.
      * split; [destruct x; reflexivity|]. split; [congruence | reflexivity].
    + destruct (String.eqb_spec (Row.id x) id);
        destruct (String.eqb_spec (Row.user_id x) user); cbn.
      * split; [reflexivity|]. split; [reflexivity|]. intros [H|[H|H]]; congruence.
      * split; [destruct x; reflexivity|]. split; [congruence | reflexivity].
      * split; [destruct x; reflexivity|]. split; [congruence | reflexivity].
      * split; [destruct x; reflexivity|]. split; [congruence | reflexivity].
Qed.

(** X13.  The spark-code-only path writes the given code as it is, also
    the empty string, and never touches a status: once the store has
    accepted the call, the records with the given id carry the new code
    and their old status, so a non-blank code can sit on a record that is
    not authorized, and a code can be cleared. *)
Theorem spark_code_update_keeps_status (user id sparkCode : string) (s : State) :
  exists s',
    handleSparkCodeUpdate user id sparkCode s = (Ok tt, s')
    /\ Forall2 (fun old new =>
                  VideoEntry.status new = VideoEntry.status old
                  /\ same_but_sparkCode old new
                  /\ (update_fault s = None -> VideoEntry.id old = id ->
                      VideoEntry.sparkCode new = Some sparkCode)
                  /\ (update_fault s <> None \/ VideoEntry.id old <> id -> new = old))
         (videos s) (videos s')
    /\ Forall2 (fun old new =>
                  row_same_but_spark_code old new
                  /\ (update_fault s = None -> Row.id old = id -> Row.user_id old = user ->
                      Row.spark_code new = sparkCode)
                  /\ (update_fault s <> None \/ Row.id old <> id \/ Row.user_id old <> user ->
                      new = old))
         (db s) (db s').
Proof.
  rewrite handleSparkCodeUpdate_eq. eexists. split; [reflexivity|].
  destruct (update_fault s) as [e|]; cbn.
  - split; apply Forall2_same; intros x.
    + split; [reflexivity|]. split; [now left|]. split; [discriminate | reflexivity].
    + split; [destruct x; reflexivity|]. split; [discriminate | reflexivity].
  - split; apply Forall2_map_same; intros x.
    + destruct (String.eqb_spec (VideoEntry.id x) id).
      * split; [reflexivity|]. split; [right; eauto|]. split; [reflexivity|].
        intros [H|H]; congruence.
      * split; [reflexivity|]. split; [now left|]. split; [congruence | reflexivity].
    + destruct (String.eqb_spec (Row.id x) id);
        destruct (String.eqb_spec (Row.user_id x) user); cbn.
      * split; [reflexivity|]. split; [reflexivity|]. intros [H|[H|H]]; congruence.
      * split; [destruct x; reflexivity|]. split; [congruence | reflexivity].
      * split; [destruct x; reflexivity|]. split; [congruence | reflexivity].
      * split; [destruct x; reflexivity|]. split; [congruence | reflexivity].
Qed.

(** ** The coupling of spark code and status *)

Lemma trim_blank_not_truthy (c : string) : JS.truthy (JS.trim c) = false <-> JS.trim c = "".
Proof.
  unfold JS.truthy. destruct (String.eqb_spec (JS.trim c) ""); cbn; split; congruence.
Qed.

Lemma apply_updates_coupled (ev : Editing.t) (video : VideoEntry.t) :
  coupled_video video -> coupled_video (apply_updates (updates_of ev) video).
Proof.
  unfold coupled_video, apply_updates, updates_of. cbn. intros Hold c Hc Htrim.
  destruct (JS.truthy (JS.trim (Editing.sparkCode ev))) eqn:Et; [reflexivity|].
  apply trim_blank_not_truthy in Et.
  destruct (JS.truthy (Editing.sparkCode ev)) eqn:E.
  - injection Hc as <-. congruence.
  - now apply (Hold c).
Qed.

Lemma apply_patch_coupled (ev : Editing.t) (r : Row.t) :
  coupled_row r -> coupled_row (apply_patch (patch_of (updates_of ev)) r).
Proof.
  unfold coupled_row, apply_patch, patch_of, updates_of. cbn.
  destruct (JS.truthy (JS.trim (Editing.sparkCode ev))) eqn:Et; [reflexivity|].
  apply trim_blank_not_truthy in Et.
  destruct (JS.truthy (Editing.sparkCode ev)) eqn:E; cbn [Row.spark_code Row.status];
    intros Hold Htrim.
  - exfalso. apply Htrim. exact Et.
  - now apply Hold.
Qed.

(** X14.  The combined edit keeps the coupling of spark code and status:
    if every record of the list and of the store that carries a non-blank
    spark code is authorized, the same holds after [handleSave], whatever
    the edit form holds and whatever the store answers. *)
Theorem handleSave_keeps_coupling (user id : string) (s : State) :
  Forall coupled_video (videos s) ->
  Forall coupled_row (db s) ->
  exists s',
    handleSave user id s = (Ok tt, s')
    /\ Forall coupled_video (videos s')
    /\ Forall coupled_row (db s').
Proof.
  intros Hv Hr. unfold handleSave. destruct (editingVideo s) as [ev|].
  - unfold bind. rewrite handleSaveVideo_eq. eexists. split; [reflexivity|].
    destruct (update_fault s); cbn; [now split|]. split.
    + apply Forall_forall. intros x Hx. apply in_map_iff in Hx.
      destruct Hx as [v [<- Hin]]. rewrite Forall_forall in Hv.
      destruct (String.eqb _ _); [apply apply_updates_coupled|]; now apply Hv.
    + apply Forall_forall. intros x Hx. apply in_map_iff in Hx.
      destruct Hx as [r [<- Hin]]. rewrite Forall_forall in Hr.
      destruct (_ && _); [apply apply_patch_coupled|]; now apply Hr.
  - exists s. split; [reflexivity | now split].
Qed.

(** X15.  A spark code made of white space only is stored by the combined
    edit, but does not authorize: the decision looks at the trimmed code,
    the write takes the code as typed.  Once the store has accepted the
    call, the edited record carries the blank code and its old status. *)
Theorem blank_spark_code_is_stored_unauthorizing (user id : string) (ev : Editing.t)
    (s : State) :
  editingVideo s = Some ev ->
  Editing.sparkCode ev <> "" ->
  JS.trim (Editing.sparkCode ev) = "" ->
  update_fault s = None ->
  exists s',
    handleSave user id s = (Ok tt, s')
    /\ Forall2 (fun old new =>
                  VideoEntry.status new = VideoEntry.status old
                  /\ (VideoEntry.id old = id ->
                      VideoEntry.sparkCode new = Some (Editing.sparkCode ev)))
         (videos s) (videos s')
    /\ Forall2 (fun old new =>
                  Row.status new = Row.status old
                  /\ (Row.id old = id -> Row.user_id old = user ->
                      Row.spark_code new = Editing.sparkCode ev))
         (db s) (db s').
Proof.
  intros Hev Hne Hblank Hf. unfold handleSave. rewrite Hev. unfold bind.
  rewrite handleSaveVideo_eq, Hf. eexists. split; [reflexivity|]. cbn.
  assert (Ht : JS.truthy (Editing.sparkCode ev) = true) by now apply truthy_true.
  assert (Hb : JS.truthy (JS.trim (Editing.sparkCode ev)) = false)
    by now apply trim_blank_not_truthy.
  split; apply Forall2_map_same; intros x.
  - destruct (String.eqb_spec (VideoEntry.id x) id).
    + unfold apply_updates, updates_of. cbn. rewrite Hb, Ht. split; reflexivity.
    + split; [reflexivity | congruence].
  - destruct (String.eqb_spec (Row.id x) id);
      destruct (String.eqb_spec (Row.user_id x) user); cbn;
      try (split; [reflexivity | congruence]).
    rewrite Hb, Ht. split; reflexivity.
Qed.

Lemma sample_editing_coupled :
  Forall coupled_video (videos Sample.s_editing)
  /\ Forall coupled_row (db Sample.s_editing).
Proof.
  assert (Ev : map VideoEntry.sparkCode (videos Sample.s_editing) = [Some ""])
    by (vm_compute; reflexivity).
  assert (Er : map Row.spark_code (db Sample.s_editing) = [""])
    by (vm_compute; reflexivity).
  split; apply Forall_forall.
  - intros v Hv c Hc Ht.
    assert (H : In (VideoEntry.sparkCode v)
                  (map VideoEntry.sparkCode (videos Sample.s_editing)))
      by (apply in_map; exact Hv).
    rewrite Ev in H. destruct H as [H|[]]. rewrite <- H in Hc. injection Hc as <-.
    exfalso. apply Ht. reflexivity.
  - intros r Hr Ht.
    assert (H : In (Row.spark_code r) (map Row.spark_code (db Sample.s_editing)))
      by (apply in_map; exact Hr).
    rewrite Er in H. destruct H as [H|[]]. rewrite <- H in Ht.
    exfalso. apply Ht. reflexivity.
Qed.

Lemma handleSave_keeps_coupling_witness :
  exists s',
    handleSave Sample.user "uuid-0" Sample.s_editing = (Ok tt, s')
    /\ Forall coupled_video (videos s')
    /\ Forall coupled_row (db s').
Proof.
  exact (handleSave_keeps_coupling Sample.user "uuid-0" Sample.s_editing
           (proj1 sample_editing_coupled) (proj2 sample_editing_coupled)).
Defined.

Lemma blank_spark_code_is_stored_unauthorizing_witness :
  exists s',
    handleSave Sample.user "uuid-0" More.s_editing_blank = (Ok tt, s')
    /\ map VideoEntry.sparkCode (videos s') = [Some "  "]
    /\ map VideoEntry.status (videos s') = [pending]
    /\ map Row.spark_code (db s') = ["  "]
    /\ map Row.status (db s') = [pending].
Proof.
  destruct (blank_spark_code_is_stored_unauthorizing Sample.user "uuid-0"
              More.editing_blank More.s_editing_blank)
    as (s' & H & _);
    [vm_compute; reflexivity | discriminate | reflexivity | vm_compute; reflexivity |].
  exists s'. split; [exact H|]. vm_compute in H. injection H as <-.
  repeat split.
Defined.

(** ** Opening the editor and saving at once *)

Lemma NoDup_map_In_eq {A B : Type} (f : A -> B) (l : list A) (x y : A) :
  NoDup (map f l) -> In x l -> In y l -> f x = f y -> x = y.
Proof.
  induction l as [|a l IH]; intros Hnd Hx Hy Hf; [destruct Hx|].
  cbn in Hnd. inversion Hnd as [|? ? Ha Hnd']; subst.
  destruct Hx as [<-|Hx]; destruct Hy as [<-|Hy]; try reflexivity.
  - exfalso. apply Ha. rewrite Hf. now apply in_map.
  - exfalso. apply Ha. rewrite <- Hf. now apply in_map.
  - now apply IH.
Qed.

Lemma edit_save_same_video (video : VideoEntry.t) :
  coupled_video video ->
  apply_updates
    (updates_of
       (Editing.Build (VideoEntry.id video) (VideoEntry.video_id video)
          (match VideoEntry.sparkCode video with
           | Some c => if JS.truthy c then c else ""
           | None => ""
           end)))
    video
  = video.
Proof.
  unfold coupled_video. destruct video as [i vid n pd cu g h da tg st sc].
  cbn [VideoEntry.sparkCode VideoEntry.status VideoEntry.id VideoEntry.video_id].
  intros Hc. unfold apply_updates, updates_of, spread_string.
  cbn [Updates.video_id Updates.sparkCode Updates.status Editing.video_id
         Editing.sparkCode VideoEntry.id VideoEntry.video_id VideoEntry.name
         VideoEntry.postDate VideoEntry.creatorUsername VideoEntry.gmv
         VideoEntry.hasSparkCode VideoEntry.dateAdded VideoEntry.tags
         VideoEntry.status VideoEntry.sparkCode].
  assert (Hvid : match (if JS.truthy vid then Some vid else None) with
                 | Some v => v
                 | None => vid
                 end = vid) by (destruct (JS.truthy vid); reflexivity).
  rewrite Hvid. destruct sc as [c|].
  - destruct (JS.truthy c) eqn:E.
    + rewrite E. destruct (JS.truthy (JS.trim c)) eqn:Et; [|reflexivity].
      apply truthy_true in Et. rewrite (Hc c eq_refl Et). reflexivity.
    + assert (Hb : JS.truthy (JS.trim "") = false) by reflexivity.
      rewrite Hb. assert (He : JS.truthy "" = false) by reflexivity. rewrite He.
      reflexivity.
  - assert (Hb : JS.truthy (JS.trim "") = false) by reflexivity.
    rewrite Hb. assert (He : JS.truthy "" = false) by reflexivity. rewrite He.
    reflexivity.
Qed.

(** X16.  Opening the editor on a video and saving at once, without
    typing, leaves the list as it is and closes the editor, whatever the
    store answers, when the ids of the list are distinct and the video
    keeps the coupling of spark code and status. *)
Theorem edit_then_save_changes_nothing (user : string) (video : VideoEntry.t)
    (s : State) :
  In video (videos s) ->
  NoDup (map VideoEntry.id (videos s)) ->
  coupled_video video ->
  exists s',
    (handleEdit video ;; handleSave user (VideoEntry.id video))%prog s = (Ok tt, s')
    /\ videos s' = videos s
    /\ editingVideo s' = None.
Proof.
  intros Hin Hnd Hc. unfold bind at 1. unfold handleEdit, modify.
  unfold handleSave. cbn [editingVideo set_editingVideo]. unfold bind.
  rewrite handleSaveVideo_eq. eexists. split; [reflexivity|].
  cbn [update_fault set_editingVideo videos]. destruct (update_fault s); cbn.
  - split; reflexivity.
  - split; [|reflexivity]. rewrite <- (map_id (videos s)) at 2.
    apply map_ext_in. intros x Hx.
    destruct (String.eqb_spec (VideoEntry.id x) (VideoEntry.id video)) as [E|_];
      [|reflexivity].
    assert (x = video) by (eapply NoDup_map_In_eq; eassumption). subst x.
    now apply edit_save_same_video.
Qed.

Lemma edit_then_save_changes_nothing_witness :
  exists s',
    (handleEdit More.video_listed ;; handleSave Sample.user "uuid-0")%prog More.s_listed
    = (Ok tt, s')
    /\ videos s' = [More.video_listed].
Proof.
  destruct (edit_then_save_changes_nothing Sample.user More.video_listed More.s_listed)
    as (s' & H1 & H2 & _).
  - now left.
  - repeat constructor. intros [].
  - intros c Hc Ht. injection Hc as <-. exfalso. apply Ht. reflexivity.
  - exists s'. split; [exact H1 | exact H2].
Defined.

(** ** The table: search and dates *)

Lemma string_includes_empty (s : string) : string_includes s "" = true.
Proof. destruct s; reflexivity. Qed.

Lemma prefix_append (t b : string) : String.prefix t (t ++ b) = true.
Proof.
  induction t as [|c t IH]; cbn; [destruct b; reflexivity|].
  destruct (ascii_dec c c); [exact IH | congruence].
Qed.

Lemma string_includes_inside (a t b : string) :
  string_includes (a ++ t ++ b) t = true.
Proof.
  induction a as [|c a IH].
  - cbn [append]. destruct (t ++ b)%string eqn:E; cbn [string_includes];
      rewrite <- E, prefix_append; reflexivity.
  - cbn [append string_includes]. rewrite IH.
    destruct (String.prefix t (String c (a ++ t ++ b))); reflexivity.
Qed.

Lemma toLowerCase_append (a b : string) :
  JS.toLowerCase (a ++ b) = (JS.toLowerCase a ++ JS.toLowerCase b)%string.
Proof.
  induction a as [|c a IH]; cbn; [reflexivity | now rewrite IH].
Qed.

Lemma lower_includes (field pre w post term : string) :
  field = (pre ++ w ++ post)%string ->
  JS.toLowerCase w = JS.toLowerCase term ->
  string_includes (JS.toLowerCase field) (JS.toLowerCase term) = true.
Proof.
  intros -> Hw. rewrite !toLowerCase_append, Hw. apply string_includes_inside.
Qed.

Lemma loadUserVideos_eq (user : string) (s : State) :
  loadUserVideos user s
  = (Ok tt,
     match select_fault s with
     | Some e =>
         set_loading false
           (set_error (Some (message_or e "Failed to load videos. Please try again later."))
              (set_error None s))
     | None =>
         set_loading false
           (set_videos (map entry_of_row (rows_of user (db s))) (set_error None s))
     end).
Proof.
  unfold loadUserVideos, try_catch, bind, modify, fetchUserVideos, store_select_all,
    bind, throw, ret. cbn.
  destruct (select_fault s); reflexivity.
Qed.

Lemma In_insert_desc (y : Row.t) (l : list Row.t) (x : Row.t) :
  In x (insert_desc y l) <-> x = y \/ In x l.
Proof.
  induction l as [|a l IH]; cbn [insert_desc].
  - cbn. intuition congruence.
  - destruct (String.ltb (Row.created_at a) (Row.created_at y)); cbn [In];
      [|rewrite IH]; intuition congruence.
Qed.

Lemma In_rows_of (user : string) (rows : list Row.t) (x : Row.t) :
  In x (rows_of user rows) <-> In x rows /\ Row.user_id x = user.
Proof.
  unfold rows_of.
  transitivity (In x (filter (fun r => String.eqb (Row.user_id r) user) rows)).
  - generalize (filter (fun r => String.eqb (Row.user_id r) user) rows) as l.
    induction l as [|a l IH]; cbn [fold_right]; [tauto|].
    rewrite In_insert_desc, IH. cbn [In]. intuition congruence.
  - rewrite filter_In, String.eqb_eq. tauto.
Qed.

Lemma length_rows_of (user : string) (rows : list Row.t) :
  List.length (rows_of user rows)
  = List.length (filter (fun r => String.eqb (Row.user_id r) user) rows).
Proof.
  unfold rows_of.
  generalize (filter (fun r => String.eqb (Row.user_id r) user) rows) as l.
  assert (Hins : forall y l, List.length (insert_desc y l) = S (List.length l)).
  { intros y l. induction l as [|a l IH]; cbn; [reflexivity|].
    destruct (String.ltb _ _); cbn; [reflexivity | now rewrite IH]. }
  induction l as [|a l IH]; cbn; [reflexivity|]. now rewrite Hins, IH.
Qed.

Lemma filteredVideos_nameless (vs : list VideoEntry.t) (searchTerm : string) :
  (exists video, In video vs /\ VideoEntry.name video = None) ->
  exists e, filteredVideos vs searchTerm = Throw e.
Proof.
  induction vs as [|v vs IH]; intros (video & Hin & Hname); [destruct Hin|].
  cbn [filteredVideos]. unfold search_hit.
  destruct (VideoEntry.name v) as [nm|] eqn:Hn; [|eauto].
  destruct Hin as [<-|Hin]; [congruence|].
  destruct (IH (ex_intro _ video (conj Hin Hname))) as [e ->]. eauto.
Qed.

Lemma prefix_split (t s : string) :
  String.prefix t s = true -> exists b, s = (t ++ b)%string.
Proof.
  revert s. induction t as [|c t IH]; intros s H.
  - exists s. reflexivity.
  - destruct s as [|d s]; cbn in H; [discriminate|].
    destruct (ascii_dec c d) as [->|]; [|discriminate].
    destruct (IH s H) as [b ->]. exists b. reflexivity.
Qed.

Lemma string_includes_split (s t : string) :
  string_includes s t = true -> exists a b, s = (a ++ t ++ b)%string.
Proof.
  induction s as [|c s IH]; cbn [string_includes]; intros H.
  - destruct (String.prefix t "") eqn:Hp; [|discriminate].
    destruct (prefix_split _ _ Hp) as [b Hb]. exists "", b. exact Hb.
  - destruct (String.prefix t (String c s)) eqn:Hp.
    + destruct (prefix_split _ _ Hp) as [b Hb]. exists "", b. exact Hb.
    + destruct (IH H) as (a & b & ->). exists (String c a), b. reflexivity.
Qed.

Lemma string_includes_mentions (field searchTerm : string) :
  string_includes (JS.toLowerCase field) (JS.toLowerCase searchTerm) = true
  <-> mentions searchTerm field.
Proof.
  unfold mentions. split.
  - apply string_includes_split.
  - intros (pre & post & ->). apply string_includes_inside.
Qed.

Lemma hit_mentions (searchTerm : string) (video : VideoEntry.t) (name : string) :
  VideoEntry.name video = Some name ->
  hit searchTerm video = true
  <-> mentions searchTerm name
      \/ mentions searchTerm (VideoEntry.video_id video)
      \/ mentions searchTerm (VideoEntry.creatorUsername video).
Proof.
  intros Hn. unfold hit, search_hit. rewrite Hn.
  rewrite !Bool.orb_true_iff, !string_includes_mentions. tauto.
Qed.

Lemma filteredVideos_named (vs : list VideoEntry.t) (searchTerm : string) :
  (forall video, In video vs -> VideoEntry.name video <> None) ->
  filteredVideos vs searchTerm = Ok (filter (hit searchTerm) vs).
Proof.
  induction vs as [|v vs IH]; intros Hnamed; [reflexivity|].
  cbn [filteredVideos filter]. rewrite IH by (intros x Hx; apply Hnamed; now right).
  unfold hit. destruct (search_hit searchTerm v) as [keep|e] eqn:Hs; [reflexivity|].
  exfalso. unfold search_hit in Hs.
  destruct (VideoEntry.name v) eqn:Hn; [discriminate|].
  apply (Hnamed v); [now left | exact Hn].
Qed.

Lemma filter_keeps_all {A : Type} (f : A -> bool) (l : list A) :
  (forall x, In x l -> f x = true) -> filter f l = l.
Proof.
  induction l as [|a l IH]; intros H; [reflexivity|]. cbn.
  rewrite (H a) by now left. f_equal. apply IH. intros x Hx. apply H. now right.
Qed.

(** X18.  The search of the table, when every video has a name.  The
    filtered list is the list with some videos left out, the others in
    their order; a video stays exactly when its name, its video id or its
    creator holds the search term somewhere, letter case apart; and the
    empty search term leaves the list as it is. *)
Theorem search_keeps_the_matching_videos (videos : list VideoEntry.t)
    (searchTerm : string) :
  (forall video, In video videos -> VideoEntry.name video <> None) ->
  exists kept keep,
    filteredVideos videos searchTerm = Ok kept
    /\ kept = filter keep videos
    /\ (forall video,
          In video kept
          <-> In video videos
              /\ exists name,
                  VideoEntry.name video = Some name
                  /\ (mentions searchTerm name
                      \/ mentions searchTerm (VideoEntry.video_id video)
                      \/ mentions searchTerm (VideoEntry.creatorUsername video)))
    /\ (searchTerm = "" -> kept = videos).
Proof.
  intros Hnamed. exists (filter (hit searchTerm) videos), (hit searchTerm).
  split; [now apply filteredVideos_named|]. split; [reflexivity|]. split.
  - intros video. rewrite filter_In. split.
    + intros [Hin Hhit]. split; [exact Hin|].
      destruct (VideoEntry.name video) as [name|] eqn:Hn;
        [|now destruct (Hnamed video Hin)].
      exists name. split; [reflexivity|]. now apply (hit_mentions searchTerm video name).
    + intros [Hin (name & Hn & Hm)]. split; [exact Hin|].
      now apply (hit_mentions searchTerm video name).
  - intros ->. apply filter_keeps_all. intros video Hin.
    destruct (VideoEntry.name video) as [name|] eqn:Hn;
      [|now destruct (Hnamed video Hin)].
    apply (hit_mentions "" video name Hn). left. exists "", (JS.toLowerCase name).
    reflexivity.
Qed.

Lemma search_keeps_the_matching_videos_witness :
  exists kept keep,
    filteredVideos [More.video_listed] "COOL" = Ok kept
    /\ kept = filter keep [More.video_listed]
    /\ (forall video,
          In video kept
          <-> In video [More.video_listed]
              /\ exists name,
                  VideoEntry.name video = Some name
                  /\ (mentions "COOL" name
                      \/ mentions "COOL" (VideoEntry.video_id video)
                      \/ mentions "COOL" (VideoEntry.creatorUsername video)))
    /\ ("COOL" = "" -> kept = [More.video_listed]).
Proof.
  apply (search_keeps_the_matching_videos [More.video_listed] "COOL").
  intros video [<-|[]]; vm_compute; discriminate.
Defined.

(** X19.  The date column of the table.  A date string the runtime
    cannot parse is shown as [Invalid Date]; for any other, the text
    shown holds no [T] and is the ISO form of the date up to its first
    [T] (all of it when it has none). *)
Theorem formatDate_shows_the_day (R : Runtime) (dateString : string) :
  match Date_parse R dateString with
  | None => formatDate R dateString = "Invalid Date"
  | Some t =>
      ~ occurs "T" (formatDate R dateString)
      /\ exists rest,
          toISOString R t = (formatDate R dateString ++ rest)%string
          /\ (rest = "" \/ exists rest', rest = String "T" rest')
  end.
Proof.
  unfold formatDate. destruct (Date_parse R dateString) as [t|]; [|reflexivity].
  split; [|apply split_head].
  apply (split_pieces "T" (toISOString R t)).
  pose proof (split_not_nil "T" (toISOString R t)) as Hne.
  destruct (JS.split "T" (toISOString R t)); [congruence | now left].
Qed.

(** X20.  The icon of the summary dialog after an upload.  The green
    check is shown exactly when the summary holds no message, and then
    every data line was counted as a new entry; the red cross is shown
    only when the stored rows are the rows from before the upload; the
    yellow sign goes with at least one message and at least one entry
    counted. *)
Theorem upload_icon_follows_the_outcome (R : Runtime) (user text : string)
    (s : State) :
  exists summary s',
    handleFileSelect R user text s = (Ok tt, s')
    /\ uploadSummary s' = Some summary
    /\ (getIcon summary = CheckCircle
        <-> UploadSummaryData.errorMessages summary = [])
    /\ (getIcon summary = CheckCircle ->
        UploadSummaryData.newEntries summary = List.length (file_lines text) - 1)
    /\ (getIcon summary = XCircle -> db s' = db s)
    /\ (getIcon summary = AlertCircle ->
        0 < UploadSummaryData.newEntries summary
        /\ UploadSummaryData.errorMessages summary <> []).
Proof.
  destruct (handleFileSelect_any R user text s)
    as (summary & rows & s' & H1 & H2 & _ & Herr & Hcases & Hdb & _ & _ & Hnew & _).
  exists summary, s'. split; [exact H1|]. split; [exact H2|].
  assert (Hmsgs : UploadSummaryData.errorMessages summary = []
                  <-> UploadSummaryData.errors summary = 0).
  { rewrite Herr. destruct (UploadSummaryData.errorMessages summary);
      cbn; split; intros; (reflexivity || discriminate). }
  unfold getIcon.
  destruct (Nat.ltb_spec 0 (UploadSummaryData.errors summary)) as [Hpos|Hzero];
    destruct (Nat.eqb_spec (UploadSummaryData.newEntries summary) 0) as [Hz|Hnz];
    cbn [andb].
  - split; [split; [discriminate | intros E; apply Hmsgs in E; lia]|].
    split; [discriminate|]. split; [|discriminate].
    intros _. rewrite Hdb. destruct rows; [reflexivity | cbn in Hnew; lia].
  - split; [split; [discriminate | intros E; apply Hmsgs in E; lia]|].
    split; [discriminate|]. split; [discriminate|].
    intros _. split; [lia|]. intros E. apply Hmsgs in E. lia.
  - split; [split; [intros _; apply Hmsgs; lia | reflexivity]|].
    split; [intros _; destruct Hcases as [[Ht Hs]|(_ & _ & He)]; lia|].
    split; discriminate.
  - split; [split; [intros _; apply Hmsgs; lia | reflexivity]|].
    split; [intros _; destruct Hcases as [[Ht Hs]|(_ & _ & He)]; lia|].
    split; discriminate.
Qed.

Lemma truthy_or_empty (x : string) : (if JS.truthy x then x else "") = x.
Proof. destruct x; reflexivity. Qed.

Lemma entry_of_row_shows (r : Row.t) : shows r (entry_of_row r).
Proof.
  unfold shows, entry_of_row. cbn. rewrite !truthy_or_empty.
  split; [reflexivity|]. split; [reflexivity|]. split; [reflexivity|].
  split; [reflexivity|]. split; [reflexivity|]. split; [reflexivity|].
  split; [reflexivity|]. split; reflexivity.
Qed.

(** X21.  Loading the list never throws, never changes the store and
    always ends the loading state.  When the store answers, the error is
    cleared and the list shows the rows of the user and no other: as many
    videos as the store holds rows of the user, each video showing one of
    these rows field by field, each of these rows shown by a video.  When
    the store fails, the list stays as it was and the error is the
    message of the failure, or the fixed text when the failure is not an
    [Error]. *)
Theorem loadUserVideos_shows_the_users_rows (user : string) (s : State) :
  exists s',
    loadUserVideos user s = (Ok tt, s')
    /\ db s' = db s
    /\ loading s' = false
    /\ match select_fault s with
       | Some e =>
           videos s' = videos s
           /\ error s'
              = Some (message_or e "Failed to load videos. Please try again later.")
       | None =>
           error s' = None
           /\ List.length (videos s')
              = List.length (filter (fun r => String.eqb (Row.user_id r) user) (db s))
           /\ (forall video, In video (videos s') ->
                 exists r, In r (db s) /\ Row.user_id r = user /\ shows r video)
           /\ (forall r, In r (db s) -> Row.user_id r = user ->
                 exists video, In video (videos s') /\ shows r video)
       end.
Proof.
  rewrite loadUserVideos_eq. eexists. split; [reflexivity|].
  destruct (select_fault s) as [e|]; cbn.
  - split; [reflexivity|]. split; [reflexivity|]. split; reflexivity.
  - split; [reflexivity|]. split; [reflexivity|]. split; [reflexivity|].
    split; [now rewrite length_map, length_rows_of|]. split.
    + intros video Hin. apply in_map_iff in Hin. destruct Hin as (r & <- & Hr).
      apply In_rows_of in Hr. destruct Hr as [Hr Hu].
      exists r. split; [exact Hr|]. split; [exact Hu | apply entry_of_row_shows].
    + intros r Hr Hu. exists (entry_of_row r). split; [|apply entry_of_row_shows].
      apply in_map. apply In_rows_of. now split.
Qed.

Lemma process_rows_builds (R : Runtime) (cm : CSVColumnMap.t) (s0 : State)
    (rest : list string) :
  forall (i : nat) (vs : list VideoEntry.t) (es : list string) (s : State),
    exists vs' es' s',
      process_rows R cm i rest vs es s = (Ok (vs ++ vs', es'), s')
      /\ Forall2 (built_from R cm)
           (filter (parses R cm s0) (combine (seq (i + 1) (List.length rest)) rest))
           vs'.
Proof.
  induction rest as [|line rest IH]; intros i vs es s.
  - exists [], es, s. cbn. rewrite app_nil_r. split; [reflexivity | constructor].
  - cbn [Datatypes.length seq combine filter].
    destruct (parseCSVLine R line (i + 1) cm s) as [[row|e] s1] eqn:E.
    + rewrite (process_rows_step_ok R cm i line rest vs es s s1 row E).
      destruct (parseCSVLine_Ok_state R _ _ _ _ _ _ E) as (_ & _ & _ & _ & Hany).
      assert (Hyes : parses R cm s0 (i + 1, line) = true).
      { unfold parses. cbn [fst snd]. destruct (Hany s0) as (row0 & s0' & ->).
        reflexivity. }
      rewrite Hyes.
      match goal with
      | |- context [process_rows R cm (S i) rest (vs ++ [?x]) es (tick s1)] =>
          set (v := x)
      end.
      destruct (IH (S i) (vs ++ [v]) es (tick s1)) as (vs' & es' & s' & H & Hb).
      exists (v :: vs'), es', s'. rewrite H, <- app_assoc. cbn [app].
      split; [reflexivity|]. constructor; [|exact Hb].
      exists s, s1, row. cbn [fst snd]. split; [exact E | reflexivity].
    + rewrite (process_rows_step_throw R cm i line rest vs es s s1 e E).
      destruct (parseCSVLine_Throw R _ _ _ _ _ _ E) as (_ & Hany & _).
      assert (Hno : parses R cm s0 (i + 1, line) = false).
      { unfold parses. cbn [fst snd]. now rewrite Hany. }
      rewrite Hno.
      destruct (IH (S i) vs (es ++ [message_or_String e]) s1)
        as (vs' & es' & s' & H & Hb).
      exists vs', es', s'. split; [exact H | exact Hb].
Qed.

(** X22.  A data line that fails to parse does not stop the upload loop.
    When the header resolves, the loop builds one video for each data
    line that parses, in line order, also from the lines after a failing
    one, and one message for each line that fails, in line order; a
    message begins with the position of its line among the non-blank
    lines, the header being line 1.  When the store reports no error, or
    no line parsed, the summary counts these videos as new entries and
    holds all these messages. *)
Theorem every_data_line_is_parsed (R : Runtime) (user text : string) (s s0 : State)
    (cm : CSVColumnMap.t) :
  2 <= List.length (file_lines text) ->
  findColumnIndices (nth 0 (file_lines text) "") = Ok cm ->
  exists vs s1,
    process_rows R cm 1 (skipn 1 (file_lines text)) [] [] (set_error None s)
    = (Ok (vs, flat_map (parse_failure R cm s0)
                 (numbered_data_lines (file_lines text))), s1)
    /\ Forall2 (built_from R cm)
         (filter (parses R cm s0) (numbered_data_lines (file_lines text))) vs
    /\ (forall k line m,
          In m (parse_failure R cm s0 (k, line)) ->
          exists rest, m = (line_prefix k ++ rest)%string)
    /\ ((select_fault s = None /\ upsert_fault s = None) \/ vs = [] ->
        exists s',
          handleFileSelect R user text s = (Ok tt, s')
          /\ uploadSummary s'
             = Some (UploadSummaryData.Build (List.length vs) 0
                       (List.length (flat_map (parse_failure R cm s0)
                                       (numbered_data_lines (file_lines text))))
                       (List.length (file_lines text) - 1)
                       (flat_map (parse_failure R cm s0)
                          (numbered_data_lines (file_lines text))))).
Proof.
  intros Hlen Hcm.
  destruct (process_rows_spec R cm s0 (skipn 1 (file_lines text)) 1 [] []
              (set_error None s)) as (vs & s1 & Hp & _ & _ & _ & _ & Hcount).
  destruct (process_rows_builds R cm s0 (skipn 1 (file_lines text)) 1 [] []
              (set_error None s)) as (vs' & es' & s1' & Hp' & Hb).
  rewrite Hp in Hp'. cbn [app] in Hp, Hp'. injection Hp' as <- _ _.
  change (1 + 1) with 2 in Hp, Hb, Hcount. rewrite length_skipn in Hp, Hb, Hcount.
  fold (numbered_data_lines (file_lines text)) in Hp, Hb, Hcount.
  exists vs, s1. split; [exact Hp|]. split; [exact Hb|]. split.
  - intros k line m. unfold parse_failure. cbn [fst snd].
    destruct (parseCSVLine R line k cm s0) as [[row|e] s2] eqn:E; cbn [fst]; [intros []|].
    destruct (parseCSVLine_Throw R _ _ _ _ _ _ E) as (_ & _ & rest & ->).
    intros [<-|[]]. exists rest. reflexivity.
  - intros Hstore.
    destruct (handleFileSelect_summary R user text s s0 cm Hlen Hcm) as (s' & Hrun & Hsum).
    { destruct Hstore as [Hok| ->]; [left; exact Hok | right]. cbn in Hcount. lia. }
    exists s'. split; [exact Hrun|]. rewrite Hsum. do 2 f_equal. lia.
Qed.

Lemma every_data_line_is_parsed_witness :
  exists vs s1,
    process_rows Sample.runtime Sample.cm 1 (skipn 1 (file_lines More.csv_holed)) [] []
      (set_error None Sample.s0)
    = (Ok (vs, ["Line 3: Not enough fields. Expected at least 4 fields"]), s1)
    /\ map VideoEntry.name vs = [Some "Cool Clip"; Some "Clip"]
    /\ exists s',
        handleFileSelect Sample.runtime Sample.user More.csv_holed Sample.s0
        = (Ok tt, s')
        /\ uploadSummary s'
           = Some (UploadSummaryData.Build 2 0 1 3
                     ["Line 3: Not enough fields. Expected at least 4 fields"]).
Proof.
  destruct (every_data_line_is_parsed Sample.runtime Sample.user More.csv_holed
              Sample.s0 Sample.s0 Sample.cm)
    as (vs & s1 & Hp & Hb & _ & Hsum); [vm_compute; lia | vm_compute; reflexivity |].
  assert (Hm : flat_map (parse_failure Sample.runtime Sample.cm Sample.s0)
                 (numbered_data_lines (file_lines More.csv_holed))
               = ["Line 3: Not enough fields. Expected at least 4 fields"])
    by (vm_compute; reflexivity).
  rewrite Hm in Hp, Hsum.
  assert (Hvs : map VideoEntry.name vs = [Some "Cool Clip"; Some "Clip"]
                /\ List.length vs = 2).
  { assert (Hrun : fst (process_rows Sample.runtime Sample.cm 1
                          (skipn 1 (file_lines More.csv_holed)) [] []
                          (set_error None Sample.s0))
                   = Ok (vs, ["Line 3: Not enough fields. Expected at least 4 fields"]))
      by (rewrite Hp; reflexivity).
    vm_compute in Hrun. injection Hrun as <-. split; vm_compute; reflexivity. }
  destruct Hvs as [Hnames Hlen].
  exists vs, s1. split; [exact Hp|]. split; [exact Hnames|].
  destruct Hsum as (s' & Hrun & Hs); [left; split; vm_compute; reflexivity|].
  exists s'. split; [exact Hrun|]. rewrite Hs, Hlen. vm_compute. reflexivity.
Defined.

Lemma opt_string_eqb_eq (a b : option string) : opt_string_eqb a b = true -> a = b.
Proof.
  unfold opt_string_eqb. destruct a as [x|], b as [y|]; try discriminate;
    [|reflexivity].
  intros H. apply String.eqb_eq in H. now subst.
Qed.

Lemma In_numbered (rest : list string) (line : string) :
  forall a, In line rest -> exists k, In (k, line) (combine (seq a (List.length rest)) rest).
Proof.
  induction rest as [|x rest IH]; intros a Hin; [destruct Hin|].
  cbn [Datatypes.length seq combine]. destruct Hin as [->|Hin].
  - exists a. now left.
  - destruct (IH (S a) Hin) as [k Hk]. exists k. now right.
Qed.

(** While the store answers, every video of a batch is new or has a
    stored row of the user with its name. *)
Lemma classify_covers (R : Runtime) (videos : list VideoEntry.t) (userId : string) :
  forall (dups news : list VideoEntry.t) (s : State),
    select_fault s = None ->
    exists d n s',
      classify R videos userId dups news s = (Ok (dups ++ d, news ++ n), s')
      /\ same_store s s' /\ draws s' = draws s
      /\ forall v, In v videos ->
           In v n
           \/ exists r, In r (db s) /\ Row.user_id r = userId
                        /\ Row.name r = VideoEntry.name v.
Proof.
  induction videos as [|v videos IH]; intros dups news s Hsel.
  - exists [], [], s. cbn [classify]. rewrite !app_nil_r.
    split; [reflexivity|]. split; [apply same_store_refl|].
    split; [reflexivity|]. intros v [].
  - cbn [classify]. unfold bind at 1.
    destruct (parseDate_total R (VideoEntry.postDate v) s)
      as (pd & s1 & Hpd & Hst & Hdr & Htk).
    rewrite Hpd. unfold bind at 1.
    assert (Hsel1 : select_fault s1 = None) by (destruct Hst as (_ & -> & _); exact Hsel).
    rewrite store_select_id_eq by exact Hsel1. cbn [Response.error Response.data].
    assert (Hdb1 : db s1 = db s) by (destruct Hst as (E & _); exact E).
    destruct (filter (matches userId (VideoEntry.name v) pd (VideoEntry.creatorUsername v))
                (db s1)) as [|r0 rs] eqn:Ef; cbn [map Datatypes.length Nat.ltb Nat.leb].
    + destruct (IH dups (news ++ [v]) s1 Hsel1) as (d & n & s' & H & Hst' & Hdr' & Hcov).
      exists d, (v :: n), s'. rewrite H, <- app_assoc.
      split; [reflexivity|]. split; [eapply same_store_trans; eassumption|].
      split; [congruence|].
      intros x [<-|Hx]; [left; now left|].
      destruct (Hcov x Hx) as [Hn|(r & Hr & Hu & Hnm)]; [left; now right|].
      right. exists r. rewrite <- Hdb1. auto.
    + destruct (IH (dups ++ [v]) news s1 Hsel1) as (d & n & s' & H & Hst' & Hdr' & Hcov).
      exists (v :: d), n, s'. rewrite H, <- app_assoc.
      split; [reflexivity|]. split; [eapply same_store_trans; eassumption|].
      split; [congruence|].
      assert (Hr0 : In r0 (filter (matches userId (VideoEntry.name v) pd
                                     (VideoEntry.creatorUsername v)) (db s1)))
        by (rewrite Ef; now left).
      apply filter_In in Hr0. destruct Hr0 as [Hin Hm]. unfold matches in Hm.
      apply andb_prop in Hm. destruct Hm as [Hm _].
      apply andb_prop in Hm. destruct Hm as [Hm _].
      apply andb_prop in Hm. destruct Hm as [Hu Hnm].
      apply String.eqb_eq in Hu. apply opt_string_eqb_eq in Hnm.
      intros x [<-|Hx].
      * right. exists r0. rewrite <- Hdb1. auto.
      * destruct (Hcov x Hx) as [Hn|(r & Hr & Hu' & Hnm')]; [now left|].
        right. exists r. rewrite <- Hdb1. auto.
Qed.

(** While the store answers and the generator gives new identifiers, a
    save leaves for every video of the batch a stored row of the user
    with its name: the row written for it, or the row it duplicates. *)
Lemma saveVideos_stores_names (R : Runtime) (videos : list VideoEntry.t)
    (userId : string) (s : State) :
  select_fault s = None ->
  upsert_fault s = None ->
  (forall i j, uuidv4 R i = uuidv4 R j -> i = j) ->
  (forall k, draws s <= k -> ~ In (uuidv4 R k) (map Row.id (db s))) ->
  exists r s',
    saveVideos R videos userId s = (Ok r, s')
    /\ select_fault s' = None
    /\ forall v, In v videos ->
         exists row, In row (db s') /\ Row.user_id row = userId
                     /\ Row.name row = VideoEntry.name v.
Proof.
  intros Hsel Hups Hinj Hfresh. unfold saveVideos, checkForDuplicates.
  destruct (classify_covers R videos userId [] [] s Hsel)
    as (d & n & s1 & Hc & Hst & Hdr & Hcov).
  cbn [app] in Hc. unfold bind at 1. rewrite Hc.
  assert (Hdb1 : db s1 = db s) by (destruct Hst as (E & _); exact E).
  assert (Hsel1 : select_fault s1 = None) by (destruct Hst as (_ & -> & _); exact Hsel).
  destruct n as [|v0 n].
  - eexists. exists s1. cbn. split; [reflexivity|]. split; [exact Hsel1|].
    intros v Hv. destruct (Hcov v Hv) as [[]|(r & Hr & Hu & Hnm)].
    exists r. rewrite Hdb1. auto.
  - destruct (mapM_new_row R userId (v0 :: n) s1)
      as (rows & s2 & Hm & Hst2 & Hdr2 & Htk2 & Hids & Hws & _).
    cbn [Datatypes.length Nat.ltb Nat.leb]. unfold bind at 1. unfold bind at 1. rewrite Hm.
    unfold bind at 1. unfold store_upsert.
    assert (Hups2 : upsert_fault s2 = None).
    { destruct Hst as (_ & _ & E1 & _). destruct Hst2 as (_ & _ & E2 & _). congruence. }
    assert (Hdb2 : db s2 = db s) by (destruct Hst2 as (E & _); congruence).
    assert (Hsel2 : select_fault s2 = None) by (destruct Hst2 as (_ & E & _); congruence).
    rewrite Hups2. cbn [Response.error]. unfold ret.
    eexists. eexists. split; [reflexivity|]. split; [exact Hsel2|]. cbn [db set_db].
    assert (Happ : fold_left upsert_row rows (db s2) = db s2 ++ rows).
    { apply fold_upsert_fresh.
      - rewrite Hids. apply NoDup_map_injective; [exact Hinj | apply seq_NoDup].
      - intros r Hr Hin.
        assert (Hrid : In (Row.id r) (map Row.id rows)) by now apply in_map.
        rewrite Hids in Hrid. apply in_map_iff in Hrid. destruct Hrid as [k [Hk Hks]].
        apply in_seq in Hks. rewrite Hdb2 in Hin. apply (Hfresh k); [lia|].
        now rewrite Hk. }
    intros v Hv. destruct (Hcov v Hv) as [Hn|(r & Hr & Hu & Hnm)].
    + destruct (Forall2_In_l _ _ _ _ Hws Hn) as (row & Hrow & Hw).
      exists row. split.
      * change (In row (db (set_db (fold_left upsert_row rows (db s2)) s2))).
        cbn. rewrite Happ. apply in_or_app. now right.
      * destruct Hw as (_ & _ & _ & _ & _ & Hnm & _ & _ & Hu). auto.
    + exists r. split; [|auto].
      change (In r (db (set_db (fold_left upsert_row rows (db s2)) s2))).
      cbn. rewrite Happ, Hdb2. apply in_or_app. now left.
Qed.

(** X17.  A video without a name breaks the table.  When the store holds
    a row of the user whose name is null and answers the read, loading
    the list succeeds, and computing the filtered list from it throws for
    every search term, the empty one included.  And an upload stores such
    a row: when the header resolves, a data line parses and its name cell
    is empty, the store answers and the generator gives new identifiers,
    the store holds after the upload a row of the user whose name is
    null, and the list the upload read back makes the filter throw. *)
Theorem nameless_video_breaks_the_table (R : Runtime) (user : string) (s : State) :
  (forall r,
      select_fault s = None ->
      In r (db s) -> Row.user_id r = user -> Row.name r = None ->
      exists s',
        loadUserVideos user s = (Ok tt, s')
        /\ forall searchTerm,
            exists e, filteredVideos (videos s') searchTerm = Throw e)
  /\ (forall text cm line,
        select_fault s = None ->
        upsert_fault s = None ->
        (forall i j, uuidv4 R i = uuidv4 R j -> i = j) ->
        (forall k, draws s <= k -> ~ In (uuidv4 R k) (map Row.id (db s))) ->
        2 <= List.length (file_lines text) ->
        findColumnIndices (nth 0 (file_lines text) "") = Ok cm ->
        In line (skipn 1 (file_lines text)) ->
        truthy_field (line_fields line) (CSVColumnMap.name cm) = None ->
        (exists n st row st', parseCSVLine R line n cm st = (Ok row, st')) ->
        exists s',
          handleFileSelect R user text s = (Ok tt, s')
          /\ (exists r, In r (db s') /\ Row.user_id r = user /\ Row.name r = None)
          /\ forall searchTerm,
              exists e, filteredVideos (videos s') searchTerm = Throw e).
Proof.
  split.
  - intros r Hsel Hr Hu Hn. rewrite loadUserVideos_eq, Hsel.
    eexists. split; [reflexivity|]. intros searchTerm. cbn.
    apply filteredVideos_nameless.
    exists (entry_of_row r). split; [|exact Hn].
    apply in_map. apply In_rows_of. now split.
  - intros text cm line Hsel Hups Hinj Hfresh Hlen Hcm Hline Hname
      (n0 & st & row0 & st' & Hparse).
    destruct (parseCSVLine_Ok_inv R _ _ _ _ _ _ Hparse)
      as (pd & cu & gs & g & Hl & H1 & H2 & H3 & H4).
    rewrite handleFileSelect_eq.
    destruct (Nat.ltb_spec (List.length (file_lines text)) 2) as [|_]; [lia|].
    rewrite Hcm.
    destruct (process_rows_spec R cm s (skipn 1 (file_lines text)) 1 [] []
                (set_error None s)) as (vs & s1 & Hp & Hst1 & Hdr1 & _).
    destruct (process_rows_builds R cm s (skipn 1 (file_lines text)) 1 [] []
                (set_error None s)) as (vs' & es' & s1' & Hp' & Hb).
    rewrite Hp in Hp'. cbn [app] in Hp, Hp'. injection Hp' as <- _ _.
    rewrite Hp.
    destruct (In_numbered _ _ (1 + 1) Hline) as [k Hk].
    assert (Hyes : parses R cm s (k, line) = true).
    { unfold parses. cbn [fst snd].
      now rewrite (parseCSVLine_success R line k cm s _ _ _ _ Hl H1 H2 H3 H4). }
    assert (Hkf : In (k, line)
                    (filter (parses R cm s)
                       (combine (seq (1 + 1) (List.length (skipn 1 (file_lines text))))
                          (skipn 1 (file_lines text)))))
      by (apply filter_In; split; assumption).
    destruct (Forall2_In_l _ _ _ _ Hb Hkf) as (v & Hv & (sa & sb & row & Hrow & Hveq)).
    cbn [fst snd] in Hrow.
    rewrite (parseCSVLine_success R line k cm sa _ _ _ _ Hl H1 H2 H3 H4) in Hrow.
    injection Hrow as <- _.
    assert (Hvname : VideoEntry.name v = None) by (rewrite Hveq; cbn; exact Hname).
    assert (Hpos : (0 <? List.length vs) = true).
    { destruct vs; [destruct Hv | reflexivity]. }
    rewrite Hpos.
    assert (Hdb1 : db s1 = db s) by (destruct Hst1 as (E & _); exact E).
    destruct (saveVideos_stores_names R vs user s1) as (r & s2 & Hs & Hsel2 & Hnames).
    { destruct Hst1 as (_ & -> & _). exact Hsel. }
    { destruct Hst1 as (_ & _ & -> & _). exact Hups. }
    { exact Hinj. }
    { intros j Hj. rewrite Hdb1. apply Hfresh. cbn in Hdr1. lia. }
    rewrite Hs, loadUserVideos_eq, Hsel2.
    destruct (Hnames v Hv) as (rw & Hrw & Hu & Hnm).
    eexists. split; [reflexivity|]. cbn. split.
    + exists rw. split; [exact Hrw|]. split; [exact Hu | congruence].
    + intros searchTerm. apply filteredVideos_nameless.
      exists (entry_of_row rw). split; [|cbn; congruence].
      apply in_map. apply In_rows_of. now split.
Qed.

Lemma nameless_video_breaks_the_table_witness :
  (exists s',
      loadUserVideos Sample.user More.s_nameless = (Ok tt, s')
      /\ forall searchTerm,
          exists e, filteredVideos (videos s') searchTerm = Throw e)
  /\ (exists s',
        handleFileSelect Sample.runtime Sample.user More.csv_nameless Sample.s0
        = (Ok tt, s')
        /\ (exists r, In r (db s') /\ Row.user_id r = Sample.user /\ Row.name r = None)
        /\ forall searchTerm,
            exists e, filteredVideos (videos s') searchTerm = Throw e).
Proof.
  split.
  - apply (proj1 (nameless_video_breaks_the_table Sample.runtime Sample.user
                    More.s_nameless) More.row_nameless).
    + vm_compute; reflexivity.
    + vm_compute; left; reflexivity.
    + vm_compute; reflexivity.
    + vm_compute; reflexivity.
  - apply (proj2 (nameless_video_breaks_the_table Sample.runtime Sample.user Sample.s0)
             More.csv_nameless Sample.cm ",2024-02-10,@eve,5").
    + vm_compute; reflexivity.
    + vm_compute; reflexivity.
    + exact sample_uuid_unique.
    + intros k _ H. vm_compute in H. exact H.
    + vm_compute; lia.
    + vm_compute; reflexivity.
    + vm_compute; left; reflexivity.
    + vm_compute; reflexivity.
    + exists 2, Sample.s0. eexists. eexists. vm_compute. reflexivity.
Defined.
